(** * Black-Scholes screening of the S&P 500: a shallow embedding

    The program under verification is a single Python module: a closed-form
    Black-Scholes call pricer, a historical-volatility estimator working on a
    pandas DataFrame, two fetchers (risk-free rate, daily prices) and the
    [main] loop that prices the first [selected_count] tickers, builds one row
    per priced ticker and shows the 25 rows with the largest call price.

    Numbers.  Python floats and numpy float64 values are modelled as extended
    reals: a real number, one of the two infinities, or NaN.  The special
    values follow IEEE 754.  A value also carries whether it is a Python
    [float] or a [numpy.float64], because the two differ on division by zero:
    Python raises [ZeroDivisionError], numpy returns an infinity or NaN.

    Rounding.  The formulas of the pricer and of the estimator are evaluated
    in exact real arithmetic: no rounding, no overflow (so [math.exp] never
    raises [OverflowError] here), no signed zero.  Two places of the program
    cut a float to an integer, where one unit in the last place can change
    the result: the floor division of the affordability expression and the
    scaling inside numpy's [round].  There the operations keep their
    rounding, which is a parameter of the embedding ([Float64]), with exact
    arithmetic and IEEE 754 binary64 as its two instances.

    Services.  An HTTP request either fails with an exception or is
    answered; what the program reads from an answer is part of the input,
    together with the exception raised when the answer cannot be read. *)

From Stdlib Require Import Reals Lra Lia ZArith.
From Stdlib Require Import Sorting.Sorted Sorting.Permutation.
From stdpp Require Import gmap strings list sorting.

Local Open Scope R_scope.

(** ** Exceptions and results *)

(** A Python exception, identified by the name of its class. *)
Inductive exn : Type := Exception (class_name : string).

Global Instance exn_eq_dec : EqDecision exn.
Proof. solve_decision. Defined.

Definition ZeroDivisionError : exn := Exception "ZeroDivisionError".
Definition ValueError : exn := Exception "ValueError".
Definition OverflowError : exn := Exception "OverflowError".
Definition KeyError : exn := Exception "KeyError".
Definition IndexError : exn := Exception "IndexError".
Definition JSONDecodeError : exn := Exception "JSONDecodeError".
Definition ConnectionError : exn := Exception "ConnectionError".

(** The outcome of running a piece of Python code. *)
Inductive result (A : Type) : Type :=
| Ok (a : A)
| Raise (e : exn).
Arguments Ok {A} a.
Arguments Raise {A} e.

Global Instance result_ret : MRet result := fun _ a => Ok a.
Global Instance result_bind : MBind result := fun _ _ k m =>
  match m with
  | Ok a => k a
  | Raise e => Raise e
  end.

(** The code returns a value: it raises nothing. *)
Definition succeeds {A : Type} (m : result A) : Prop :=
  match m with
  | Ok _ => True
  | Raise _ => False
  end.

(** ** Extended reals *)

Inductive xfloat : Type :=
| Fin (x : R)
| PInf
| NInf
| NaN.

Definition Rltb (x y : R) : bool := if Rlt_dec x y then true else false.
Definition Rleb (x y : R) : bool := if Rle_dec x y then true else false.
Definition Reqb (x y : R) : bool := if Req_dec_T x y then true else false.

(** The infinity with the sign of [x]; NaN when [x] is zero. *)
Definition inf_of_sign (x : R) : xfloat :=
  if Rltb 0 x then PInf else if Rltb x 0 then NInf else NaN.

Definition xopp (a : xfloat) : xfloat :=
  match a with
  | Fin x => Fin (- x)
  | PInf => NInf
  | NInf => PInf
  | NaN => NaN
  end.

Definition xadd (a b : xfloat) : xfloat :=
  match a, b with
  | NaN, _ | _, NaN => NaN
  | Fin x, Fin y => Fin (x + y)
  | PInf, NInf | NInf, PInf => NaN
  | PInf, _ | _, PInf => PInf
  | NInf, _ | _, NInf => NInf
  end.

Definition xsub (a b : xfloat) : xfloat := xadd a (xopp b).

Definition xmul (a b : xfloat) : xfloat :=
  match a, b with
  | NaN, _ | _, NaN => NaN
  | Fin x, Fin y => Fin (x * y)
  | Fin x, PInf | PInf, Fin x => inf_of_sign x
  | Fin x, NInf | NInf, Fin x => inf_of_sign (- x)
  | PInf, PInf | NInf, NInf => PInf
  | PInf, NInf | NInf, PInf => NInf
  end.

(** IEEE division, as numpy performs it: a zero divisor gives an infinity
    (NaN for 0/0), never an exception. *)
Definition xdiv (a b : xfloat) : xfloat :=
  match a, b with
  | NaN, _ | _, NaN => NaN
  | Fin x, Fin y => if Reqb y 0 then inf_of_sign x else Fin (x / y)
  | Fin _, (PInf | NInf) => Fin 0
  | PInf, Fin y => if Rleb 0 y then PInf else NInf
  | NInf, Fin y => if Rleb 0 y then NInf else PInf
  | (PInf | NInf), (PInf | NInf) => NaN
  end.

(** [a > b]; every comparison with NaN is false. *)
Definition xgt (a b : xfloat) : bool :=
  match a, b with
  | NaN, _ | _, NaN => false
  | Fin x, Fin y => Rltb y x
  | PInf, (Fin _ | NInf) => true
  | Fin _, NInf => true
  | _, _ => false
  end.

Definition is_nan (a : xfloat) : bool :=
  match a with NaN => true | _ => false end.

(** Truncation towards zero. *)
Definition trunc (x : R) : Z := if Rleb 0 x then Zfloor x else Zceil x.

(** Rounding to the nearest integer, halves to the even one. *)
Definition round_half_even (x : R) : Z :=
  let f := Zfloor x in
  if Rltb (x - IZR f) (1 / 2) then f
  else if Rltb (1 / 2) (x - IZR f) then (f + 1)%Z
  else if Z.even f then f else (f + 1)%Z.

(** ** Float rounding *)

(** The float arithmetic the program runs on, where its rounding is kept:
    [fl x] is the float nearest to the real [x]; [overflows x] tells that [x]
    lies beyond the largest float, so that an operation with the exact
    result [x] gives an infinity; [floor_divide a b] is [a // b] on two
    floats with [b] not zero.  The arithmetic is the machine's and the
    interpreter's, not the program's. *)
Class Float64 : Type := {
  fl : R -> R;
  overflows : R -> bool;
  floor_divide : R -> R -> xfloat
}.

(** What the proofs use of it.  Rounding is monotone and leaves a float, zero
    among them, as it is.  On a capital [a >= 0] and a cost [b > 0] the floor division gives a
    non-negative whole number or overflows to the positive infinity, and it
    is the floor of the exact quotient as long as this is below 2^51 (the
    quotient computed by the interpreter is off by less than 1/2 there, and
    is snapped to the nearest whole number). *)
Class Float64Laws (F : Float64) : Prop := {
  fl_monotone : forall x y : R, x <= y -> fl x <= fl y;
  fl_idempotent : forall x : R, fl (fl x) = fl x;
  fl_0 : fl 0 = 0;
  floor_divide_exact : forall a b : R,
    fl a = a -> fl b = b -> 0 <= a -> 0 < b -> a / b < 2 ^ 51 ->
    floor_divide a b = Fin (IZR (Zfloor (a / b)));
  floor_divide_nonneg : forall a b : R,
    fl a = a -> fl b = b -> 0 <= a -> 0 < b ->
    floor_divide a b = PInf \/
    exists n : Z, (0 <= n)%Z /\ floor_divide a b = Fin (IZR n)
}.

(** The float an operation returns when its exact result is [x]. *)
Definition rounded `{Float64} (x : R) : xfloat :=
  if overflows x then inf_of_sign x else Fin (fl x).

(** The product of two floats, rounded. *)
Definition xfmul `{Float64} (a b : xfloat) : xfloat :=
  match xmul a b with
  | Fin z => rounded z
  | other => other
  end.

(** Floored quotient, the [//] of floats. *)
Definition xfloordiv `{Float64} (a b : xfloat) : xfloat :=
  match a, b with
  | NaN, _ | _, NaN => NaN
  | Fin x, Fin y => if Reqb y 0 then inf_of_sign x else floor_divide x y
  | Fin x, PInf => if Rleb 0 x then Fin 0 else Fin (-1)
  | Fin x, NInf => if Rleb x 0 then Fin 0 else Fin (-1)
  | (PInf | NInf), _ => NaN
  end.

(** *** Exact arithmetic *)

(** Nothing is rounded and nothing overflows. *)
Definition exact_reals : Float64 :=
  {| fl := fun x => x;
     overflows := fun _ => false;
     floor_divide := fun a b => Fin (IZR (Zfloor (a / b))) |}.

(** *** IEEE 754 binary64 *)

(** The exponent of the binade of [x], not below that of the subnormal
    numbers, and the distance between two neighbouring floats there. *)
Definition exponent (x : R) : Z := Z.max (Zfloor (ln (Rabs x) / ln 2)) (-1022).

Definition ulp (x : R) : R := powerRZ 2 (exponent x - 52).

(** Rounding to the nearest float, ties to the one with an even mantissa. *)
Definition nearest_float (x : R) : R := IZR (round_half_even (x / ulp x)) * ulp x.

(** A result of at least the largest float plus half the distance to the
    next power of two rounds to an infinity. *)
Definition float_overflow (x : R) : bool :=
  Rleb (powerRZ 2 1024 - powerRZ 2 970) (Rabs x).

Definition binary64_rounded (x : R) : xfloat :=
  if float_overflow x then inf_of_sign x else Fin (nearest_float x).

(** Floor division as CPython and numpy compute it: the remainder [fmod] is
    exact; the quotient [(a - mod) / b] is rounded twice, moved down by one
    when the remainder and the divisor differ in sign, and snapped to the
    nearest whole number. *)
Definition binary64_floor_divide (a b : R) : xfloat :=
  let md := a - b * IZR (trunc (a / b)) in
  match binary64_rounded (nearest_float (a - md) / b) with
  | Fin div0 =>
      let div := if negb (Reqb md 0) && xorb (Rltb b 0) (Rltb md 0)
                 then nearest_float (div0 - 1) else div0 in
      if Reqb div 0 then Fin 0
      else
        let f := IZR (Zfloor div) in
        Fin (if Rltb (1 / 2) (div - f) then f + 1 else f)
  | other => other
  end.

Definition binary64 : Float64 :=
  {| fl := nearest_float;
     overflows := float_overflow;
     floor_divide := binary64_floor_divide |}.

(** The float nearest to 0.1. *)
Definition tenth : R := 3602879701896397 / 36028797018963968.

(** ** Python floats and numpy float64 *)

Inductive ftype : Type := PyFloat | NpFloat64.

Record num : Type := Num { kind : ftype; val : xfloat }.

(** A Python float (or int literal) and a numpy.float64 holding a real. *)
Definition py (x : R) : num := Num PyFloat (Fin x).
Definition np (x : R) : num := Num NpFloat64 (Fin x).

(** A binary operation gives a numpy.float64 as soon as one operand is one. *)
Definition join (k1 k2 : ftype) : ftype :=
  match k1, k2 with
  | PyFloat, PyFloat => PyFloat
  | _, _ => NpFloat64
  end.

Definition binop (f : xfloat -> xfloat -> xfloat) (a b : num) : num :=
  Num (join (kind a) (kind b)) (f (val a) (val b)).

Definition add : num -> num -> num := binop xadd.
Definition sub : num -> num -> num := binop xsub.
Definition mul : num -> num -> num := binop xmul.
Definition neg (a : num) : num := Num (kind a) (xopp (val a)).

(** [a * b] with its rounding. *)
Definition fmul `{Float64} : num -> num -> num := binop xfmul.

(** [a ** 2]. *)
Definition sqr (a : num) : num := Num (kind a) (xmul (val a) (val a)).

Definition is_zero (a : xfloat) : bool :=
  match a with Fin x => Reqb x 0 | _ => false end.

(** [a / b]: between two Python floats a zero divisor raises; with a numpy
    operand the division is numpy's. *)
Definition truediv (a b : num) : result num :=
  match join (kind a) (kind b) with
  | PyFloat => if is_zero (val b) then Raise ZeroDivisionError else Ok (binop xdiv a b)
  | NpFloat64 => Ok (binop xdiv a b)
  end.

(** [a // b], with the same split. *)
Definition floordiv `{Float64} (a b : num) : result num :=
  match join (kind a) (kind b) with
  | PyFloat => if is_zero (val b) then Raise ZeroDivisionError else Ok (binop xfloordiv a b)
  | NpFloat64 => Ok (binop xfloordiv a b)
  end.

Definition gt (a b : num) : bool := xgt (val a) (val b).

(** [int(a)]: truncation towards zero; infinities and NaN have no integer. *)
Definition int_of (a : num) : result Z :=
  match val a with
  | Fin x => Ok (trunc x)
  | PInf | NInf => Raise OverflowError
  | NaN => Raise ValueError
  end.

(** [round(a, ndigits)].  A numpy.float64 is scaled by [10 ** ndigits],
    rounded to the nearest whole number and scaled back, each step with its
    rounding; a Python float is rounded correctly, to the float nearest to
    the decimal nearest to it.  Infinities and NaN are returned unchanged. *)
Definition round `{Float64} (a : num) (ndigits : nat) : num :=
  match val a with
  | Fin x =>
      match kind a with
      | NpFloat64 =>
          Num NpFloat64
            match rounded (x * 10 ^ ndigits) with
            | Fin y => rounded (IZR (round_half_even y) / 10 ^ ndigits)
            | other => other
            end
      | PyFloat =>
          Num PyFloat (Fin (fl (IZR (round_half_even (x * 10 ^ ndigits)) / 10 ^ ndigits)))
      end
  | _ => a
  end.

(** *** The [math] module: domain errors are exceptions, results are Python floats *)

Definition math_log (a : num) : result num :=
  match val a with
  | Fin x => if Rltb 0 x then Ok (py (ln x)) else Raise ValueError
  | PInf => Ok (Num PyFloat PInf)
  | NInf => Raise ValueError
  | NaN => Ok (Num PyFloat NaN)
  end.

Definition math_sqrt (a : num) : result num :=
  match val a with
  | Fin x => if Rleb 0 x then Ok (py (sqrt x)) else Raise ValueError
  | PInf => Ok (Num PyFloat PInf)
  | NInf => Raise ValueError
  | NaN => Ok (Num PyFloat NaN)
  end.

(** [math.exp].  In exact arithmetic its result is never beyond the range of
    the floats: the [OverflowError] of a result too large is not raised. *)
Definition math_exp (a : num) : num :=
  match val a with
  | Fin x => py (exp x)
  | PInf => Num PyFloat PInf
  | NInf => py 0
  | NaN => Num PyFloat NaN
  end.

(** *** numpy: no exceptions, special values instead *)

Definition np_log (a : xfloat) : xfloat :=
  match a with
  | Fin x => if Rltb 0 x then Fin (ln x) else if Reqb x 0 then NInf else NaN
  | PInf => PInf
  | NInf | NaN => NaN
  end.

Definition np_sqrt (a : xfloat) : xfloat :=
  match a with
  | Fin x => if Rleb 0 x then Fin (sqrt x) else NaN
  | PInf => PInf
  | NInf | NaN => NaN
  end.

(** ** scipy.stats.norm *)

(** The standard normal cumulative distribution on the reals.  scipy's
    implementation is not part of the program; the pricer is embedded over
    any function [Phi] standing for it. *)
Class ScipyNorm : Type := { Phi : R -> R }.

(** What the proofs use of the normal distribution function. *)
Class ScipyNormLaws (N : ScipyNorm) : Prop := {
  Phi_increasing : forall x y : R, x < y -> Phi x < Phi y;
  Phi_bounds : forall x : R, 0 < Phi x < 1;
  Phi_0 : Phi 0 = 1 / 2
}.

(** [norm.cdf]: 1 and 0 at the infinities; the result is a numpy.float64. *)
Definition norm_cdf `{ScipyNorm} (a : num) : num :=
  Num NpFloat64
    match val a with
    | Fin x => Fin (Phi x)
    | PInf => Fin 1
    | NInf => Fin 0
    | NaN => NaN
    end.

(** The standard normal density. *)
Definition phi (x : R) : R := exp (- (x * x) / 2) / sqrt (2 * PI).

(** [norm.pdf]. *)
Definition norm_pdf (a : num) : num :=
  Num NpFloat64
    match val a with
    | Fin x => Fin (phi x)
    | PInf | NInf => Fin 0
    | NaN => NaN
    end.

(** ** Black-Scholes model functions *)

(** [black_scholes_call(S, K, T, r, sigma)]: the call price, delta and vega.
    The operations run in Python's evaluation order, so the first exception
    is the one raised. *)
Definition black_scholes_call `{ScipyNorm} (S K T r sigma : num)
  : result (num * num * num) :=
  q ← truediv S K;
  lg ← math_log q;
  let numer := add lg (mul (add r (mul (py (1 / 2)) (sqr sigma))) T) in
  sT ← math_sqrt T;
  d1 ← truediv numer (mul sigma sT);
  sT2 ← math_sqrt T;
  let d2 := sub d1 (mul sigma sT2) in
  let e := math_exp (mul (neg r) T) in
  let call_price := sub (mul S (norm_cdf d1)) (mul (mul K e) (norm_cdf d2)) in
  sT3 ← math_sqrt T;
  Ok (call_price, norm_cdf d1, mul (mul S (norm_pdf d1)) sT3).

(** ** The user interface

    Streamlit calls that show something are recorded as a log of events.
    The two sidebar widgets are inputs: they are recorded by the values they
    return. *)

Record row : Type := Row {
  Ticker : string;
  Price : num;
  Volatility : num;
  Call_Price : num;
  Delta : num;
  Vega : num;
  Contracts : Z
}.

Inductive ui_event : Type :=
| Title (text : string)
| Introduction
| Warning (msg : string)
| ProgressBar
| Progress (fraction : num)
| Success (msg : string)
| Subheader (text : string)
| Dataframe (rows : list row)
| Note (liquidity : num).

(** [Introduction] is the [st.markdown] call that opens the page,
    [ProgressBar] the call [st.progress(0)] that creates the bar, and
    [Note c] the closing [st.markdown] call, whose text holds the capital
    [c]. *)

(** ** Fetching the risk-free rate *)

(** The answer of the FRED service to [requests.get].  [latest_value] is the
    outcome of [float(response.json()['observations'][-1]['value'])] on its
    body: the float read, or the exception raised when the body is not JSON
    or does not have that shape. *)
Record rate_response : Type := RateResponse {
  rate_status_code : Z;
  latest_value : result xfloat
}.

(** [fetch_risk_free_rate()]: the rate, and the warnings shown.  The
    argument is the outcome of [requests.get]: an answer, or the exception
    of a request that failed. *)
Definition fetch_risk_free_rate (answer : result rate_response)
  : result num * list ui_event :=
  match answer with
  | Raise e => (Raise e, [])
  | Ok response =>
      if (rate_status_code response =? 200)%Z then
        (v ← latest_value response;
         latest ← truediv (Num PyFloat v) (py 100);
         Ok latest, [])
      else
        (Ok (py (5 / 100)), [Warning "Failed to fetch risk-free rate from FRED API."])
  end.

(** ** Fetching historical prices *)

(** A pandas DataFrame: the row labels and the float columns by name. *)
Record DataFrame : Type := Frame {
  index : list string;
  columns : gmap string (list xfloat)
}.

(** [len(df)]. *)
Definition len (df : DataFrame) : nat := length (index df).

(** What [response.json()] gives on the body of a price answer: an exception
    when the body is not JSON, or a JSON value.  Of the value the embedding
    keeps [daily], the outcome of building the frame from it (lines 58 to
    60): the rows of the ['Time Series (Daily)'] entry in date order, as
    [sort_index] leaves them, each with the float read from its
    ['5. adjusted close'] field when the day has one; or the exception raised
    on the way: [KeyError] when the entry is missing, [ValueError] when a
    field does not read as a float or a label does not read as a date. *)
Inductive price_body : Type :=
| NotJson (e : exn)
| Json (daily : result (list (string * option xfloat))).

(** The answer of Alpha Vantage to [requests.get]. *)
Record price_response : Type := PriceResponse {
  price_status_code : Z;
  price_json : price_body
}.

(** The day has an adjusted close, and its value in the column: a day
    without one gets NaN. *)
Definition has_close (day : string * option xfloat) : bool :=
  match day.2 with Some _ => true | None => false end.

Definition close_of (day : string * option xfloat) : xfloat := default NaN day.2.

(** [fetch_price_data(symbol)]: a frame with the single column [adj_close],
    or [None].  The argument is the outcome of [requests.get].  The request
    and [response.json()] stand outside the [try]; inside it only
    [KeyError] is caught.  The column ['5. adjusted close'] exists when some
    day has the field; selecting it from a frame without it (an empty one
    included) raises [KeyError]. *)
Definition fetch_price_data (answer : result price_response) : result (option DataFrame) :=
  response ← answer;
  if (price_status_code response =? 200)%Z then
    match price_json response with
    | NotJson e => Raise e
    | Json (Raise e) => if decide (e = KeyError) then Ok None else Raise e
    | Json (Ok days) =>
        if existsb has_close days
        then Ok (Some (Frame (days.*1) {[ "adj_close" := close_of <$> days ]}))
        else Ok None
    end
  else Ok None.

(** ** Historical volatility *)

(** [s.shift(1)]: every value moves one row down, the first row gets NaN. *)
Definition shift1 (s : list xfloat) : list xfloat :=
  match s with
  | [] => []
  | _ :: _ => NaN :: removelast s
  end.

(** Row by row division of two columns on the same index. *)
Definition series_div (a b : list xfloat) : list xfloat := zip_with xdiv a b.

Definition xsum (s : list xfloat) : xfloat := foldr xadd (Fin 0) s.

(** [s.std()]: NaN entries are skipped; the squared deviations from the mean
    are summed and divided by the count less one; NaN when fewer than two
    values are left. *)
Definition series_std (s : list xfloat) : xfloat :=
  let values := filter (fun v => is_nan v = false) s in
  let count := length values in
  if (count <=? 1)%nat then NaN
  else
    let avg := xdiv (xsum values) (Fin (INR count)) in
    let sq := map (fun v => xmul (xsub avg v) (xsub avg v)) values in
    np_sqrt (xdiv (xsum sq) (Fin (INR (count - 1)))).

(** [calculate_volatility(df)]: the annualized volatility, and the frame as
    the call leaves it: the column [log_return] is assigned in place. *)
Definition calculate_volatility (df : DataFrame) : result (num * DataFrame) :=
  match columns df !! "adj_close" with
  | None => Raise KeyError
  | Some adj_close =>
      let log_return := map np_log (series_div adj_close (shift1 adj_close)) in
      let df' := Frame (index df) (<["log_return" := log_return]> (columns df)) in
      let sigma := xmul (series_std log_return) (np_sqrt (Fin 252)) in
      Ok (Num NpFloat64 sigma, df')
  end.

(** ** pandas sorting *)

(** [a] may stand before [b] in a column sorted in descending order with the
    missing values last. *)
Definition desc_ok (a b : xfloat) : bool :=
  match a, b with
  | _, NaN => true
  | NaN, _ => false
  | _, NInf => true
  | PInf, _ => true
  | Fin x, Fin y => Rleb y x
  | _, _ => false
  end.

(** The key the leaderboard is ranked by: the [Call Price] entry of a row. *)
Definition rank_key (r : row) : xfloat := val (Call_Price r).

(** The order in which two rows may follow each other on the leaderboard. *)
Definition ranks_before (a b : row) : Prop := desc_ok (rank_key a) (rank_key b) = true.

(** [DataFrame.sort_values(by='Call Price', ascending=False)] on the frame
    built from the rows, with pandas' default sorting algorithm (quicksort).
    The algorithm is pandas' and numpy's, not the program's. *)
Class PandasSort : Type := { sort_values : list row -> list row }.

(** What pandas promises of it: the rows are rearranged, and every row may
    stand before the next one.  The default algorithm is not documented to
    keep rows with equal keys in their original order. *)
Class PandasSortLaws (P : PandasSort) : Prop := {
  sort_values_perm : forall rows : list row, Permutation (sort_values rows) rows;
  sort_values_sorted : forall rows : list row, Sorted ranks_before (sort_values rows)
}.

(** ** Main application logic *)

(** Everything [main] reads from outside: the ticker list, the two widgets,
    and the outcomes of the requests to the two web services (the price
    service is asked once per loop iteration). *)
Record world : Type := World {
  tickers : list string;
  selected_count : nat;
  user_liquidity : R;
  fred : result rate_response;
  alpha_vantage : nat -> string -> result price_response
}.

(** What [main] leaves behind when it returns. *)
Record run : Type := Run {
  results : list row;
  top_25 : option (list row);
  ui : list ui_event
}.

(** [enumerate(l)]. *)
Definition enumerate {A : Type} (l : list A) : list (nat * A) := imap pair l.

(** [s.iloc[-1]]. *)
Definition iloc_last (s : list xfloat) : result num :=
  match last s with
  | Some v => Ok (Num NpFloat64 v)
  | None => Raise IndexError
  end.

(** [df[name]]. *)
Definition column (df : DataFrame) (name : string) : result (list xfloat) :=
  match columns df !! name with
  | Some s => Ok s
  | None => Raise KeyError
  end.

(** [int(user_liquidity // (call_price * 100)) if call_price > 0 else 0]. *)
Definition affordable_contracts {F : Float64} (user_liquidity call_price : num) : result Z :=
  if gt call_price (py 0) then
    q ← floordiv user_liquidity (fmul call_price (py 100));
    int_of q
  else Ok 0%Z.

(** The values the pricer is run on and what it returns for a frame: spot,
    volatility, and the call price, delta and vega. *)
Definition quote {N : ScipyNorm} (df : DataFrame) (T risk_free_rate : num)
  : result (num * num * (num * num * num)) :=
  adj_close ← column df "adj_close";
  S ← iloc_last adj_close;
  '(sigma, _) ← calculate_volatility df;
  q ← black_scholes_call S S T risk_free_rate sigma;
  Ok (S, sigma, q).

(** The body of the [if] in the loop: the row appended for a ticker. *)
Definition analyze {N : ScipyNorm} {F : Float64} (ticker : string) (df : DataFrame)
    (T risk_free_rate : num) (liquidity : R) : result row :=
  '(spot, sigma, (call_price, delta, vega)) ← quote df T risk_free_rate;
  affordable ← affordable_contracts (py liquidity) call_price;
  Ok (Row ticker (round spot 2) (round sigma 4) (round call_price 2)
          (round delta 4) (round vega 4) affordable).

(** One iteration of the loop, on the rows and the interface log so far. *)
Definition loop_body {N : ScipyNorm} {F : Float64} (w : world) (T risk_free_rate : num)
    (st : list row * list ui_event) (it : nat * string)
  : result (list row * list ui_event) :=
  let '(rows, log) := st in
  let '(i, ticker) := it in
  df ← fetch_price_data (alpha_vantage w i ticker);
  rows' ← match df with
          | Some d =>
              if (30 <=? len d)%nat then
                r ← analyze ticker d T risk_free_rate (user_liquidity w);
                Ok (rows ++ [r])
              else Ok rows
          | None => Ok rows
          end;
  p ← truediv (py (INR (i + 1))) (py (INR (selected_count w)));
  Ok (rows', log ++ [Progress p]).

Fixpoint for_each {A St : Type} (body : St -> A -> result St) (items : list A) (st : St)
  : result St :=
  match items with
  | [] => Ok st
  | it :: rest => st' ← body st it; for_each body rest st'
  end.

(** [enumerate(tickers[:selected_count])]: the tickers the loop visits. *)
Definition screened (w : world) : list (nat * string) :=
  enumerate (firstn (selected_count w) (tickers w)).

(** The loop of [main] for a given rate: the rows and the progress reports. *)
Definition screen {N : ScipyNorm} {F : Float64} (w : world) (risk_free_rate : num)
  : result (list row * list ui_event) :=
  for_each (loop_body w (py (30 / 365)) risk_free_rate) (screened w) ([], []).

(** [.sort_values(by='Call Price', ascending=False).head(25)] on the frame of
    the rows. *)
Definition ranked_head {P : PandasSort} (rows : list row) : list row :=
  firstn 25 (sort_values rows).

(** [pd.DataFrame(results).sort_values(by='Call Price', ascending=False).head(25)]:
    a frame built from no rows has no column ['Call Price'], and sorting by
    it raises [KeyError]. *)
Definition leaderboard {P : PandasSort} (rows : list row) : result (list row) :=
  match rows with
  | [] => Raise KeyError
  | _ :: _ => Ok (ranked_head rows)
  end.

(** What [main] shows for a leaderboard: a heading, the table, and the note
    that repeats the capital entered. *)
Definition display (w : world) (top_25 : list row) : list ui_event :=
  [Subheader "Top 25 by Black-Scholes Call Price";
   Dataframe top_25;
   Note (py (user_liquidity w))].

(** What [main] does after the loop, on the rows and on the log so far: the
    success message and, under [if results:], the ranking and its display. *)
Definition report {P : PandasSort} (w : world) (rows : list row) (log : list ui_event)
  : result run :=
  let log := log ++ [Success "Calculation Complete"] in
  match rows with
  | [] => Ok (Run rows None log)
  | _ :: _ =>
      top_25 ← leaderboard rows;
      Ok (Run rows (Some top_25) (log ++ display w top_25))
  end.

(** What [main] shows before it fetches the rate. *)
Definition opening : list ui_event :=
  [Title "Black-Scholes Analysis for S&P 500"; Introduction].

(** [main()], once the ticker list is loaded. *)
Definition main {N : ScipyNorm} {F : Float64} {P : PandasSort} (w : world) : result run :=
  let '(rate, warnings) := fetch_risk_free_rate (fred w) in
  risk_free_rate ← rate;
  '(rows, log) ← screen w risk_free_rate;
  report w rows (opening ++ warnings ++ [ProgressBar] ++ log).

(** ** Reference definitions, in the words of the specification *)

(** The closed-form quantities of the call: the numerator of [d1], [d1],
    [d2], and the price. *)
Definition d1_numerator (S K T r sigma : R) : R :=
  ln (S / K) + (r + 1 / 2 * (sigma * sigma)) * T.

Definition bs_d1 (S K T r sigma : R) : R :=
  d1_numerator S K T r sigma / (sigma * sqrt T).

Definition bs_d2 (S K T r sigma : R) : R :=
  bs_d1 S K T r sigma - sigma * sqrt T.

Definition bs_price `{ScipyNorm} (S K T r sigma : R) : R :=
  S * Phi (bs_d1 S K T r sigma) - K * exp (- r * T) * Phi (bs_d2 S K T r sigma).

(** The daily log returns [ln(P_t / P_{t-1})] of a price series, one for
    each consecutive pair. *)
Fixpoint log_returns (prices : list R) : list R :=
  match prices with
  | p0 :: rest =>
      match rest with
      | p1 :: _ => ln (p1 / p0) :: log_returns rest
      | [] => []
      end
  | [] => []
  end.

Definition Rsum (xs : list R) : R := foldr Rplus 0 xs.

Definition mean (xs : list R) : R := Rsum xs / INR (length xs).

(** The sample standard deviation: squared deviations from the mean, summed,
    over the number of values less one. *)
Definition sample_std (xs : list R) : R :=
  sqrt (Rsum (map (fun x => (x - mean xs) * (x - mean xs)) xs) / (INR (length xs) - 1)).

(** The annualized volatility of a price series. *)
Definition annualized_volatility (prices : list R) : R :=
  sample_std (log_returns prices) * sqrt 252.

(** Sorting by insertion: [x] is put before the first row [y] at which
    [stop x y] holds. *)
Fixpoint insert_by (stop : row -> row -> bool) (x : row) (l : list row) : list row :=
  match l with
  | [] => [x]
  | y :: l' => if stop x y then x :: y :: l' else y :: insert_by stop x l'
  end.

Definition sort_by (stop : row -> row -> bool) (l : list row) : list row :=
  foldr (insert_by stop) [] l.

(** The stable descending sort: among rows with equal call price the one
    inserted first comes first. *)
Definition stable_sort_desc : list row -> list row :=
  sort_by (fun x y => desc_ok (rank_key x) (rank_key y)).

(** A descending sort that puts rows with equal call price in the reverse of
    their insertion order. *)
Definition tie_reversing_sort_desc : list row -> list row :=
  sort_by (fun x y => negb (desc_ok (rank_key y) (rank_key x))).

Definition stable_pandas : PandasSort := {| sort_values := stable_sort_desc |}.
Definition tie_reversing_pandas : PandasSort := {| sort_values := tie_reversing_sort_desc |}.


(** A function with the three properties asked of the normal distribution
    function, used to run the pricer on concrete inputs. *)
Definition sigmoid (x : R) : R := 1 / 2 + x / (2 * (1 + Rabs x)).
Definition sigmoid_norm : ScipyNorm := {| Phi := sigmoid |}.

(** The outcome the specification asks of the pricer on degenerate inputs:
    the signal [DegenerateInputs], or the intrinsic value with delta 0 or 1
    and vega 0. *)
Definition degenerate_guarded (S K : R) (out : result (num * num * num)) : Prop :=
  out = Raise (Exception "DegenerateInputs") \/
  exists price delta vega : num,
    out = Ok (price, delta, vega) /\
    val price = Fin (Rmax (S - K) 0) /\
    (val delta = Fin 0 \/ val delta = Fin 1) /\
    val vega = Fin 0.

(** The entries of a row are the rounded outputs of the pricer for some
    frame: spot and call price to 2 decimals, volatility, delta and vega to 4. *)
Definition rounded_quote {N : ScipyNorm} {F : Float64} (risk_free_rate : num) (r : row)
  : Prop :=
  exists (df : DataFrame) (spot sigma call_price delta vega : num),
    quote df (py (30 / 365)) risk_free_rate = Ok (spot, sigma, (call_price, delta, vega)) /\
    Price r = round spot 2 /\
    Volatility r = round sigma 4 /\
    Call_Price r = round call_price 2 /\
    Delta r = round delta 4 /\
    Vega r = round vega 4.

(** The progress reported after the ticker at position [i]: [(i + 1) / count]. *)
Definition progress_of (count : nat) (it : nat * string) : ui_event :=
  Progress (py (INR (it.1 + 1) / INR count)).


(** The row a loop iteration adds to the results, if any. *)
Definition contribution {N : ScipyNorm} {F : Float64} (w : world) (risk_free_rate : num)
    (it : nat * string) : option row :=
  match fetch_price_data (alpha_vantage w it.1 it.2) with
  | Ok (Some df) =>
      if (30 <=? len df)%nat then
        match analyze it.2 df (py (30 / 365)) risk_free_rate (user_liquidity w) with
        | Ok r => Some r
        | Raise _ => None
        end
      else None
  | _ => None
  end.

(** The loop iteration for a ticker raises nothing. *)
Definition step_returns {N : ScipyNorm} {F : Float64} (w : world) (risk_free_rate : num)
    (it : nat * string) : Prop :=
  match fetch_price_data (alpha_vantage w it.1 it.2) with
  | Ok (Some df) =>
      if (30 <=? len df)%nat
      then succeeds (analyze it.2 df (py (30 / 365)) risk_free_rate (user_liquidity w))
      else True
  | Ok None => True
  | Raise _ => False
  end.

(** The visited ticker has a frame of at least 30 rows. *)
Definition priced (w : world) (it : nat * string) : bool :=
  match fetch_price_data (alpha_vantage w it.1 it.2) with
  | Ok (Some df) => (30 <=? len df)%nat
  | _ => false
  end.

(** The answers after which the loop adds no row and goes on: a status other
    than 200, no time series in the answer, no adjusted close in the time
    series, or fewer than 30 days. *)
Definition skipped_answer (response : price_response) : Prop :=
  price_status_code response <> 200%Z \/
  price_json response = Json (Raise KeyError) \/
  exists days : list (string * option xfloat),
    price_json response = Json (Ok days) /\
    (existsb has_close days = false \/ (length days < 30)%nat).

(** The outcomes of the price request on which the fetch raises [e]: the
    request fails, or is answered with status 200 and a body that is not
    JSON, or one from which building the frame raises anything but
    [KeyError]. *)
Definition failing_answer (answer : result price_response) (e : exn) : Prop :=
  answer = Raise e \/
  exists response : price_response,
    answer = Ok response /\
    price_status_code response = 200%Z /\
    (price_json response = NotJson e \/
     (price_json response = Json (Raise e) /\ e <> KeyError)).

(** Two rows have the same rank: each may stand before the other. *)
Definition same_rank (a b : row) : Prop :=
  desc_ok (rank_key a) (rank_key b) && desc_ok (rank_key b) (rank_key a) = true.

Global Instance same_rank_dec (a b : row) : Decision (same_rank a b).
Proof. unfold same_rank. apply _. Defined.

(** A rearrangement leaves the rows of every rank in the order they had. *)
Definition keeps_ties (sorted rows : list row) : Prop :=
  forall r : row, filter (same_rank r) sorted = filter (same_rank r) rows.

(** ** Sample inputs *)

(** Thirty consecutive trading days. *)
Definition trading_days : list string :=
  [ "2024-01-02"; "2024-01-03"; "2024-01-04"; "2024-01-05"; "2024-01-08";
    "2024-01-09"; "2024-01-10"; "2024-01-11"; "2024-01-12"; "2024-01-16";
    "2024-01-17"; "2024-01-18"; "2024-01-19"; "2024-01-22"; "2024-01-23";
    "2024-01-24"; "2024-01-25"; "2024-01-26"; "2024-01-29"; "2024-01-30";
    "2024-01-31"; "2024-02-01"; "2024-02-02"; "2024-02-05"; "2024-02-06";
    "2024-02-07"; "2024-02-08"; "2024-02-09"; "2024-02-12"; "2024-02-13" ]%string.

(** The same adjusted close on each of them. *)
Definition flat_series (price : R) : list (string * option xfloat) :=
  map (fun day => (day, Some (Fin price))) trading_days.

(** Frames of one and of two trading days. *)
Definition one_day_frame : DataFrame :=
  Frame ["2024-01-02"%string] {[ "adj_close"%string := [Fin 100] ]}.

Definition two_day_frame : DataFrame :=
  Frame ["2024-01-02"; "2024-01-03"]%string {[ "adj_close"%string := [Fin 100; Fin 100] ]}.

Definition three_day_frame : DataFrame :=
  Frame ["2024-01-02"; "2024-01-03"; "2024-01-04"]%string
        {[ "adj_close"%string := [Fin 100; Fin 100; Fin 100] ]}.

(** The frame of a flat series at 110, the price the pricer gives for it at
    a rate of 0.05, and the row [main] builds from it with a capital of 1000. *)
Definition flat_frame : DataFrame :=
  Frame ((flat_series 110).*1) {[ "adj_close"%string := close_of <$> flat_series 110 ]}.

Definition flat_price : R := 110 - 110 * exp (- (5 / 100) * (30 / 365)).

Definition flat_row : row :=
  Row "MMM" (np 110) (np 0) (np (45 / 100)) (np 1) (np 0) 22.

(** Two rows with the same call price. *)
Definition tied_first : row :=
  Row "AAA" (np 50) (np (1 / 5)) (np 1) (np (1 / 2)) (np 5) 10.

Definition tied_second : row :=
  Row "BBB" (np 60) (np (1 / 6)) (np 1) (np (1 / 2)) (np 6) 10.

(** A price answer with a flat series at 110, and the answer of a service
    that is down. *)
Definition flat_answer : result price_response :=
  Ok (PriceResponse 200 (Json (Ok (flat_series 110)))).

Definition service_down : result rate_response :=
  Ok (RateResponse 503 (Raise JSONDecodeError)).

(** One ticker, a price service answering with the flat series, a rate
    service that is down. *)
Definition flat_world : world :=
  {| tickers := ["MMM"%string];
     selected_count := 25;
     user_liquidity := 1000;
     fred := service_down;
     alpha_vantage := fun _ _ => flat_answer |}.

(** What is shown for the flat world: the opening, the warning of the rate
    fetch, the progress bar and its one report, the success message, and
    the leaderboard with its heading and its note. *)
Definition flat_world_ui : list ui_event :=
  [Title "Black-Scholes Analysis for S&P 500";
   Introduction;
   Warning "Failed to fetch risk-free rate from FRED API.";
   ProgressBar;
   Progress (py (INR 1 / INR 25));
   Success "Calculation Complete";
   Subheader "Top 25 by Black-Scholes Call Price";
   Dataframe [flat_row];
   Note (py 1000)].

(** Two tickers; the price request for the first one fails. *)
Definition outage_world : world :=
  {| tickers := ["AOS"; "MMM"]%string;
     selected_count := 25;
     user_liquidity := 1000;
     fred := service_down;
     alpha_vantage := fun i _ => match i with
                                 | O => Raise ConnectionError
                                 | _ => flat_answer
                                 end |}.

(** Three tickers: the price service answers 404 for the first, a time
    series of two days for the second, the flat series for the third. *)
Definition patchy_world : world :=
  {| tickers := ["AOS"; "ABT"; "MMM"]%string;
     selected_count := 25;
     user_liquidity := 1000;
     fred := service_down;
     alpha_vantage := fun i _ =>
       match i with
       | 0%nat => Ok (PriceResponse 404 (NotJson JSONDecodeError))
       | 1%nat => Ok (PriceResponse 200
                        (Json (Ok [("2024-01-02"%string, Some (Fin 100));
                                   ("2024-01-03"%string, Some (Fin 101))])))
       | _ => flat_answer
       end |}.

(** The rate service answers 200 with a latest observation that does not
    read as a float (FRED writes a dot for a missing value). *)
Definition missing_rate_world : world :=
  {| tickers := ["MMM"%string];
     selected_count := 25;
     user_liquidity := 1000;
     fred := Ok (RateResponse 200 (Raise ValueError));
     alpha_vantage := fun _ _ => flat_answer |}.

(** The request to the rate service fails. *)
Definition unreachable_rate_world : world :=
  {| tickers := ["MMM"%string];
     selected_count := 25;
     user_liquidity := 1000;
     fred := Raise ConnectionError;
     alpha_vantage := fun _ _ => flat_answer |}.


(** ** Readings of the results, used to state what a run shows *)

(** An infinity of either sign. *)
Definition is_infinite (a : xfloat) : Prop := a = PInf \/ a = NInf.

(** The values passed to [progress.progress], in order. *)
Definition progress_values (log : list ui_event) : list num :=
  omap (fun e => match e with Progress p => Some p | _ => None end) log.

(** The tables passed to [st.dataframe], in order. *)
Definition tables (log : list ui_event) : list (list row) :=
  omap (fun e => match e with Dataframe rows => Some rows | _ => None end) log.

(** The same world with another capital entered. *)
Definition with_capital (w : world) (capital : R) : world :=
  World (tickers w) (selected_count w) capital (fred w) (alpha_vantage w).

(** Two rows that agree on everything but the contracts. *)
Definition same_quote (r r' : row) : Prop :=
  Ticker r = Ticker r' /\ Price r = Price r' /\ Volatility r = Volatility r' /\
  Call_Price r = Call_Price r' /\ Delta r = Delta r' /\ Vega r = Vega r'.

(** * Properties *)

(** ** Deciding comparisons of reals *)

Lemma Rltb_true (x y : R) : x < y -> Rltb x y = true.
Proof. intros Hxy. unfold Rltb. destruct (Rlt_dec x y); [reflexivity | contradiction]. Qed.

Lemma Rltb_false (x y : R) : y <= x -> Rltb x y = false.
Proof. intros Hyx. unfold Rltb. destruct (Rlt_dec x y); [lra | reflexivity]. Qed.

Lemma Rleb_true (x y : R) : x <= y -> Rleb x y = true.
Proof. intros Hxy. unfold Rleb. destruct (Rle_dec x y); [reflexivity | contradiction]. Qed.

Lemma Rleb_false (x y : R) : y < x -> Rleb x y = false.
Proof. intros Hyx. unfold Rleb. destruct (Rle_dec x y); [lra | reflexivity]. Qed.

Lemma Reqb_true (x y : R) : x = y -> Reqb x y = true.
Proof. intros Hxy. unfold Reqb. destruct (Req_dec_T x y); [reflexivity | contradiction]. Qed.

Lemma Reqb_false (x y : R) : x <> y -> Reqb x y = false.
Proof. intros Hxy. unfold Reqb. destruct (Req_dec_T x y); [contradiction | reflexivity]. Qed.

Lemma Rleb_spec (x y : R) : Rleb x y = true <-> x <= y.
Proof. unfold Rleb. destruct (Rle_dec x y); split; intros; (done || lra). Qed.

Lemma inf_of_sign_pos (x : R) : 0 < x -> inf_of_sign x = PInf.
Proof. intros Hx. unfold inf_of_sign. by rewrite Rltb_true. Qed.

Lemma inf_of_sign_neg (x : R) : x < 0 -> inf_of_sign x = NInf.
Proof.
  intros Hx. unfold inf_of_sign.
  rewrite Rltb_false by lra. by rewrite Rltb_true.
Qed.

Lemma inf_of_sign_0 : inf_of_sign 0 = NaN.
Proof. unfold inf_of_sign. by rewrite !Rltb_false by lra. Qed.

(** ** Results *)

Lemma bind_Ok {A B : Type} (a : A) (k : A -> result B) : (Ok a ≫= k) = k a.
Proof. reflexivity. Qed.

Lemma succeeds_Ok {A : Type} (m : result A) : succeeds m -> exists a : A, m = Ok a.
Proof. destruct m as [a | e]; [eauto | done]. Qed.

(** ** Exact arithmetic and binary64 *)

Lemma trunc_integer (z : Z) : trunc (IZR z) = z.
Proof.
  unfold trunc. destruct (Rleb 0 (IZR z)).
  - apply ZfloorZ.
  - unfold Zceil. rewrite <- opp_IZR, ZfloorZ. lia.
Qed.

Lemma int_of_integer (k : ftype) (z : Z) : int_of (Num k (Fin (IZR z))) = Ok z.
Proof. unfold int_of. simpl. f_equal. apply trunc_integer. Qed.

Lemma exact_reals_laws : Float64Laws exact_reals.
Proof.
  constructor; cbn [fl floor_divide exact_reals].
  - intros x y Hxy. exact Hxy.
  - reflexivity.
  - reflexivity.
  - reflexivity.
  - intros a b _ _ Ha Hb. right. exists (Zfloor (a / b)). split; [| reflexivity].
    apply Zfloor_lub. simpl. apply Rmult_le_pos; [assumption |].
    left. by apply Rinv_0_lt_compat.
Qed.

Lemma ln_2_pos : 0 < ln 2.
Proof. pose proof ln_lt_2. lra. Qed.

Lemma ln_powerRZ_2 (e : Z) : ln (powerRZ 2 e) = IZR e * ln 2.
Proof. rewrite powerRZ_Rpower by lra. apply ln_Rpower. Qed.

Lemma binade_floor (x : R) (e : Z) :
  powerRZ 2 e <= Rabs x < powerRZ 2 (e + 1) -> Zfloor (ln (Rabs x) / ln 2) = e.
Proof.
  intros [Hlo Hhi].
  assert (Hpos : 0 < powerRZ 2 e) by (apply powerRZ_lt; lra).
  pose proof ln_2_pos as H2.
  assert (Hl : IZR e * ln 2 <= ln (Rabs x)).
  { rewrite <- ln_powerRZ_2. destruct Hlo as [Hlo | Hlo].
    - left. by apply ln_increasing.
    - right. by rewrite Hlo. }
  assert (Hu : ln (Rabs x) < (IZR e + 1) * ln 2).
  { rewrite <- plus_IZR, <- ln_powerRZ_2. apply ln_increasing; lra. }
  apply Zfloor_eq. split.
  - apply Rmult_le_reg_r with (ln 2); [assumption |].
    unfold Rdiv. rewrite Rmult_assoc, Rinv_l by lra. lra.
  - apply Rmult_lt_reg_r with (ln 2); [assumption |].
    unfold Rdiv. rewrite Rmult_assoc, Rinv_l by lra. lra.
Qed.

(** The exponent of a number in the binade of [2^e], and of a number below
    the normal range. *)
Lemma exponent_normal (x : R) (e : Z) :
  (-1022 <= e)%Z -> powerRZ 2 e <= Rabs x < powerRZ 2 (e + 1) -> exponent x = e.
Proof.
  intros He Hx. unfold exponent. rewrite (binade_floor x e Hx). lia.
Qed.

Lemma exponent_subnormal (x : R) (e : Z) :
  (e <= -1022)%Z -> powerRZ 2 e <= Rabs x < powerRZ 2 (e + 1) -> exponent x = (-1022)%Z.
Proof.
  intros He Hx. unfold exponent. rewrite (binade_floor x e Hx). lia.
Qed.

Lemma round_half_even_eq (x : R) (m : Z) :
  IZR m - 1 / 2 < x < IZR m + 1 / 2 -> round_half_even x = m.
Proof.
  intros Hx. unfold round_half_even.
  destruct (Rle_dec (IZR m) x) as [Hle | Hgt].
  - rewrite (Zfloor_eq m x) by lra. by rewrite Rltb_true by lra.
  - assert (Hf : Zfloor x = (m - 1)%Z).
    { apply Zfloor_eq. rewrite minus_IZR. lra. }
    rewrite Hf, minus_IZR.
    rewrite Rltb_false by lra. rewrite Rltb_true by lra. f_equal. lia.
Qed.

Lemma nearest_float_normal (x : R) (e m : Z) :
  (-1022 <= e)%Z -> powerRZ 2 e <= Rabs x < powerRZ 2 (e + 1) ->
  IZR m - 1 / 2 < x / powerRZ 2 (e - 52) < IZR m + 1 / 2 ->
  nearest_float x = IZR m * powerRZ 2 (e - 52).
Proof.
  intros He Hx Hm. unfold nearest_float, ulp.
  rewrite (exponent_normal x e He Hx).
  by rewrite (round_half_even_eq _ m Hm).
Qed.

Lemma nearest_float_subnormal (x : R) (e m : Z) :
  (e <= -1022)%Z -> powerRZ 2 e <= Rabs x < powerRZ 2 (e + 1) ->
  IZR m - 1 / 2 < x / powerRZ 2 (-1074) < IZR m + 1 / 2 ->
  nearest_float x = IZR m * powerRZ 2 (-1074).
Proof.
  intros He Hx Hm. unfold nearest_float, ulp.
  rewrite (exponent_subnormal x e He Hx).
  change (-1022 - 52)%Z with (-1074)%Z.
  by rewrite (round_half_even_eq _ m Hm).
Qed.

Lemma nearest_tenth : nearest_float (1 / 10) = tenth.
Proof.
  rewrite (nearest_float_normal (1 / 10) (-4) 7205759403792794).
  - unfold tenth. simpl. lra.
  - lia.
  - rewrite Rabs_right by lra. simpl. lra.
  - simpl. lra.
Qed.

Lemma nearest_float_10 : nearest_float (tenth * 100) = 10.
Proof.
  rewrite (nearest_float_normal (tenth * 100) 3 5629499534213120).
  - simpl. lra.
  - lia.
  - unfold tenth. rewrite Rabs_right by lra. simpl. lra.
  - unfold tenth. simpl. lra.
Qed.

Lemma nearest_float_100 : nearest_float 100 = 100.
Proof.
  rewrite (nearest_float_normal 100 6 7036874417766400).
  - simpl. lra.
  - lia.
  - rewrite Rabs_right by lra. simpl. lra.
  - simpl. lra.
Qed.

Lemma nearest_float_1000 : nearest_float 1000 = 1000.
Proof.
  rewrite (nearest_float_normal 1000 9 8796093022208000).
  - simpl. lra.
  - lia.
  - rewrite Rabs_right by lra. simpl. lra.
  - simpl. lra.
Qed.

(** *** binary64 meets the laws *)

Lemma powerRZ_2_ge_1 (n : Z) : (0 <= n)%Z -> 1 <= powerRZ 2 n.
Proof.
  intros Hn. rewrite <- (Z2Nat.id n) by assumption.
  rewrite <- pow_powerRZ. apply pow_R1_Rle. lra.
Qed.

(** The smallest positive float. *)
Lemma smallest_float_pos : 0 < powerRZ 2 (-1074).
Proof. apply powerRZ_lt. lra. Qed.

Lemma smallest_float_inverse : powerRZ 2 (-1074) * powerRZ 2 1074 = 1.
Proof. rewrite <- powerRZ_add by lra. reflexivity. Qed.

Lemma powerRZ_2_mono (a b : Z) : (a <= b)%Z -> powerRZ 2 a <= powerRZ 2 b.
Proof.
  intros Hab. replace b with (a + (b - a))%Z by lia.
  rewrite powerRZ_add by lra.
  pose proof (powerRZ_lt 2 a ltac:(lra)) as Ha.
  pose proof (powerRZ_2_ge_1 (b - a) ltac:(lia)) as Hd. nra.
Qed.

Lemma powerRZ_2_succ (a : Z) : powerRZ 2 (a + 1) = 2 * powerRZ 2 a.
Proof. rewrite powerRZ_add by lra. simpl. ring. Qed.

Lemma powerRZ_2_strict (a b : Z) : (a < b)%Z -> powerRZ 2 a < powerRZ 2 b.
Proof.
  intros Hab.
  pose proof (powerRZ_2_mono (a + 1) b ltac:(lia)) as Hle.
  rewrite powerRZ_2_succ in Hle.
  pose proof (powerRZ_lt 2 a ltac:(lra)). lra.
Qed.

Lemma powerRZ_2_lt_inv (a b : Z) : powerRZ 2 a < powerRZ 2 b -> (a < b)%Z.
Proof.
  intros Hlt. destruct (Z_lt_le_dec a b) as [Hab | Hba]; [assumption |].
  pose proof (powerRZ_2_mono b a Hba). lra.
Qed.

Lemma powerRZ_2_IZR (n : Z) : (0 <= n)%Z -> powerRZ 2 n = IZR (2 ^ n).
Proof.
  intros Hn. rewrite <- (Z2Nat.id n) at 1 by assumption.
  rewrite <- pow_powerRZ, pow_IZR. by rewrite Z2Nat.id.
Qed.

(** Rounding to the nearest integer. *)
Lemma round_half_even_near (t : R) : - (1 / 2) <= IZR (round_half_even t) - t <= 1 / 2.
Proof.
  unfold round_half_even. pose proof (Zfloor_bound t) as [Hlo Hhi].
  unfold Rltb.
  destruct (Rlt_dec (t - IZR (Zfloor t)) (1 / 2)) as [Hlt | Hge]; [lra |].
  destruct (Rlt_dec (1 / 2) (t - IZR (Zfloor t))) as [Hgt | Hle].
  { rewrite plus_IZR. lra. }
  destruct (Z.even (Zfloor t)); [| rewrite plus_IZR]; lra.
Qed.

Lemma round_half_even_IZR (k : Z) : round_half_even (IZR k) = k.
Proof. apply round_half_even_eq. lra. Qed.

Lemma round_half_even_le (t t' : R) :
  t <= t' -> (round_half_even t <= round_half_even t')%Z.
Proof.
  intros Htt'.
  destruct (Z_lt_le_dec (round_half_even t') (round_half_even t)) as [Hlt | Hle];
    [| assumption].
  pose proof (round_half_even_near t) as Ht.
  pose proof (round_half_even_near t') as Ht'.
  assert (Hstep : IZR (round_half_even t') + 1 <= IZR (round_half_even t)).
  { rewrite <- plus_IZR. apply IZR_le. lia. }
  assert (Heq : t = t') by lra.
  rewrite Heq in Hlt. lia.
Qed.

Lemma round_half_even_opp (t : R) : round_half_even (- t) = (- round_half_even t)%Z.
Proof.
  pose proof (Zfloor_bound t) as [Hlo Hhi].
  destruct (Req_dec_T t (IZR (Zfloor t))) as [Hint | Hfrac].
  { rewrite Hint, <- opp_IZR. by rewrite !round_half_even_IZR. }
  assert (Hf : Zfloor (- t) = (- Zfloor t - 1)%Z).
  { apply Zfloor_eq. rewrite minus_IZR, opp_IZR. lra. }
  unfold round_half_even. rewrite Hf, minus_IZR, opp_IZR. unfold Rltb.
  destruct (Rlt_dec (t - IZR (Zfloor t)) (1 / 2)) as [Hlt | Hge].
  { destruct (Rlt_dec (- t - (- IZR (Zfloor t) - 1)) (1 / 2)); [lra |].
    destruct (Rlt_dec (1 / 2) (- t - (- IZR (Zfloor t) - 1))); [lia | lra]. }
  destruct (Rlt_dec (1 / 2) (t - IZR (Zfloor t))) as [Hgt | Hle].
  { destruct (Rlt_dec (- t - (- IZR (Zfloor t) - 1)) (1 / 2)); [lia | lra]. }
  destruct (Rlt_dec (- t - (- IZR (Zfloor t) - 1)) (1 / 2)); [lra |].
  destruct (Rlt_dec (1 / 2) (- t - (- IZR (Zfloor t) - 1))); [lra |].
  replace (- Zfloor t - 1)%Z with (- (Zfloor t + 1))%Z by lia.
  rewrite Z.even_opp.
  replace (Zfloor t + 1)%Z with (Z.succ (Zfloor t)) by lia.
  rewrite Z.even_succ, <- Z.negb_even.
  destruct (Z.even (Zfloor t)); cbn [negb]; lia.
Qed.

(** The binade of a number that is not zero. *)
Lemma binade (x : R) :
  x <> 0 ->
  powerRZ 2 (Zfloor (ln (Rabs x) / ln 2)) <= Rabs x
  < powerRZ 2 (Zfloor (ln (Rabs x) / ln 2) + 1).
Proof.
  intros Hx. pose proof (Rabs_pos_lt x Hx) as Hpos.
  pose proof ln_2_pos as H2.
  pose proof (Zfloor_bound (ln (Rabs x) / ln 2)) as [Hlo Hhi].
  set (e := Zfloor (ln (Rabs x) / ln 2)) in *.
  assert (Hq : ln (Rabs x) / ln 2 * ln 2 = ln (Rabs x)) by (field; lra).
  assert (Hl : IZR e * ln 2 <= ln (Rabs x)) by nra.
  assert (Hu : ln (Rabs x) < IZR (e + 1) * ln 2) by (rewrite plus_IZR; nra).
  rewrite <- !ln_powerRZ_2 in *.
  split.
  - destruct Hl as [Hl | Hl].
    + left. apply ln_lt_inv; [apply powerRZ_lt; lra | assumption | assumption].
    + right. apply ln_inv; [apply powerRZ_lt; lra | assumption | assumption].
  - apply ln_lt_inv; [assumption | apply powerRZ_lt; lra | assumption].
Qed.

(** The exponent of any number. *)
Lemma exponent_bounds (x : R) :
  (-1022 <= exponent x)%Z /\
  Rabs x < powerRZ 2 (exponent x + 1) /\
  (x <> 0 -> (-1022 < exponent x)%Z -> powerRZ 2 (exponent x) <= Rabs x).
Proof.
  unfold exponent. split; [lia |].
  destruct (Req_dec_T x 0) as [-> | Hx].
  - split; [| done]. rewrite Rabs_R0.
    apply powerRZ_lt. lra.
  - destruct (binade x Hx) as [Hlo Hhi].
    set (e := Zfloor (ln (Rabs x) / ln 2)) in *.
    split.
    + eapply Rlt_le_trans; [exact Hhi |]. apply powerRZ_2_mono. lia.
    + intros _ He. replace (Z.max e (-1022)) with e by lia. exact Hlo.
Qed.

Lemma exponent_unique (y : R) (e : Z) :
  (-1022 <= e)%Z -> y <> 0 -> Rabs y < powerRZ 2 (e + 1) ->
  (powerRZ 2 e <= Rabs y \/ e = (-1022)%Z) ->
  exponent y = e.
Proof.
  intros He Hy Hhi Hlo. unfold exponent.
  destruct (binade y Hy) as [Hlo' Hhi'].
  set (e' := Zfloor (ln (Rabs y) / ln 2)) in *.
  assert (He' : (e' < e + 1)%Z) by (apply powerRZ_2_lt_inv; lra).
  destruct Hlo as [Hlo | ->]; [| lia].
  assert (He'' : (e < e' + 1)%Z) by (apply powerRZ_2_lt_inv; lra).
  lia.
Qed.

Lemma exponent_opp (x : R) : exponent (- x) = exponent x.
Proof. unfold exponent. by rewrite Rabs_Ropp. Qed.

Lemma exponent_le (x y : R) : 0 < x -> x <= y -> (exponent x <= exponent y)%Z.
Proof.
  intros Hx Hxy. unfold exponent.
  apply Z.max_le_compat_r, Zfloor_le.
  pose proof ln_2_pos as H2.
  apply Rmult_le_compat_r; [left; by apply Rinv_0_lt_compat |].
  rewrite !Rabs_right by lra.
  destruct Hxy as [Hxy | ->]; [left; by apply ln_increasing | lra].
Qed.

Lemma ulp_pos (x : R) : 0 < ulp x.
Proof. apply powerRZ_lt. lra. Qed.

Lemma ulp_opp (x : R) : ulp (- x) = ulp x.
Proof. unfold ulp. by rewrite exponent_opp. Qed.

(** Rounding to the nearest float: odd, within half a unit in the last
    place, and between the powers of two that bound the binade. *)
Lemma nearest_float_opp (x : R) : nearest_float (- x) = - nearest_float x.
Proof.
  unfold nearest_float. rewrite ulp_opp.
  replace (- x / ulp x) with (- (x / ulp x)) by (field; apply Rgt_not_eq, ulp_pos).
  rewrite round_half_even_opp, opp_IZR. ring.
Qed.

Lemma nearest_float_0 : nearest_float 0 = 0.
Proof.
  unfold nearest_float. replace (0 / ulp 0) with (IZR 0) by (unfold Rdiv; ring).
  rewrite round_half_even_IZR. ring.
Qed.

Lemma nearest_float_near (x : R) :
  - (ulp x / 2) <= nearest_float x - x <= ulp x / 2.
Proof.
  unfold nearest_float. pose proof (ulp_pos x) as Hu.
  pose proof (round_half_even_near (x / ulp x)) as Hr.
  assert (Hx : x = x / ulp x * ulp x) by (field; lra).
  set (u := ulp x) in *. set (t := x / u) in *. clearbody t u. subst x. nra.
Qed.

Lemma nearest_float_nonneg (x : R) : 0 <= x -> 0 <= nearest_float x.
Proof.
  intros Hx. unfold nearest_float. pose proof (ulp_pos x) as Hu.
  apply Rmult_le_pos; [| lra].
  apply (IZR_le 0). rewrite <- (round_half_even_IZR 0).
  apply round_half_even_le. apply Rmult_le_pos; [assumption |].
  left. by apply Rinv_0_lt_compat.
Qed.

Lemma ulp_binade (x : R) : powerRZ 2 (exponent x + 1) = IZR (2 ^ 53) * ulp x.
Proof.
  unfold ulp. replace (exponent x + 1)%Z with (53 + (exponent x - 52))%Z by lia.
  rewrite powerRZ_add by lra. by rewrite (powerRZ_2_IZR 53) by lia.
Qed.

Lemma ulp_binade_low (x : R) : powerRZ 2 (exponent x) = IZR (2 ^ 52) * ulp x.
Proof.
  unfold ulp. replace (exponent x) with (52 + (exponent x - 52))%Z at 1 by lia.
  rewrite powerRZ_add by lra. by rewrite (powerRZ_2_IZR 52) by lia.
Qed.

(** The mantissa of the float nearest to a positive number. *)
Lemma mantissa_bounds (x : R) :
  0 < x ->
  (0 <= round_half_even (x / ulp x) <= 2 ^ 53)%Z /\
  ((-1022 < exponent x)%Z -> (2 ^ 52 <= round_half_even (x / ulp x))%Z).
Proof.
  intros Hx. pose proof (ulp_pos x) as Hu.
  destruct (exponent_bounds x) as (He & Hhi & Hlo).
  rewrite Rabs_right in Hhi, Hlo by lra.
  rewrite ulp_binade in Hhi. rewrite ulp_binade_low in Hlo.
  assert (Hinv : 0 < / ulp x) by (by apply Rinv_0_lt_compat).
  split; [split |].
  - rewrite <- (round_half_even_IZR 0). apply round_half_even_le.
    apply Rmult_le_pos; lra.
  - rewrite <- (round_half_even_IZR (2 ^ 53)). apply round_half_even_le.
    apply Rmult_le_reg_r with (ulp x); [assumption |].
    unfold Rdiv. rewrite Rmult_assoc, Rinv_l by lra. lra.
  - intros Hnormal. rewrite <- (round_half_even_IZR (2 ^ 52)). apply round_half_even_le.
    apply Rmult_le_reg_r with (ulp x); [assumption |].
    unfold Rdiv. rewrite Rmult_assoc, Rinv_l by lra.
    specialize (Hlo ltac:(lra) Hnormal). lra.
Qed.

Lemma nearest_float_binade (x : R) :
  0 < x ->
  nearest_float x <= powerRZ 2 (exponent x + 1) /\
  ((-1022 < exponent x)%Z -> powerRZ 2 (exponent x) <= nearest_float x).
Proof.
  intros Hx. pose proof (ulp_pos x) as Hu.
  destruct (mantissa_bounds x Hx) as ([Hm0 Hm1] & Hm2).
  rewrite ulp_binade, ulp_binade_low. unfold nearest_float. split.
  - apply Rmult_le_compat_r; [lra |]. by apply IZR_le.
  - intros Hnormal. apply Rmult_le_compat_r; [lra |]. by apply IZR_le, Hm2.
Qed.

(** A whole multiple of the unit of a binade, within the binade, is a
    float. *)
Lemma nearest_float_multiple (m e : Z) :
  (-1022 <= e)%Z -> (0 < m < 2 ^ 53)%Z -> ((2 ^ 52 <= m)%Z \/ e = (-1022)%Z) ->
  nearest_float (IZR m * powerRZ 2 (e - 52)) = IZR m * powerRZ 2 (e - 52).
Proof.
  intros He [Hm0 Hm1] Hm.
  pose proof (powerRZ_lt 2 (e - 52) ltac:(lra)) as Hu.
  assert (Hpos : 0 < IZR m * powerRZ 2 (e - 52)).
  { apply Rmult_lt_0_compat; [by apply (IZR_lt 0) | assumption]. }
  assert (Hexp : exponent (IZR m * powerRZ 2 (e - 52)) = e).
  { apply exponent_unique; [assumption | lra | |].
    - rewrite Rabs_right by lra.
      replace (e + 1)%Z with (53 + (e - 52))%Z by lia.
      rewrite powerRZ_add, (powerRZ_2_IZR 53) by (lra || lia).
      apply Rmult_lt_compat_r; [assumption | by apply IZR_lt].
    - destruct Hm as [Hm | ->]; [left | by right].
      rewrite Rabs_right by lra.
      replace e with (52 + (e - 52))%Z at 1 by lia.
      rewrite powerRZ_add, (powerRZ_2_IZR 52) by (lra || lia).
      apply Rmult_le_compat_r; [lra | by apply IZR_le]. }
  unfold nearest_float, ulp. rewrite Hexp.
  replace (IZR m * powerRZ 2 (e - 52) / powerRZ 2 (e - 52)) with (IZR m) by (field; lra).
  by rewrite round_half_even_IZR.
Qed.

Lemma nearest_float_power (e : Z) :
  (-1022 <= e)%Z -> nearest_float (powerRZ 2 e) = powerRZ 2 e.
Proof.
  intros He.
  assert (Hp : powerRZ 2 e = IZR (2 ^ 52) * powerRZ 2 (e - 52)).
  { replace e with (52 + (e - 52))%Z at 1 by lia.
    by rewrite powerRZ_add, (powerRZ_2_IZR 52) by (lra || lia). }
  rewrite Hp. apply nearest_float_multiple; [assumption | lia | left; lia].
Qed.

Lemma nearest_float_idempotent (x : R) : nearest_float (nearest_float x) = nearest_float x.
Proof.
  assert (Hpos : forall y : R, 0 < y -> nearest_float (nearest_float y) = nearest_float y).
  { intros y Hy. destruct (mantissa_bounds y Hy) as ([Hm0 Hm1] & Hm2).
    destruct (exponent_bounds y) as (He & _).
    unfold nearest_float at 2 3. unfold ulp in *.
    set (m := round_half_even (y / powerRZ 2 (exponent y - 52))) in *.
    destruct (Z.eq_dec m 0%Z) as [-> | Hm].
    { rewrite Rmult_0_l. apply nearest_float_0. }
    destruct (Z.eq_dec m (2 ^ 53)%Z) as [-> | Hm'].
    { assert (Hp : IZR (2 ^ 53) * powerRZ 2 (exponent y - 52) = powerRZ 2 (exponent y + 1)).
      { replace (exponent y + 1)%Z with (53 + (exponent y - 52))%Z by lia.
        by rewrite powerRZ_add, (powerRZ_2_IZR 53) by (lra || lia). }
      rewrite Hp. apply nearest_float_power. lia. }
    apply nearest_float_multiple; [assumption | lia |].
    destruct (Z.eq_dec (exponent y) (-1022)%Z) as [Hsub | Hnormal]; [by right |].
    left. apply Hm2. lia. }
  destruct (Rtotal_order x 0) as [Hx | [-> | Hx]].
  - pose proof (Hpos (- x) ltac:(lra)) as Hneg.
    rewrite !nearest_float_opp in Hneg. lra.
  - by rewrite !nearest_float_0.
  - by apply Hpos.
Qed.

Lemma nearest_float_le (x y : R) : x <= y -> nearest_float x <= nearest_float y.
Proof.
  assert (Hpos : forall a b : R, 0 < a -> a <= b -> nearest_float a <= nearest_float b).
  { intros a b Ha Hab.
    pose proof (exponent_le a b Ha Hab) as He.
    destruct (Z.eq_dec (exponent a) (exponent b)) as [Heq | Hne].
    - unfold nearest_float, ulp. rewrite Heq.
      pose proof (powerRZ_lt 2 (exponent b - 52) ltac:(lra)) as Hu.
      apply Rmult_le_compat_r; [lra |]. apply IZR_le, round_half_even_le.
      apply Rmult_le_compat_r; [left; by apply Rinv_0_lt_compat | assumption].
    - destruct (nearest_float_binade a Ha) as [Hhi _].
      destruct (nearest_float_binade b ltac:(lra)) as [_ Hlo].
      destruct (exponent_bounds a) as (Hmin & _).
      specialize (Hlo ltac:(lia)).
      pose proof (powerRZ_2_mono (exponent a + 1) (exponent b) ltac:(lia)). lra. }
  intros Hxy.
  destruct (Rlt_dec 0 x) as [Hx | Hx]; [by apply Hpos |].
  destruct (Rlt_dec y 0) as [Hy | Hy].
  - apply Ropp_le_cancel. rewrite <- !nearest_float_opp. apply Hpos; lra.
  - pose proof (nearest_float_nonneg y ltac:(lra)) as Hny.
    pose proof (nearest_float_nonneg (- x) ltac:(lra)) as Hnx.
    rewrite nearest_float_opp in Hnx. lra.
Qed.

(** Every float is a whole multiple of the smallest positive float, and
    below the normal range every such multiple is a float. *)
Lemma float_grid (b : R) :
  nearest_float b = b -> exists m : Z, b = IZR m * powerRZ 2 (-1074).
Proof.
  intros Hb. destruct (exponent_bounds b) as (He & _).
  exists (round_half_even (b / ulp b) * 2 ^ (exponent b + 1022))%Z.
  rewrite <- Hb at 1. unfold nearest_float at 1. unfold ulp at 2.
  replace (exponent b - 52)%Z with ((exponent b + 1022) + -1074)%Z by lia.
  rewrite powerRZ_add, powerRZ_2_IZR, mult_IZR by (lra || lia). ring.
Qed.

Lemma nearest_float_subnormal_multiple (k : Z) :
  0 <= IZR k * powerRZ 2 (-1074) < powerRZ 2 (-1022) ->
  nearest_float (IZR k * powerRZ 2 (-1074)) = IZR k * powerRZ 2 (-1074).
Proof.
  intros [Hlo Hhi]. pose proof smallest_float_pos as Hs.
  assert (Hp : powerRZ 2 (-1022) = IZR (2 ^ 52) * powerRZ 2 (-1074)).
  { change (-1022)%Z with (52 + -1074)%Z.
    by rewrite powerRZ_add, (powerRZ_2_IZR 52) by (lra || lia). }
  rewrite Hp in Hhi.
  assert (Hk0 : (0 <= k)%Z).
  { apply le_IZR. apply Rmult_le_reg_r with (powerRZ 2 (-1074)); [assumption | lra]. }
  assert (Hk1 : (k < 2 ^ 52)%Z).
  { apply lt_IZR. apply Rmult_lt_reg_r with (powerRZ 2 (-1074)); [assumption | lra]. }
  destruct (Z.eq_dec k 0%Z) as [-> | Hk].
  { rewrite Rmult_0_l. apply nearest_float_0. }
  apply (nearest_float_multiple k (-1022)); [lia | lia | by right].
Qed.

(** In the normal range the float nearest to [x] is within [x / 2^53]. *)
Lemma nearest_float_relative (x : R) :
  powerRZ 2 (-1022) <= x ->
  - (x / IZR (2 ^ 53)) <= nearest_float x - x <= x / IZR (2 ^ 53).
Proof.
  intros Hx. pose proof (powerRZ_lt 2 (-1022) ltac:(lra)) as Hmin.
  pose proof (nearest_float_near x) as Hnear.
  destruct (exponent_bounds x) as (He & _ & Hlo).
  assert (Hbin : powerRZ 2 (exponent x) <= x).
  { destruct (Z.eq_dec (exponent x) (-1022)%Z) as [-> | Hne]; [assumption |].
    rewrite <- (Rabs_right x) at 2 by lra. apply Hlo; [lra | lia]. }
  rewrite ulp_binade_low in Hbin. pose proof (ulp_pos x) as Hu.
  assert (H52 : IZR (2 ^ 52) = 4503599627370496) by reflexivity.
  assert (H53 : IZR (2 ^ 53) = 9007199254740992) by reflexivity.
  rewrite H52 in Hbin. rewrite H53. lra.
Qed.

(** The product of a float and a whole number, rounded. *)
Lemma nearest_float_product (b : R) (q : Z) :
  nearest_float b = b -> 0 < b -> (0 <= q)%Z ->
  - (b * IZR q / IZR (2 ^ 53)) <= nearest_float (b * IZR q) - b * IZR q
  <= b * IZR q / IZR (2 ^ 53).
Proof.
  intros Hb Hpos Hq.
  assert (Hx : 0 <= b * IZR q).
  { apply Rmult_le_pos; [lra | by apply (IZR_le 0)]. }
  assert (H53 : IZR (2 ^ 53) = 9007199254740992) by reflexivity.
  destruct (Rle_dec (powerRZ 2 (-1022)) (b * IZR q)) as [Hnormal | Hsub].
  - by apply nearest_float_relative.
  - destruct (float_grid b Hb) as [m Hm].
    assert (Hexact : nearest_float (b * IZR q) = b * IZR q).
    { rewrite Hm.
      replace (IZR m * powerRZ 2 (-1074) * IZR q) with (IZR (m * q) * powerRZ 2 (-1074))
        by (rewrite mult_IZR; ring).
      apply nearest_float_subnormal_multiple.
      rewrite mult_IZR.
      replace (IZR m * IZR q * powerRZ 2 (-1074)) with (b * IZR q) by (rewrite Hm; ring).
      lra. }
    rewrite Hexact, H53. lra.
Qed.

Lemma overflow_threshold : powerRZ 2 970 <= powerRZ 2 1024 - powerRZ 2 970.
Proof.
  pose proof (powerRZ_2_mono (970 + 1) 1024 ltac:(lia)) as Hle.
  rewrite powerRZ_2_succ in Hle. lra.
Qed.

Lemma float_overflow_small (x : R) : Rabs x < powerRZ 2 970 -> float_overflow x = false.
Proof.
  intros Hx. unfold float_overflow. apply Rleb_false.
  pose proof overflow_threshold. lra.
Qed.

(** Snapping a quotient that is within a half of a whole number. *)
Lemma snap_to_whole (d : R) (q : Z) :
  IZR q - 1 / 2 < d < IZR q + 1 / 2 ->
  (if Rltb (1 / 2) (d - IZR (Zfloor d)) then IZR (Zfloor d) + 1 else IZR (Zfloor d))
  = IZR q.
Proof.
  intros [Hlo Hhi].
  destruct (Rle_dec (IZR q) d) as [Hle | Hgt].
  - rewrite (Zfloor_eq q d) by lra. by rewrite Rltb_false by lra.
  - assert (Hf : Zfloor d = (q - 1)%Z).
    { apply Zfloor_eq. rewrite minus_IZR. lra. }
    rewrite Hf, minus_IZR. rewrite Rltb_true by lra. ring.
Qed.

Lemma floor_quotient (a b : R) :
  0 <= a -> 0 < b ->
  (0 <= Zfloor (a / b))%Z /\
  trunc (a / b) = Zfloor (a / b) /\
  b * IZR (Zfloor (a / b)) <= a < b * (IZR (Zfloor (a / b)) + 1).
Proof.
  intros Ha Hb. pose proof (Zfloor_bound (a / b)) as [Hlo Hhi].
  assert (Hab : a = a / b * b) by (field; lra).
  assert (Hquot : 0 <= a / b).
  { apply Rmult_le_pos; [assumption | left; by apply Rinv_0_lt_compat]. }
  split; [by apply Zfloor_lub |].
  split; [unfold trunc; by rewrite Rleb_true |].
  set (t := a / b) in *. clearbody t. subst a. nra.
Qed.

Lemma binary64_floor_divide_exact (a b : R) :
  nearest_float a = a -> nearest_float b = b -> 0 <= a -> 0 < b -> a / b < 2 ^ 51 ->
  binary64_floor_divide a b = Fin (IZR (Zfloor (a / b))).
Proof.
  intros Hfa Hfb Ha Hb Hsmall.
  destruct (floor_quotient a b Ha Hb) as (Hq0 & Htrunc & Hq).
  pose proof (Zfloor_bound (a / b)) as [Hlo _].
  unfold binary64_floor_divide. rewrite Htrunc.
  set (q := Zfloor (a / b)) in *.
  replace (a - (a - b * IZR q)) with (b * IZR q) by ring.
  assert (Hmd : negb (Reqb (a - b * IZR q) 0)
                && xorb (Rltb b 0) (Rltb (a - b * IZR q) 0) = false).
  { rewrite (Rltb_false b 0), (Rltb_false (a - b * IZR q) 0) by lra.
    apply andb_false_r. }
  rewrite Hmd.
  destruct (Z.eq_dec q 0%Z) as [Hzero | Hnz].
  { rewrite Hzero, Rmult_0_r, nearest_float_0.
    replace (0 / b) with 0 by (unfold Rdiv; ring).
    unfold binary64_rounded. rewrite float_overflow_small.
    - rewrite nearest_float_0. by rewrite Reqb_true.
    - rewrite Rabs_R0. apply powerRZ_lt. lra. }
  assert (Hq1 : 1 <= IZR q) by (apply (IZR_le 1); lia).
  assert (H51 : 2 ^ 51 = 2251799813685248) by (simpl; lra).
  rewrite H51 in Hsmall.
  assert (Hq2 : IZR q <= 2251799813685247).
  { assert (Hlt : (q < 2251799813685248)%Z) by (apply lt_IZR; lra).
    apply IZR_le. lia. }
  pose proof (nearest_float_product b q Hfb Hb Hq0) as Hy.
  set (y := nearest_float (b * IZR q)) in *.
  assert (H53 : IZR (2 ^ 53) = 9007199254740992) by reflexivity.
  rewrite H53 in Hy.
  assert (Ht : - (IZR q / 9007199254740992) <= y / b - IZR q <= IZR q / 9007199254740992).
  { split; (apply Rmult_le_reg_r with b; [lra |]).
    - replace ((y / b - IZR q) * b) with (y - b * IZR q) by (field; lra). lra.
    - replace ((y / b - IZR q) * b) with (y - b * IZR q) by (field; lra). lra. }
  set (t := y / b) in *.
  assert (Hmin : powerRZ 2 (-1022) <= t).
  { pose proof (powerRZ_2_mono (-1022) (-1) ltac:(lia)) as Hle.
    change (powerRZ 2 (-1)) with (/ (2 * 1)) in Hle. lra. }
  pose proof (nearest_float_relative t Hmin) as Hd. rewrite H53 in Hd.
  assert (Hfin : float_overflow t = false).
  { apply float_overflow_small.
    pose proof (powerRZ_2_mono 52 970 ltac:(lia)) as Hle.
    rewrite (powerRZ_2_IZR 52) in Hle by lia.
    assert (H52 : IZR (2 ^ 52) = 4503599627370496) by reflexivity.
    rewrite H52 in Hle. rewrite Rabs_right by lra. lra. }
  unfold binary64_rounded. rewrite Hfin.
  set (d := nearest_float t) in *.
  assert (Hnear : IZR q - 1 / 2 < d < IZR q + 1 / 2) by lra.
  rewrite Reqb_false by lra.
  by rewrite (snap_to_whole d q Hnear).
Qed.

Lemma binary64_floor_divide_nonneg (a b : R) :
  nearest_float a = a -> nearest_float b = b -> 0 <= a -> 0 < b ->
  binary64_floor_divide a b = PInf \/
  exists n : Z, (0 <= n)%Z /\ binary64_floor_divide a b = Fin (IZR n).
Proof.
  intros Hfa Hfb Ha Hb.
  destruct (floor_quotient a b Ha Hb) as (Hq0 & Htrunc & Hq).
  unfold binary64_floor_divide. rewrite Htrunc.
  set (q := Zfloor (a / b)) in *.
  replace (a - (a - b * IZR q)) with (b * IZR q) by ring.
  assert (Hmd : negb (Reqb (a - b * IZR q) 0)
                && xorb (Rltb b 0) (Rltb (a - b * IZR q) 0) = false).
  { rewrite (Rltb_false b 0), (Rltb_false (a - b * IZR q) 0) by lra.
    apply andb_false_r. }
  rewrite Hmd.
  assert (Hy : 0 <= nearest_float (b * IZR q)).
  { apply nearest_float_nonneg, Rmult_le_pos; [lra | by apply (IZR_le 0)]. }
  set (y := nearest_float (b * IZR q)) in *.
  assert (Ht : 0 <= y / b).
  { apply Rmult_le_pos; [assumption | left; by apply Rinv_0_lt_compat]. }
  unfold binary64_rounded.
  destruct (float_overflow (y / b)) eqn:Hfin.
  { left. destruct Ht as [Ht | Ht].
    - by rewrite inf_of_sign_pos.
    - rewrite <- Ht in Hfin. rewrite float_overflow_small in Hfin; [done |].
      rewrite Rabs_R0. apply powerRZ_lt. lra. }
  right. pose proof (nearest_float_nonneg (y / b) Ht) as Hd.
  set (d := nearest_float (y / b)) in *.
  destruct (Reqb d 0); [by exists 0%Z |].
  assert (Hf : (0 <= Zfloor d)%Z) by (by apply Zfloor_lub).
  destruct (Rltb (1 / 2) (d - IZR (Zfloor d))).
  - exists (Zfloor d + 1)%Z. split; [lia | by rewrite plus_IZR].
  - by exists (Zfloor d).
Qed.

Lemma binary64_laws : Float64Laws binary64.
Proof.
  constructor; cbn [fl floor_divide binary64].
  - apply nearest_float_le.
  - apply nearest_float_idempotent.
  - apply nearest_float_0.
  - apply binary64_floor_divide_exact.
  - apply binary64_floor_divide_nonneg.
Qed.

Lemma nearest_float_250 : nearest_float 250 = 250.
Proof.
  rewrite (nearest_float_normal 250 7 8796093022208000).
  - simpl. lra.
  - lia.
  - rewrite Rabs_right by lra. simpl. lra.
  - simpl. lra.
Qed.

Lemma nearest_float_5_2 : nearest_float (5 / 2) = 5 / 2.
Proof.
  rewrite (nearest_float_normal (5 / 2) 1 5629499534213120).
  - simpl. lra.
  - lia.
  - rewrite Rabs_right by lra. simpl. lra.
  - simpl. lra.
Qed.

Lemma nearest_float_minus_1 : nearest_float (-1) = -1.
Proof.
  change (nearest_float (Ropp 1) = Ropp 1).
  rewrite nearest_float_opp. f_equal.
  apply (nearest_float_power 0). lia.
Qed.

(** ** Affordability *)

Lemma affordable_nonpositive {F : Float64} (c p : R) (k : ftype) :
  p <= 0 -> affordable_contracts (py c) (Num k (Fin p)) = Ok 0%Z.
Proof.
  intros Hp. unfold affordable_contracts, gt. cbn [val py xgt].
  by rewrite Rltb_false by assumption.
Qed.

(** On a positive price whose cost per contract is in the range of the
    floats and not zero, the expression is the integer of the floor
    division of the capital by the rounded cost. *)
Lemma affordable_cost {F : Float64} (c p : R) (k : ftype) :
  0 < p -> overflows (p * 100) = false -> fl (p * 100) <> 0 ->
  affordable_contracts (py c) (Num k (Fin p))
  = int_of (Num k (floor_divide c (fl (p * 100)))).
Proof.
  intros Hp Hfin Hcost. unfold affordable_contracts, gt. cbn [val py xgt].
  rewrite Rltb_true by assumption.
  unfold floordiv, fmul, binop, xfmul, rounded. cbn [kind val py xmul].
  rewrite Hfin. cbn [is_zero xfloordiv].
  rewrite Reqb_false by assumption.
  destruct k; reflexivity.
Qed.

Lemma affordable_cost_overflow {F : Float64} (c p : R) (k : ftype) :
  0 <= c -> 0 < p -> overflows (p * 100) = true ->
  affordable_contracts (py c) (Num k (Fin p)) = Ok 0%Z.
Proof.
  intros Hc Hp Hinf. unfold affordable_contracts, gt. cbn [val py xgt].
  rewrite Rltb_true by assumption.
  unfold floordiv, fmul, binop, xfmul, rounded. cbn [kind val py xmul].
  rewrite Hinf, inf_of_sign_pos by lra. cbn [is_zero xfloordiv].
  rewrite Rleb_true by assumption.
  destruct k; cbn [join]; rewrite bind_Ok; apply (int_of_integer _ 0).
Qed.

Lemma cost_positive {F : Float64} (p : R) :
  Float64Laws F -> fl p = p -> 0 < p -> 0 < fl (p * 100).
Proof.
  intros Laws Hfloat Hp.
  pose proof (fl_monotone p (p * 100) ltac:(lra)) as Hmono.
  rewrite Hfloat in Hmono. lra.
Qed.

Lemma cost_nonneg {F : Float64} (p : R) : Float64Laws F -> 0 < p -> 0 <= fl (p * 100).
Proof.
  intros Laws Hp.
  pose proof (fl_monotone 0 (p * 100) ltac:(lra)) as Hmono.
  by rewrite fl_0 in Hmono.
Qed.

Lemma affordable_positive {F : Float64} (c p : R) (k : ftype) :
  Float64Laws F -> 0 <= c -> fl c = c -> fl p = p -> 0 < p ->
  overflows (p * 100) = false -> c / fl (p * 100) < 2 ^ 51 ->
  affordable_contracts (py c) (Num k (Fin p)) = Ok (Zfloor (c / fl (p * 100))).
Proof.
  intros Laws Hc Hfc Hfp Hp Hfin Hsmall.
  pose proof (cost_positive p Laws Hfp Hp) as Hcost.
  rewrite affordable_cost by (assumption || lra).
  rewrite floor_divide_exact by (assumption || apply fl_idempotent).
  apply int_of_integer.
Qed.

(** Whatever the price, a count that is returned is not negative. *)
Lemma affordable_nonneg {F : Float64} (c : R) (price : num) (n : Z) :
  Float64Laws F -> 0 <= c -> fl c = c ->
  affordable_contracts (py c) price = Ok n -> (0 <= n)%Z.
Proof.
  intros Laws Hc Hfc. destruct price as [k [p | | |]].
  - destruct (Rlt_dec 0 p) as [Hp | Hp].
    2:{ rewrite affordable_nonpositive by lra. intros [= <-]. lia. }
    destruct (overflows (p * 100)) eqn:Hfin.
    { rewrite affordable_cost_overflow by assumption. intros [= <-]. lia. }
    pose proof (cost_nonneg p Laws Hp) as Hcost.
    destruct (Req_dec_T (fl (p * 100)) 0) as [Hzero | Hnz].
    + unfold affordable_contracts, gt. cbn [val py xgt]. rewrite Rltb_true by assumption.
      unfold floordiv, fmul, binop, xfmul, rounded. cbn [kind val py xmul].
      rewrite Hfin, Hzero. cbn [is_zero xfloordiv]. rewrite Reqb_true by reflexivity.
      destruct k; cbn [join]; [done |].
      rewrite bind_Ok. unfold int_of, inf_of_sign. cbn [val].
      destruct (Rltb 0 c); [done |]. by destruct (Rltb c 0).
    + rewrite affordable_cost by assumption.
      destruct (floor_divide_nonneg c (fl (p * 100)) Hfc (fl_idempotent _) Hc ltac:(lra))
        as [-> | (m & Hm & ->)]; [done |].
      rewrite int_of_integer. by intros [= <-].
  - unfold affordable_contracts, gt, floordiv, fmul, binop, xfmul.
    cbn [val kind xgt xmul is_zero py].
    rewrite inf_of_sign_pos by lra. cbn [xfloordiv]. rewrite Rleb_true by assumption.
    destruct k; cbn [join is_zero]; rewrite bind_Ok, (int_of_integer _ 0);
      intros [= <-]; lia.
  - intros [= <-]. lia.
  - intros [= <-]. lia.
Qed.

(** On a positive float price the only exception is that of a quotient
    beyond the range of the floats. *)
Lemma affordable_raises {F : Float64} (c p : R) (k : ftype) (e : exn) :
  Float64Laws F -> 0 <= c -> fl c = c -> fl p = p ->
  affordable_contracts (py c) (Num k (Fin p)) = Raise e -> e = OverflowError.
Proof.
  intros Laws Hc Hfc Hfp.
  destruct (Rlt_dec 0 p) as [Hp | Hp].
  2:{ by rewrite affordable_nonpositive by lra. }
  destruct (overflows (p * 100)) eqn:Hfin.
  { by rewrite affordable_cost_overflow by assumption. }
  pose proof (cost_positive p Laws Hfp Hp) as Hcost.
  rewrite affordable_cost by (assumption || lra).
  destruct (floor_divide_nonneg c (fl (p * 100)) Hfc (fl_idempotent _) Hc Hcost)
    as [-> | (m & Hm & ->)].
  - by intros [= <-].
  - by rewrite int_of_integer.
Qed.

(** Claim C4, as the code has it: for a capital [c >= 0] and a call price [p], both
    floats, the affordability expression of [main] is 0 when [p <= 0].  When
    [p > 0] it divides by the float product [p * 100], that is by the float
    nearest to the exact cost, and returns the floor of [c] over that float
    as long as this quotient is below 2^51.  A count that is returned is
    never negative; the only exception the expression can raise is
    [OverflowError], when the quotient is beyond the range of the floats;
    and for a fixed [p > 0] the count is non-decreasing in the capital. *)
Theorem C4_affordable_contracts {F : Float64} (c p : R) (k : ftype) :
  Float64Laws F -> 0 <= c -> fl c = c -> fl p = p ->
  (p <= 0 -> affordable_contracts (py c) (Num k (Fin p)) = Ok 0%Z) /\
  (0 < p -> overflows (p * 100) = false -> c / fl (p * 100) < 2 ^ 51 ->
     affordable_contracts (py c) (Num k (Fin p)) = Ok (Zfloor (c / fl (p * 100)))) /\
  (forall n : Z, affordable_contracts (py c) (Num k (Fin p)) = Ok n -> (0 <= n)%Z) /\
  (forall e : exn,
     affordable_contracts (py c) (Num k (Fin p)) = Raise e -> e = OverflowError) /\
  (forall c' : R,
     0 < p -> overflows (p * 100) = false ->
     c <= c' -> fl c' = c' -> c' / fl (p * 100) < 2 ^ 51 ->
     exists n n' : Z,
       affordable_contracts (py c) (Num k (Fin p)) = Ok n /\
       affordable_contracts (py c') (Num k (Fin p)) = Ok n' /\
       (n <= n')%Z).
Proof.
  intros Laws Hc Hfc Hfp.
  split; [apply affordable_nonpositive |].
  split; [intros Hp Hfin Hsmall; by apply affordable_positive |].
  split; [intros n; by apply affordable_nonneg |].
  split; [intros e; by apply affordable_raises |].
  intros c' Hp Hfin Hcc' Hfc' Hsmall.
  pose proof (cost_positive p Laws Hfp Hp) as Hcost.
  assert (Hle : c / fl (p * 100) <= c' / fl (p * 100)).
  { apply Rmult_le_compat_r; [| assumption]. left. by apply Rinv_0_lt_compat. }
  exists (Zfloor (c / fl (p * 100))), (Zfloor (c' / fl (p * 100))).
  split; [apply affordable_positive; (assumption || lra) |].
  split; [apply affordable_positive; (assumption || lra) |].
  by apply Zfloor_le.
Qed.

(** The example of the specification, on binary64: a price of 2.50 and a
    capital of 1000 buy 4 contracts; a negative price buys none. *)
Lemma C4_affordable_contracts_witness :
  @affordable_contracts binary64 (py 1000) (np (5 / 2)) = Ok 4%Z /\
  @affordable_contracts binary64 (py 1000) (np (-1)) = Ok 0%Z.
Proof.
  assert (Hc : 0 <= 1000) by lra.
  destruct (@C4_affordable_contracts binary64 1000 (5 / 2) NpFloat64
              binary64_laws Hc nearest_float_1000 nearest_float_5_2) as (_ & Hpos & _).
  destruct (@C4_affordable_contracts binary64 1000 (-1) NpFloat64
              binary64_laws Hc nearest_float_1000 nearest_float_minus_1) as (Hneg & _).
  assert (Hcost : 5 / 2 * 100 = 250) by lra.
  split.
  - unfold np. rewrite Hpos.
    + cbn [fl binary64]. rewrite Hcost, nearest_float_250.
      f_equal. apply Zfloor_eq. simpl. lra.
    + lra.
    + cbn [overflows binary64]. apply float_overflow_small.
      pose proof (powerRZ_2_mono 8 970 ltac:(lia)) as Hle.
      rewrite (powerRZ_2_IZR 8) in Hle by lia.
      assert (H8 : IZR (2 ^ 8) = 256) by reflexivity.
      rewrite H8 in Hle. rewrite Rabs_right by lra. lra.
    + cbn [fl binary64]. rewrite Hcost, nearest_float_250. simpl. lra.
  - unfold np. apply Hneg. lra.
Defined.

(** *** Two evaluations on binary64 *)

(** The cost of a contract at the price of the smallest positive float. *)
Lemma nearest_float_smallest_cost :
  nearest_float (powerRZ 2 (-1074) * 100) = 100 * powerRZ 2 (-1074).
Proof.
  pose proof smallest_float_pos as Hpos.
  assert (H6 : powerRZ 2 (-1068) = 64 * powerRZ 2 (-1074)).
  { change (-1068)%Z with (6 + -1074)%Z. rewrite powerRZ_add by lra. simpl powerRZ at 1. lra. }
  assert (H7 : powerRZ 2 (-1067) = 128 * powerRZ 2 (-1074)).
  { change (-1067)%Z with (7 + -1074)%Z. rewrite powerRZ_add by lra. simpl powerRZ at 1. lra. }
  rewrite (nearest_float_subnormal _ (-1068) 100).
  - reflexivity.
  - lia.
  - change (-1068 + 1)%Z with (-1067)%Z. rewrite H6, H7.
    rewrite Rabs_right by nra. lra.
  - replace (powerRZ 2 (-1074) * 100 / powerRZ 2 (-1074)) with 100 by (field; lra). lra.
Qed.

Lemma affordable_tenth : @affordable_contracts binary64 (py 1000) (np tenth) = Ok 100%Z.
Proof.
  unfold np. rewrite affordable_cost.
  - cbn [fl floor_divide binary64]. rewrite nearest_float_10.
    unfold binary64_floor_divide.
    assert (Hq : trunc (1000 / 10) = 100%Z).
    { replace (1000 / 10) with (IZR 100) by (simpl; lra). apply trunc_integer. }
    rewrite Hq.
    replace (1000 - (1000 - 10 * IZR 100)) with 1000 by (simpl; lra).
    rewrite nearest_float_1000.
    replace (1000 / 10) with 100 by lra.
    unfold binary64_rounded.
    assert (Hfin : float_overflow 100 = false).
    { unfold float_overflow. apply Rleb_false. rewrite Rabs_right by lra. simpl. lra. }
    rewrite Hfin, nearest_float_100.
    rewrite (Reqb_true (1000 - 10 * IZR 100)) by (simpl; lra).
    cbn [negb andb]. rewrite Reqb_false by lra.
    replace 100 with (IZR 100) by reflexivity.
    rewrite ZfloorZ. rewrite Rltb_false by lra.
    apply int_of_integer.
  - unfold tenth. lra.
  - cbn [overflows binary64]. unfold float_overflow. apply Rleb_false.
    unfold tenth. rewrite Rabs_right by lra. simpl. lra.
  - cbn [fl binary64]. rewrite nearest_float_10. lra.
Qed.

Lemma affordable_smallest_float :
  @affordable_contracts binary64 (py 1000) (np (powerRZ 2 (-1074))) = Raise OverflowError.
Proof.
  pose proof smallest_float_pos as Hpos.
  pose proof smallest_float_inverse as Hinv.
  pose proof (powerRZ_2_ge_1 50 ltac:(lia)) as H50.
  pose proof (powerRZ_2_ge_1 963 ltac:(lia)) as H963.
  pose proof (powerRZ_2_ge_1 1074 ltac:(lia)) as H1074.
  assert (H1024 : 0 < powerRZ 2 1024) by (apply powerRZ_lt; lra).
  assert (Hbig : powerRZ 2 1024 <= powerRZ 2 1074).
  { change 1074%Z with (50 + 1024)%Z. rewrite powerRZ_add by lra. nra. }
  assert (H970 : 128 <= powerRZ 2 970).
  { change 970%Z with (7 + 963)%Z. rewrite powerRZ_add by lra. simpl powerRZ at 1. lra. }
  assert (Hmax : 2 * powerRZ 2 970 <= powerRZ 2 1024).
  { change 1024%Z with (54 + 970)%Z. rewrite powerRZ_add by lra.
    assert (2 <= powerRZ 2 54) by (simpl; lra). nra. }
  assert (HN : powerRZ 2 1074 = IZR (2 ^ 1074)).
  { cbn [powerRZ]. rewrite pow_IZR. by rewrite positive_nat_Z. }
  unfold np. rewrite affordable_cost.
  - cbn [fl floor_divide binary64]. rewrite nearest_float_smallest_cost.
    unfold binary64_floor_divide.
    assert (Hq : 1000 / (100 * powerRZ 2 (-1074)) = IZR (10 * 2 ^ 1074)).
    { rewrite mult_IZR, <- HN. field_simplify_eq; [| lra]. nra. }
    rewrite Hq, trunc_integer, <- Hq.
    replace (1000 - (1000 - 100 * powerRZ 2 (-1074) * (1000 / (100 * powerRZ 2 (-1074)))))
      with 1000 by (field; lra).
    rewrite nearest_float_1000.
    unfold binary64_rounded.
    assert (Hover : float_overflow (1000 / (100 * powerRZ 2 (-1074))) = true).
    { unfold float_overflow. apply Rleb_true.
      replace (1000 / (100 * powerRZ 2 (-1074))) with (10 * powerRZ 2 1074).
      - rewrite Rabs_right; [lra |]. apply Rle_ge. nra.
      - field_simplify_eq; [| lra]. nra. }
    rewrite Hover, inf_of_sign_pos; [reflexivity |].
    apply Rdiv_lt_0_compat; lra.
  - exact Hpos.
  - cbn [overflows binary64]. unfold float_overflow. apply Rleb_false.
    rewrite Rabs_right by nra. nra.
  - cbn [fl binary64]. rewrite nearest_float_smallest_cost. lra.
Qed.

(** Claim C4 as stated does not hold on binary64 floats.  The float nearest
    to 0.1 is a little above 0.1; its product with 100 rounds to 10, so a
    capital of 1000 is counted as 100 contracts, while the floor of the
    capital over 100 times the price is 99.  And at the smallest positive
    float the quotient is beyond the range of the floats: the expression
    raises [OverflowError]. *)
Lemma C4_counterexample :
  nearest_float (1 / 10) = tenth /\
  @affordable_contracts binary64 (py 1000) (np tenth) = Ok 100%Z /\
  Zfloor (1000 / (100 * tenth)) = 99%Z /\
  @affordable_contracts binary64 (py 1000) (np (powerRZ 2 (-1074))) = Raise OverflowError.
Proof.
  split; [apply nearest_tenth |].
  split; [apply affordable_tenth |].
  split; [| apply affordable_smallest_float].
  apply Zfloor_eq. unfold tenth. simpl. lra.
Qed.
(** ** Evaluating the operations on real operands *)


Lemma truediv_fin (k1 k2 : ftype) (x y : R) :
  y <> 0 -> truediv (Num k1 (Fin x)) (Num k2 (Fin y)) = Ok (Num (join k1 k2) (Fin (x / y))).
Proof.
  intros Hy. unfold truediv, binop. simpl.
  rewrite Reqb_false by assumption.
  by destruct (join k1 k2).
Qed.

Lemma truediv_python_zero (a : xfloat) :
  truediv (Num PyFloat a) (Num PyFloat (Fin 0)) = Raise ZeroDivisionError.
Proof. unfold truediv. simpl. by rewrite Reqb_true. Qed.

Lemma truediv_numpy_zero (k1 k2 : ftype) (x : R) :
  join k1 k2 = NpFloat64 ->
  truediv (Num k1 (Fin x)) (Num k2 (Fin 0)) = Ok (Num NpFloat64 (inf_of_sign x)).
Proof.
  intros Hk. unfold truediv, binop. simpl. rewrite Hk.
  by rewrite Reqb_true.
Qed.

Lemma math_log_fin (k : ftype) (x : R) : 0 < x -> math_log (Num k (Fin x)) = Ok (py (ln x)).
Proof. intros Hx. unfold math_log. simpl. by rewrite Rltb_true. Qed.

Lemma math_sqrt_fin (k : ftype) (x : R) : 0 <= x -> math_sqrt (Num k (Fin x)) = Ok (py (sqrt x)).
Proof. intros Hx. unfold math_sqrt. simpl. by rewrite Rleb_true. Qed.

(** ** The pricer on a zero divisor *)

Section DegenerateInputs.
Context `{ScipyNorm}.
Variables S K T r sigma : R.
Hypothesis S_pos : 0 < S.
Hypothesis K_pos : 0 < K.
Hypothesis T_nonneg : 0 <= T.
Hypothesis zero_divisor : sigma * sqrt T = 0.

Lemma ratio_pos : 0 < S / K.
Proof. by apply Rdiv_lt_0_compat. Qed.

Lemma pricer_python_zero_divisor :
  black_scholes_call (py S) (py K) (py T) (py r) (py sigma) = Raise ZeroDivisionError.
Proof.
  unfold black_scholes_call, py.
  rewrite truediv_fin by lra. rewrite bind_Ok.
  rewrite math_log_fin by apply ratio_pos. rewrite bind_Ok.
  rewrite math_sqrt_fin by assumption. rewrite bind_Ok.
  unfold py, mul, add, sqr, binop. cbn [kind val join xmul xadd].
  rewrite zero_divisor. by rewrite truediv_python_zero.
Qed.

Lemma pricer_numpy_d1 :
  black_scholes_call (np S) (np K) (py T) (py r) (np sigma)
  = (let d1 := Num NpFloat64 (inf_of_sign (d1_numerator S K T r sigma)) in
     let d2 := sub d1 (np 0) in
     Ok (sub (mul (np S) (norm_cdf d1)) (mul (mul (np K) (py (exp (- r * T)))) (norm_cdf d2)),
         norm_cdf d1,
         mul (mul (np S) (norm_pdf d1)) (py (sqrt T)))).
Proof.
  unfold black_scholes_call, py, np.
  rewrite truediv_fin by lra. rewrite bind_Ok.
  rewrite math_log_fin by apply ratio_pos. rewrite bind_Ok.
  rewrite !math_sqrt_fin by assumption. rewrite !bind_Ok.
  unfold py, mul, add, sqr, binop. cbn [kind val join xmul xadd].
  rewrite zero_divisor. rewrite truediv_numpy_zero by reflexivity.
  rewrite !bind_Ok. cbn [kind val join xmul].
  rewrite zero_divisor. reflexivity.
Qed.

Lemma pricer_numpy_positive :
  0 < d1_numerator S K T r sigma ->
  black_scholes_call (np S) (np K) (py T) (py r) (np sigma)
  = Ok (np (S - K * exp (- r * T)), np 1, np 0).
Proof.
  intros Hn. rewrite pricer_numpy_d1. simpl.
  rewrite inf_of_sign_pos by assumption.
  unfold np, sub, mul, binop, norm_cdf, norm_pdf, math_exp. simpl.
  repeat f_equal; ring.
Qed.

Lemma pricer_numpy_negative :
  d1_numerator S K T r sigma < 0 ->
  black_scholes_call (np S) (np K) (py T) (py r) (np sigma)
  = Ok (np 0, np 0, np 0).
Proof.
  intros Hn. rewrite pricer_numpy_d1. simpl.
  rewrite inf_of_sign_neg by assumption.
  unfold np, sub, mul, binop, norm_cdf, norm_pdf, math_exp. simpl.
  repeat f_equal; ring.
Qed.

Lemma pricer_numpy_zero :
  d1_numerator S K T r sigma = 0 ->
  black_scholes_call (np S) (np K) (py T) (py r) (np sigma)
  = Ok (Num NpFloat64 NaN, Num NpFloat64 NaN, Num NpFloat64 NaN).
Proof.
  intros Hn. rewrite pricer_numpy_d1. simpl.
  rewrite Hn, inf_of_sign_0. reflexivity.
Qed.
End DegenerateInputs.

(** ** The volatility estimator *)

Lemma xsum_fin (l : list R) : xsum (map Fin l) = Fin (Rsum l).
Proof.
  induction l as [| x l IH]; [reflexivity |].
  unfold xsum in *. simpl. rewrite IH. reflexivity.
Qed.

Lemma filter_not_nan_fin (l : list R) :
  filter (fun v => is_nan v = false) (map Fin l) = map Fin l.
Proof.
  induction l as [| x l IH]; [reflexivity |].
  simpl. rewrite filter_cons_True by reflexivity. by rewrite IH.
Qed.

Lemma Rsum_squares_nonneg (f : R -> R) (l : list R) :
  0 <= Rsum (map (fun x => f x * f x) l).
Proof.
  induction l as [| x l IH]; simpl; [lra |].
  assert (0 <= f x * f x) by nra. unfold Rsum in *. simpl. lra.
Qed.

(** The first entry of the return column is always NaN: the first row has no
    previous price. *)
Lemma log_return_head (a : xfloat) (l : list xfloat) :
  map np_log (series_div (a :: l) (shift1 (a :: l)))
  = NaN :: map np_log (zip_with xdiv l (removelast (a :: l))).
Proof.
  unfold series_div, shift1. simpl.
  destruct a; reflexivity.
Qed.

Lemma log_return_tail (a : R) (l : list R) :
  0 < a -> Forall (fun p => 0 < p) l ->
  map np_log (zip_with xdiv (map Fin l) (removelast (map Fin (a :: l))))
  = map Fin (log_returns (a :: l)).
Proof.
  revert a. induction l as [| b l IH]; intros a Ha Hl; [reflexivity |].
  inversion Hl as [| ? ? Hb Hl']; subst.
  change (removelast (map Fin (a :: b :: l))) with (Fin a :: removelast (map Fin (b :: l))).
  change (log_returns (a :: b :: l)) with (ln (b / a) :: log_returns (b :: l)).
  specialize (IH b Hb Hl').
  cbn [map zip_with xdiv] in *.
  rewrite Reqb_false by lra.
  cbn [np_log]. rewrite Rltb_true by (by apply Rdiv_lt_0_compat).
  by rewrite IH.
Qed.

Lemma log_return_column (a : R) (l : list R) :
  0 < a -> Forall (fun p => 0 < p) l ->
  map np_log (series_div (map Fin (a :: l)) (shift1 (map Fin (a :: l))))
  = NaN :: map Fin (log_returns (a :: l)).
Proof.
  intros Ha Hl. change (map Fin (a :: l)) with (Fin a :: map Fin l).
  rewrite log_return_head. f_equal. by apply log_return_tail.
Qed.

Lemma length_log_returns (a : R) (l : list R) :
  length (log_returns (a :: l)) = length l.
Proof.
  revert a. induction l as [| b l IH]; intros a; [reflexivity |].
  change (log_returns (a :: b :: l)) with (ln (b / a) :: log_returns (b :: l)).
  cbn [length]. by rewrite IH.
Qed.

Lemma series_std_fin (l : list R) :
  (2 <= length l)%nat -> series_std (NaN :: map Fin l) = Fin (sample_std l).
Proof.
  intros Hlen. unfold series_std.
  rewrite filter_cons_False by (simpl; congruence).
  rewrite filter_not_nan_fin, length_map.
  destruct (Nat.leb_spec (length l) 1) as [Hle | _]; [lia |].
  rewrite xsum_fin.
  assert (Hn : INR (length l) <> 0) by (apply not_0_INR; lia).
  assert (Hn1 : INR (length l - 1) <> 0) by (apply not_0_INR; lia).
  cbn [xdiv]. rewrite Reqb_false by assumption.
  rewrite map_map. cbn [xsub xopp xadd xmul].
  rewrite <- (map_map (fun x => (Rsum l / INR (length l) + - x) * (Rsum l / INR (length l) + - x)) Fin).
  rewrite xsum_fin. cbn [xdiv]. rewrite Reqb_false by assumption.
  cbn [np_sqrt].
  rewrite Rleb_true.
  2:{ apply Rmult_le_pos; [apply Rsum_squares_nonneg |].
      left. apply Rinv_0_lt_compat. apply lt_0_INR. lia. }
  unfold sample_std, mean. f_equal. f_equal.
  rewrite minus_INR by lia. simpl INR. f_equal.
  f_equal. apply map_ext. intros x. ring.
Qed.

Lemma series_std_short (s : list xfloat) :
  (length s <= 1)%nat -> series_std (NaN :: s) = NaN.
Proof.
  intros Hlen. unfold series_std.
  rewrite filter_cons_False by (simpl; congruence).
  pose proof (length_filter (fun v => is_nan v = false) s) as Hf.
  destruct (Nat.leb_spec (length (filter (fun v => is_nan v = false) s)) 1); [reflexivity | lia].
Qed.

Lemma volatility_unfold (df : DataFrame) (adj : list xfloat) :
  columns df !! "adj_close" = Some adj ->
  calculate_volatility df =
    let log_return := map np_log (series_div adj (shift1 adj)) in
    Ok (Num NpFloat64 (xmul (series_std log_return) (np_sqrt (Fin 252))),
        Frame (index df) (<["log_return" := log_return]> (columns df))).
Proof. intros Hadj. unfold calculate_volatility. by rewrite Hadj. Qed.

Lemma np_sqrt_252 : np_sqrt (Fin 252) = Fin (sqrt 252).
Proof. cbn [np_sqrt]. by rewrite Rleb_true by lra. Qed.

(** With at most two observations at most one return is left once the
    leading NaN is skipped, and pandas' standard deviation is NaN. *)
Lemma volatility_short (df : DataFrame) (adj : list xfloat) :
  columns df !! "adj_close" = Some adj -> (length adj <= 2)%nat ->
  exists df' : DataFrame, calculate_volatility df = Ok (Num NpFloat64 NaN, df').
Proof.
  intros Hadj Hlen. rewrite (volatility_unfold df adj Hadj). cbn zeta.
  eexists. f_equal. f_equal. f_equal.
  destruct adj as [| a l].
  - reflexivity.
  - rewrite log_return_head, series_std_short; [reflexivity |].
    rewrite length_map, length_zip_with. simpl in Hlen. lia.
Qed.

Lemma volatility_formula (df : DataFrame) (prices : list R) :
  columns df !! "adj_close" = Some (map Fin prices) ->
  (3 <= length prices)%nat -> Forall (fun p => 0 < p) prices ->
  exists df' : DataFrame,
    calculate_volatility df = Ok (np (annualized_volatility prices), df').
Proof.
  intros Hadj Hlen Hpos. rewrite (volatility_unfold df _ Hadj). cbn zeta.
  eexists. f_equal. f_equal. unfold np. f_equal.
  destruct prices as [| a l]; [simpl in Hlen; lia |].
  inversion Hpos as [| ? ? Ha Hl]; subst.
  rewrite log_return_column by assumption.
  rewrite series_std_fin by (rewrite length_log_returns; simpl in Hlen; lia).
  rewrite np_sqrt_252. reflexivity.
Qed.

Lemma log_returns_constant (c : R) (n : nat) :
  c <> 0 -> log_returns (replicate (S n) c) = replicate n 0.
Proof.
  intros Hc. induction n as [| n IH]; [reflexivity |].
  change (replicate (S (S n)) c) with (c :: replicate (S n) c).
  change (log_returns (c :: replicate (S n) c))
    with (ln (c / c) :: log_returns (replicate (S n) c)).
  rewrite IH. replace (c / c) with 1 by (by field). by rewrite ln_1.
Qed.

Lemma Rsum_zeros (n : nat) : Rsum (replicate n 0) = 0.
Proof. induction n as [| n IH]; [reflexivity |]. unfold Rsum in *. simpl. lra. Qed.

Lemma sample_std_zeros (n : nat) : sample_std (replicate n 0) = 0.
Proof.
  unfold sample_std, mean. rewrite Rsum_zeros.
  erewrite map_ext; [| intros x; reflexivity].
  replace (map (fun x => (x - 0 / INR (length (replicate n 0))) * (x - 0 / INR (length (replicate n 0))))
               (replicate n 0)) with (replicate n 0).
  - rewrite Rsum_zeros. unfold Rdiv. rewrite Rmult_0_l. apply sqrt_0.
  - induction n as [| n IH]; [reflexivity |].
    generalize (INR (length (replicate (S n) 0))). intros m.
    cbn [replicate map]. f_equal.
    + unfold Rdiv. ring.
    + clear IH. induction n as [| n IH]; [reflexivity |].
      cbn [replicate map]. f_equal; [unfold Rdiv; ring | exact IH].
Qed.

Lemma volatility_constant (c : R) (n : nat) :
  c <> 0 -> annualized_volatility (replicate n c) = 0.
Proof.
  intros Hc. unfold annualized_volatility.
  destruct n as [| n].
  - change (log_returns (replicate 0 c)) with (replicate 0 0).
    rewrite sample_std_zeros. ring.
  - rewrite log_returns_constant by assumption.
    rewrite sample_std_zeros. ring.
Qed.
Lemma length_shift1 (s : list xfloat) : length (shift1 s) = length s.
Proof.
  destruct s as [| a l]; [reflexivity |].
  unfold shift1. cbn [length]. f_equal.
  revert a. induction l as [| b l IH]; intros a; [reflexivity |].
  change (removelast (a :: b :: l)) with (a :: removelast (b :: l)).
  cbn [length]. by rewrite IH.
Qed.

Lemma length_log_return_column (adj : list xfloat) :
  length (map np_log (series_div adj (shift1 adj))) = length adj.
Proof.
  unfold series_div. rewrite length_map, length_zip_with, length_shift1. lia.
Qed.

(** Claim C5, as the code has it: for a series with fewer than two observations the
    estimator raises nothing: it returns NaN as a numpy float. *)
Theorem C5_short_series_gives_nan (df : DataFrame) (adj : list xfloat) :
  columns df !! "adj_close" = Some adj -> (length adj < 2)%nat ->
  exists df' : DataFrame, calculate_volatility df = Ok (Num NpFloat64 NaN, df').
Proof.
  intros Hadj Hlen. apply (volatility_short df adj Hadj). lia.
Qed.

Lemma C5_short_series_gives_nan_witness :
  exists df' : DataFrame, calculate_volatility one_day_frame = Ok (Num NpFloat64 NaN, df').
Proof.
  apply (C5_short_series_gives_nan one_day_frame [Fin 100]).
  - reflexivity.
  - simpl. lia.
Defined.

(** Claim C5 as stated does not hold: on a frame with a single observation the
    estimator returns NaN and does not signal [InsufficientData]. *)
Lemma C5_counterexample :
  calculate_volatility one_day_frame
  = Ok (Num NpFloat64 NaN,
        Frame ["2024-01-02"%string]
              (<["log_return"%string := [NaN]]> {[ "adj_close"%string := [Fin 100] ]}))
  /\ calculate_volatility one_day_frame <> Raise (Exception "InsufficientData").
Proof.
  assert (Heval : calculate_volatility one_day_frame
    = Ok (Num NpFloat64 NaN,
          Frame ["2024-01-02"%string]
                (<["log_return"%string := [NaN]]> {[ "adj_close"%string := [Fin 100] ]}))).
  { rewrite (volatility_unfold one_day_frame [Fin 100]) by reflexivity. reflexivity. }
  split; [exact Heval |]. rewrite Heval. discriminate.
Qed.


(** Claim C7, as the code has it: for a series of at least three positive prices the
    estimator returns the sample standard deviation of the daily log returns
    of all consecutive pairs, times the square root of 252, and this is 0
    for a constant series; for a series of exactly two prices it returns
    NaN. *)
Theorem C7_volatility_of_three_or_more (df : DataFrame) (prices : list R) :
  columns df !! "adj_close" = Some (map Fin prices) ->
  Forall (fun p => 0 < p) prices ->
  ((3 <= length prices)%nat ->
     exists df' : DataFrame,
       calculate_volatility df = Ok (np (annualized_volatility prices), df')) /\
  ((3 <= length prices)%nat ->
     forall c : R, prices = replicate (length prices) c ->
     exists df' : DataFrame, calculate_volatility df = Ok (np 0, df')) /\
  (length prices = 2%nat ->
     exists df' : DataFrame, calculate_volatility df = Ok (Num NpFloat64 NaN, df')).
Proof.
  intros Hadj Hpos. split; [| split].
  - intros Hlen. by apply volatility_formula.
  - intros Hlen c Hconst.
    destruct (volatility_formula df prices Hadj Hlen Hpos) as [df' Hrun].
    exists df'. rewrite Hrun. do 3 f_equal.
    rewrite Hconst. apply volatility_constant.
    destruct prices as [| p ps]; [simpl in Hlen; lia |].
    inversion Hpos as [| ? ? Hp _]; subst.
    simpl in Hconst. injection Hconst as Hc _. lra.
  - intros Hlen. apply (volatility_short df _ Hadj).
    rewrite length_map. lia.
Qed.

Lemma C7_volatility_of_three_or_more_witness :
  exists df' : DataFrame,
    calculate_volatility three_day_frame
    = Ok (np 0, df').
Proof.
  assert (Hpos : Forall (fun p => 0 < p) [100; 100; 100]).
  { repeat constructor; lra. }
  destruct (C7_volatility_of_three_or_more
              three_day_frame
              [100; 100; 100] (lookup_singleton_eq _ _) Hpos) as (_ & Hconst & _).
  apply (Hconst ltac:(simpl; lia) 100). reflexivity.
Defined.

(** Claim C7 as stated does not hold: two equal prices are a constant series
    with at least two observations; the sample standard deviation of its
    single return times the square root of 252 is 0, yet the estimator
    returns NaN. *)
Lemma C7_counterexample :
  calculate_volatility two_day_frame
  = Ok (Num NpFloat64 NaN,
        Frame ["2024-01-02"; "2024-01-03"]%string
              (<["log_return"%string := [NaN; Fin (ln (100 / 100))]]>
                 {[ "adj_close"%string := [Fin 100; Fin 100] ]}))
  /\ annualized_volatility [100; 100] = 0
  /\ ~ (exists df' : DataFrame,
          calculate_volatility two_day_frame
          = Ok (np (annualized_volatility [100; 100]), df')).
Proof.
  assert (Heval : calculate_volatility two_day_frame
    = Ok (Num NpFloat64 NaN,
          Frame ["2024-01-02"; "2024-01-03"]%string
                (<["log_return"%string := [NaN; Fin (ln (100 / 100))]]>
                   {[ "adj_close"%string := [Fin 100; Fin 100] ]}))).
  { rewrite (volatility_unfold two_day_frame [Fin 100; Fin 100]) by reflexivity.
    cbn zeta. cbn [series_div shift1 removelast zip_with map xdiv np_log].
    rewrite Reqb_false by lra. cbn [map np_log].
    rewrite Rltb_true by lra.
    rewrite series_std_short by (simpl; lia). reflexivity. }
  split; [exact Heval |]. split.
  - apply (volatility_constant 100 2). lra.
  - intros [df' Hrun]. rewrite Heval in Hrun. discriminate.
Qed.

(** ** The pricer away from the degenerate inputs *)

Section RegularInputs.
Context `{ScipyNorm}.
Variables S K T r sigma : R.
Variables kS kK kT kr ksigma : ftype.
Hypothesis S_pos : 0 < S.
Hypothesis K_pos : 0 < K.
Hypothesis T_nonneg : 0 <= T.
Hypothesis divisor : sigma * sqrt T <> 0.

Lemma pricer_regular :
  black_scholes_call (Num kS (Fin S)) (Num kK (Fin K)) (Num kT (Fin T))
                     (Num kr (Fin r)) (Num ksigma (Fin sigma))
  = Ok (np (bs_price S K T r sigma),
        np (Phi (bs_d1 S K T r sigma)),
        np (S * phi (bs_d1 S K T r sigma) * sqrt T)).
Proof.
  unfold black_scholes_call.
  rewrite truediv_fin by lra. rewrite bind_Ok.
  rewrite math_log_fin by (by apply Rdiv_lt_0_compat). rewrite bind_Ok.
  rewrite !math_sqrt_fin by assumption. rewrite bind_Ok.
  unfold py, mul, add, sqr, binop. cbn [kind val join xmul xadd].
  rewrite truediv_fin by assumption. rewrite !bind_Ok.
  unfold np, sub, mul, neg, binop, norm_cdf, norm_pdf, math_exp, py.
  cbn [kind val join xmul xadd xsub xopp].
  assert (Hk : forall k : ftype, join k NpFloat64 = NpFloat64) by (by intros []).
  rewrite !Hk. reflexivity.
Qed.
End RegularInputs.

(** ** The sample distribution function *)

Lemma fraction_lt (a b c d : R) : 0 < b -> 0 < d -> a * d < c * b -> a / b < c / d.
Proof.
  intros Hb Hd Hlt.
  apply Rlt_0_minus.
  replace (c / d - a / b) with ((c * b - a * d) / (d * b)) by (field; lra).
  apply Rdiv_lt_0_compat; nra.
Qed.

Lemma sigmoid_increasing (x y : R) : x < y -> sigmoid x < sigmoid y.
Proof.
  intros Hxy. unfold sigmoid. apply Rplus_lt_compat_l.
  pose proof (Rabs_pos x) as Hax. pose proof (Rabs_pos y) as Hay.
  apply fraction_lt; [lra | lra |].
  destruct (Rcase_abs x) as [Hx | Hx]; destruct (Rcase_abs y) as [Hy | Hy].
  - rewrite (Rabs_left x), (Rabs_left y) by assumption. nra.
  - rewrite (Rabs_left x) by assumption. rewrite (Rabs_right y) by assumption. nra.
  - lra.
  - rewrite (Rabs_right x), (Rabs_right y) by assumption. nra.
Qed.

Lemma sigmoid_bounds (x : R) : 0 < sigmoid x < 1.
Proof.
  unfold sigmoid.
  assert (Hfrac : -1 < x / (1 + Rabs x) < 1).
  { pose proof (Rabs_pos x) as Hax.
    assert (Hq : x / (1 + Rabs x) * (1 + Rabs x) = x) by (field; lra).
    destruct (Rcase_abs x) as [Hx | Hx].
    - rewrite (Rabs_left x) in * by assumption. nra.
    - rewrite (Rabs_right x) in * by assumption. nra. }
  pose proof (Rabs_pos x) as Hax.
  replace (x / (2 * (1 + Rabs x))) with (x / (1 + Rabs x) / 2) by (field; lra).
  lra.
Qed.

Lemma sigmoid_0 : sigmoid 0 = 1 / 2.
Proof. unfold sigmoid. rewrite Rabs_R0. field. Qed.

Lemma sigmoid_laws : ScipyNormLaws sigmoid_norm.
Proof.
  constructor.
  - exact sigmoid_increasing.
  - exact sigmoid_bounds.
  - exact sigmoid_0.
Qed.

(** ** The zero divisor and the fallback of the specification *)

Lemma ratio_above_one (S K : R) : 0 < S -> 0 < K -> 0 < ln (S / K) -> K < S.
Proof.
  intros HS HK Hln. rewrite <- ln_1 in Hln.
  apply ln_lt_inv in Hln; [| lra | by apply Rdiv_lt_0_compat].
  apply (Rmult_lt_compat_r K) in Hln; [| assumption].
  replace (S / K * K) with S in Hln by (field; lra). lra.
Qed.

Lemma ratio_below_one (S K : R) : 0 < S -> 0 < K -> ln (S / K) < 0 -> S < K.
Proof.
  intros HS HK Hln. rewrite <- ln_1 in Hln.
  apply ln_lt_inv in Hln; [| by apply Rdiv_lt_0_compat | lra].
  apply (Rmult_lt_compat_r K) in Hln; [| assumption].
  replace (S / K * K) with S in Hln by (field; lra). lra.
Qed.

(** With a zero divisor and a positive numerator of [d1], the price
    [S - K * exp (- r * T)] is the intrinsic value exactly when the maturity
    or the rate is 0. *)
Lemma discounted_gain_intrinsic (S K T r sigma : R) :
  0 < S -> 0 < K -> 0 <= T -> sigma = 0 \/ T = 0 ->
  0 < d1_numerator S K T r sigma ->
  S - K * exp (- r * T) = Rmax (S - K) 0 <-> T = 0 \/ r = 0.
Proof.
  intros HS HK HT Hdeg Hn. unfold d1_numerator in Hn. split.
  - intros Hprice.
    destruct (Req_dec_T T 0) as [HT0 | HT0]; [by left |]. right.
    destruct Hdeg as [-> | ->]; [| done].
    assert (Hn' : 0 < ln (S / K) + r * T) by lra.
    destruct (Rle_dec K S) as [Hle | Hgt].
    + rewrite Rmax_left in Hprice by lra.
      assert (He : exp (- r * T) = exp 0) by (rewrite exp_0; nra).
      apply exp_inv in He. nra.
    + rewrite Rmax_right in Hprice by lra.
      assert (He : S / K = exp (- r * T)).
      { apply (Rmult_eq_reg_r K); [| lra].
        replace (S / K * K) with S by (field; lra). lra. }
      rewrite He, ln_exp in Hn'. lra.
  - intros Hzero.
    assert (He : exp (- r * T) = 1).
    { rewrite <- exp_0. f_equal. destruct Hzero as [-> | ->]; ring. }
    assert (Hln : 0 < ln (S / K)).
    { destruct Hzero as [-> | ->]; [lra |].
      destruct Hdeg as [-> | ->]; lra. }
    pose proof (ratio_above_one S K HS HK Hln).
    rewrite He, Rmax_left by lra. ring.
Qed.

(** Claim C1, as the code has it: with a volatility of 0, or a maturity of 0, the pricer
    divides by [sigma * sqrt T = 0] with no guard and never signals
    [DegenerateInputs].  On Python floats the division raises
    [ZeroDivisionError].  When spot, strike and volatility are numpy floats,
    as [main] passes them, the division gives an infinity or NaN and the
    pricer returns, never an infinity: price [S - K * exp (- r * T)], delta 1
    and vega 0 when the numerator [n = ln (S / K) + (r + sigma^2 / 2) * T] is
    positive; price, delta and vega 0 when it is negative; NaN three times
    when it is zero.  This result is the intrinsic-value fallback (price
    [max (S - K) 0], delta 0 or 1, vega 0) exactly when [n > 0] and the
    maturity or the rate is 0, or [n < 0] and [S <= K]. *)
Theorem C1_unguarded_division `{ScipyNorm} (S K T r sigma : R) :
  0 < S -> 0 < K -> 0 <= T -> sigma = 0 \/ T = 0 ->
  black_scholes_call (py S) (py K) (py T) (py r) (py sigma) = Raise ZeroDivisionError /\
  (0 < d1_numerator S K T r sigma ->
     black_scholes_call (np S) (np K) (py T) (py r) (np sigma)
     = Ok (np (S - K * exp (- r * T)), np 1, np 0)) /\
  (d1_numerator S K T r sigma < 0 ->
     black_scholes_call (np S) (np K) (py T) (py r) (np sigma)
     = Ok (np 0, np 0, np 0)) /\
  (d1_numerator S K T r sigma = 0 ->
     black_scholes_call (np S) (np K) (py T) (py r) (np sigma)
     = Ok (Num NpFloat64 NaN, Num NpFloat64 NaN, Num NpFloat64 NaN)) /\
  black_scholes_call (py S) (py K) (py T) (py r) (py sigma)
    <> Raise (Exception "DegenerateInputs") /\
  black_scholes_call (np S) (np K) (py T) (py r) (np sigma)
    <> Raise (Exception "DegenerateInputs") /\
  (forall price delta vega : num,
     black_scholes_call (np S) (np K) (py T) (py r) (np sigma) = Ok (price, delta, vega) ->
     ~ is_infinite (val price) /\ ~ is_infinite (val delta) /\ ~ is_infinite (val vega)) /\
  ~ degenerate_guarded S K (black_scholes_call (py S) (py K) (py T) (py r) (py sigma)) /\
  (degenerate_guarded S K (black_scholes_call (np S) (np K) (py T) (py r) (np sigma)) <->
   (0 < d1_numerator S K T r sigma /\ (T = 0 \/ r = 0)) \/
   (d1_numerator S K T r sigma < 0 /\ S <= K)).
Proof.
  intros HS HK HT Hdeg.
  assert (Hzero : sigma * sqrt T = 0).
  { destruct Hdeg as [-> | ->]; [ring | rewrite sqrt_0; ring]. }
  pose proof (pricer_python_zero_divisor S K T r sigma HS HK HT Hzero) as Hpy.
  pose proof (pricer_numpy_positive S K T r sigma HS HK HT Hzero) as Hpos.
  pose proof (pricer_numpy_negative S K T r sigma HS HK HT Hzero) as Hneg.
  pose proof (pricer_numpy_zero S K T r sigma HS HK HT Hzero) as Hnan.
  split; [exact Hpy |].
  split; [exact Hpos |]. split; [exact Hneg |]. split; [exact Hnan |].
  split; [rewrite Hpy; discriminate |].
  destruct (Rtotal_order (d1_numerator S K T r sigma) 0) as [Hn | [Hn | Hn]].
  - rewrite (Hneg Hn).
    split; [discriminate |].
    split.
    { intros price delta vega [= <- <- <-]. cbn [val np].
      repeat split; intros [Hinf | Hinf]; discriminate. }
    split.
    { rewrite Hpy. intros [Hsig | (price & delta & vega & Hout & _)]; discriminate. }
    split.
    + intros [Hsig | (price & delta & vega & [= <- <- <-] & Hprice & _)]; [discriminate |].
      right. split; [exact Hn |].
      cbn [val np] in Hprice. injection Hprice as Hprice.
      destruct (Rle_dec S K) as [Hle | Hgt]; [exact Hle |].
      rewrite Rmax_left in Hprice by lra. lra.
    + intros [[Hp _] | [_ Hle]]; [lra |].
      right. exists (np 0), (np 0), (np 0).
      split; [reflexivity |]. cbn [val np].
      split; [by rewrite Rmax_right by lra |]. split; [by left | reflexivity].
  - rewrite (Hnan Hn).
    split; [discriminate |].
    split.
    { intros price delta vega [= <- <- <-]. cbn [val].
      repeat split; intros [Hinf | Hinf]; discriminate. }
    split.
    { rewrite Hpy. intros [Hsig | (price & delta & vega & Hout & _)]; discriminate. }
    split.
    + intros [Hsig | (price & delta & vega & [= <- <- <-] & Hprice & _)]; discriminate.
    + intros [[Hp _] | [Hp _]]; lra.
  - rewrite (Hpos Hn).
    split; [discriminate |].
    split.
    { intros price delta vega [= <- <- <-]. cbn [val np].
      repeat split; intros [Hinf | Hinf]; discriminate. }
    split.
    { rewrite Hpy. intros [Hsig | (price & delta & vega & Hout & _)]; discriminate. }
    pose proof (discounted_gain_intrinsic S K T r sigma HS HK HT Hdeg Hn) as Hgain.
    split.
    + intros [Hsig | (price & delta & vega & [= <- <- <-] & Hprice & _)]; [discriminate |].
      left. split; [exact Hn |].
      cbn [val np] in Hprice. injection Hprice as Hprice. by apply Hgain.
    + intros [[_ Hcase] | [Hp _]]; [| lra].
      right. exists (np (S - K * exp (- r * T))), (np 1), (np 0).
      split; [reflexivity |]. cbn [val np].
      split; [f_equal; by apply Hgain |]. split; [by right | reflexivity].
Qed.

Lemma C1_unguarded_division_witness :
  @black_scholes_call sigmoid_norm (py 100) (py 100) (py (30 / 365)) (py (5 / 100)) (py 0)
  = Raise ZeroDivisionError.
Proof.
  apply (@C1_unguarded_division sigmoid_norm 100 100 (30 / 365) (5 / 100) 0);
    [lra | lra | lra | left; reflexivity].
Defined.

(** Claim C1 as stated does not hold: at the money with a rate of 0 and a
    volatility of 0 the pricer, run on numpy floats, returns NaN for price,
    delta and vega; run on Python floats it raises [ZeroDivisionError].
    Neither is the signal or the fallback asked for. *)
Lemma C1_counterexample :
  @black_scholes_call sigmoid_norm (np 100) (np 100) (py (30 / 365)) (py 0) (np 0)
  = Ok (Num NpFloat64 NaN, Num NpFloat64 NaN, Num NpFloat64 NaN)
  /\ ~ degenerate_guarded 100 100
       (@black_scholes_call sigmoid_norm (np 100) (np 100) (py (30 / 365)) (py 0) (np 0))
  /\ @black_scholes_call sigmoid_norm (py 100) (py 100) (py (30 / 365)) (py 0) (py 0)
     = Raise ZeroDivisionError
  /\ ~ degenerate_guarded 100 100
       (@black_scholes_call sigmoid_norm (py 100) (py 100) (py (30 / 365)) (py 0) (py 0)).
Proof.
  assert (Hnp : @black_scholes_call sigmoid_norm (np 100) (np 100) (py (30 / 365)) (py 0) (np 0)
                = Ok (Num NpFloat64 NaN, Num NpFloat64 NaN, Num NpFloat64 NaN)).
  { apply pricer_numpy_zero; [lra | lra | lra | ring |].
    unfold d1_numerator. replace (100 / 100) with 1 by field. rewrite ln_1. ring. }
  assert (Hpy : @black_scholes_call sigmoid_norm (py 100) (py 100) (py (30 / 365)) (py 0) (py 0)
                = Raise ZeroDivisionError).
  { apply pricer_python_zero_divisor; [lra | lra | lra | ring]. }
  split; [exact Hnp |]. split; [| split; [exact Hpy |]].
  - rewrite Hnp. intros [Hsig | (price & delta & vega & Hout & Hprice & _)].
    + discriminate.
    + injection Hout as <- _ _. discriminate.
  - rewrite Hpy. intros [Hsig | (price & delta & vega & Hout & _)]; discriminate.
Qed.
(** Claim C8, for any function with the monotonicity, range and value at 0
    of the normal distribution function: at S = K = 100, T = 30/365,
    r = 0.05 and sigma = 0.20 the pricer returns a price strictly between 0
    and 100 and a delta strictly between 0.5 and 1. *)
Theorem C8_at_the_money_sanity `{N : ScipyNorm} (kS kK kT kr ksigma : ftype) :
  ScipyNormLaws N ->
  black_scholes_call (Num kS (Fin 100)) (Num kK (Fin 100)) (Num kT (Fin (30 / 365)))
                     (Num kr (Fin (5 / 100))) (Num ksigma (Fin (20 / 100)))
  = Ok (np (bs_price 100 100 (30 / 365) (5 / 100) (20 / 100)),
        np (Phi (bs_d1 100 100 (30 / 365) (5 / 100) (20 / 100))),
        np (100 * phi (bs_d1 100 100 (30 / 365) (5 / 100) (20 / 100)) * sqrt (30 / 365)))
  /\ 0 < bs_price 100 100 (30 / 365) (5 / 100) (20 / 100) < 100
  /\ 1 / 2 < Phi (bs_d1 100 100 (30 / 365) (5 / 100) (20 / 100)) < 1.
Proof.
  intros Laws.
  assert (HT : 0 < 30 / 365) by lra.
  pose proof (sqrt_lt_R0 _ HT) as Hs.
  pose proof (sqrt_sqrt (30 / 365) ltac:(lra)) as Hss.
  split; [apply pricer_regular; nra |].
  unfold bs_price, bs_d2, bs_d1, d1_numerator.
  set (s := sqrt (30 / 365)) in *.
  assert (Hd1 : (ln (100 / 100) + (5 / 100 + 1 / 2 * (20 / 100 * (20 / 100))) * (30 / 365))
                / (20 / 100 * s) = 35 / 100 * s).
  { replace (100 / 100) with 1 by field. rewrite ln_1, <- Hss. field. lra. }
  rewrite Hd1.
  replace (35 / 100 * s - 20 / 100 * s) with (15 / 100 * s) by field.
  pose proof (Phi_increasing 0 (15 / 100 * s) ltac:(nra)) as H0.
  pose proof (Phi_increasing (15 / 100 * s) (35 / 100 * s) ltac:(nra)) as H1.
  pose proof (Phi_bounds (35 / 100 * s)) as [_ Hlt1].
  rewrite Phi_0 in H0.
  assert (He : 0 < exp (- (5 / 100) * (30 / 365)) < 1).
  { split; [apply exp_pos |]. rewrite <- exp_0. apply exp_increasing. lra. }
  split; [| lra]. nra.
Qed.

Lemma C8_at_the_money_sanity_witness :
  0 < @bs_price sigmoid_norm 100 100 (30 / 365) (5 / 100) (20 / 100) < 100
  /\ 1 / 2 < sigmoid (bs_d1 100 100 (30 / 365) (5 / 100) (20 / 100)) < 1.
Proof.
  exact (proj2 (@C8_at_the_money_sanity sigmoid_norm PyFloat PyFloat PyFloat PyFloat PyFloat
                  sigmoid_laws)).
Defined.

(** ** Ranking *)

Lemma desc_ok_total (a b : xfloat) : desc_ok a b = false -> desc_ok b a = true.
Proof.
  destruct a as [x | | |], b as [y | | |]; simpl; try done.
  intros Hxy. apply Rleb_true.
  unfold Rleb in Hxy. destruct (Rle_dec y x); [done | lra].
Qed.

Lemma desc_ok_trans (a b c : xfloat) :
  desc_ok a b = true -> desc_ok b c = true -> desc_ok a c = true.
Proof.
  destruct a as [x | | |], b as [y | | |], c as [z | | |]; simpl; try done.
  rewrite !Rleb_spec. lra.
Qed.

Global Instance ranks_before_trans : Transitive ranks_before.
Proof. intros a b c. apply desc_ok_trans. Qed.

Section InsertionSort.
Variable stop : row -> row -> bool.
Hypothesis stop_sound : forall x y : row, stop x y = true -> ranks_before x y.
Hypothesis stop_complete : forall x y : row, stop x y = false -> ranks_before y x.

Lemma insert_by_perm (x : row) (l : list row) : Permutation (insert_by stop x l) (x :: l).
Proof.
  induction l as [| y l IH]; simpl; [reflexivity |].
  destruct (stop x y); [reflexivity |].
  rewrite IH. apply perm_swap.
Qed.

Lemma sort_by_perm (l : list row) : Permutation (sort_by stop l) l.
Proof.
  induction l as [| x l IH]; simpl; [reflexivity |].
  rewrite insert_by_perm. by constructor.
Qed.

Lemma insert_by_hd (x y : row) (l : list row) :
  ranks_before y x -> HdRel ranks_before y l -> HdRel ranks_before y (insert_by stop x l).
Proof.
  intros Hyx Hl. destruct l as [| z l]; simpl; [by constructor |].
  destruct (stop x z); constructor; [assumption |].
  by inversion Hl.
Qed.

Lemma insert_by_sorted (x : row) (l : list row) :
  Sorted ranks_before l -> Sorted ranks_before (insert_by stop x l).
Proof.
  induction 1 as [| y l Hl IH Hhd]; simpl; [by repeat constructor |].
  destruct (stop x y) eqn:Hstop.
  - constructor; [by constructor |]. constructor. by apply stop_sound.
  - constructor; [exact IH |]. apply insert_by_hd; [by apply stop_complete | exact Hhd].
Qed.

Lemma sort_by_sorted (l : list row) : Sorted ranks_before (sort_by stop l).
Proof.
  induction l as [| x l IH]; simpl; [constructor |].
  by apply insert_by_sorted.
Qed.
End InsertionSort.

Lemma stable_pandas_laws : PandasSortLaws stable_pandas.
Proof.
  constructor; intros rows; simpl; unfold stable_sort_desc.
  - apply sort_by_perm.
  - apply sort_by_sorted.
    + intros x y Hxy. exact Hxy.
    + intros x y Hxy. by apply desc_ok_total.
Qed.

Lemma tie_reversing_pandas_laws : PandasSortLaws tie_reversing_pandas.
Proof.
  constructor; intros rows; simpl; unfold tie_reversing_sort_desc.
  - apply sort_by_perm.
  - apply sort_by_sorted.
    + intros x y Hxy. apply desc_ok_total. by destruct (desc_ok (rank_key y) (rank_key x)).
    + intros x y Hxy. unfold ranks_before. by destruct (desc_ok (rank_key y) (rank_key x)).
Qed.

Lemma ranked_head_spec `{P : PandasSort} (rows : list row) :
  PandasSortLaws P ->
  length (ranked_head rows) = Nat.min 25 (length rows) /\
  StronglySorted ranks_before (ranked_head rows) /\
  (exists rest : list row,
      Permutation (ranked_head rows ++ rest) rows /\
      forall kept left_out : row,
        kept ∈ ranked_head rows -> left_out ∈ rest -> ranks_before kept left_out) /\
  ((length rows <= 25)%nat -> Permutation (ranked_head rows) rows).
Proof.
  intros Laws. unfold ranked_head.
  pose proof (sort_values_perm rows) as Hperm.
  pose proof (sort_values_sorted rows) as Hsorted.
  apply (Sorted_StronglySorted ranks_before) in Hsorted.
  rewrite <- (take_drop 25 (sort_values rows)) in Hsorted.
  apply StronglySorted_app in Hsorted as (Hcross & Htop & _).
  split; [| split; [| split]].
  - rewrite length_take, (Permutation_length Hperm). lia.
  - exact Htop.
  - exists (drop 25 (sort_values rows)). split; [| exact Hcross].
    by rewrite take_drop.
  - intros Hlen. rewrite take_ge; [exact Hperm |].
    rewrite (Permutation_length Hperm). exact Hlen.
Qed.

(** ** Ties *)

Lemma desc_ok_refl (a : xfloat) : desc_ok a a = true.
Proof. destruct a; try reflexivity. apply Rleb_true. lra. Qed.

Lemma same_rank_spec (a b : row) : same_rank a b <-> ranks_before a b /\ ranks_before b a.
Proof. unfold same_rank, ranks_before. apply andb_true_iff. Qed.

Lemma same_rank_refl (a : row) : same_rank a a.
Proof. apply same_rank_spec. split; apply desc_ok_refl. Qed.






(** The default sort is not documented to keep ties, and the contract does
    not make it: a sort that meets the contract can return two rows of the
    same rank in the reverse of their order. *)
Lemma contract_leaves_ties_open :
  PandasSortLaws tie_reversing_pandas /\
  @sort_values tie_reversing_pandas [tied_first; tied_second] = [tied_second; tied_first] /\
  ~ keeps_ties (@sort_values tie_reversing_pandas [tied_first; tied_second])
               [tied_first; tied_second].
Proof.
  assert (Hkey : desc_ok (Fin 1) (Fin 1) = true) by (apply Rleb_true; lra).
  assert (Hrev : @sort_values tie_reversing_pandas [tied_first; tied_second]
                 = [tied_second; tied_first]).
  { unfold sort_values, tie_reversing_pandas, tie_reversing_sort_desc, sort_by.
    cbn [foldr insert_by rank_key Call_Price tied_first tied_second val np].
    rewrite Hkey. reflexivity. }
  split; [apply tie_reversing_pandas_laws |]. split; [exact Hrev |].
  intros Hties. specialize (Hties tied_first). rewrite Hrev in Hties.
  assert (H1 : same_rank tied_first tied_first) by apply same_rank_refl.
  assert (H2 : same_rank tied_first tied_second).
  { apply same_rank_spec. split; exact Hkey. }
  rewrite !filter_cons in Hties.
  rewrite !decide_True in Hties by assumption.
  discriminate.
Qed.

(** ** The screening loop *)

Lemma truediv_numpy_divisor (a b : num) :
  kind b = NpFloat64 -> truediv a b = Ok (binop xdiv a b).
Proof.
  intros Hb. unfold truediv. rewrite Hb.
  by destruct (kind a).
Qed.

Lemma math_sqrt_py (x : R) : 0 <= x -> math_sqrt (py x) = Ok (py (sqrt x)).
Proof. apply math_sqrt_fin. Qed.

(** At the money, on a numpy spot and a numpy volatility, the pricer of the
    embedding always returns: the quotient [S / S] is 1 or NaN, on which
    [math.log] is defined, the division by [sigma * sqrt(T)] is numpy's, and
    in exact arithmetic [math.exp] does not overflow. *)
Lemma pricer_numpy_total `{ScipyNorm} (s sig : xfloat) (T : R) (rate : num) :
  0 <= T ->
  succeeds (black_scholes_call (Num NpFloat64 s) (Num NpFloat64 s) (py T) rate
                               (Num NpFloat64 sig)).
Proof.
  intros HT.
  assert (Hlog : exists lg : num,
             math_log (binop xdiv (Num NpFloat64 s) (Num NpFloat64 s)) = Ok lg).
  { unfold math_log, binop. cbn [val kind].
    destruct s as [x | | |]; cbn [xdiv]; eauto.
    destruct (Req_dec_T x 0) as [-> | Hx].
    - rewrite Reqb_true by reflexivity. rewrite inf_of_sign_0. eauto.
    - rewrite Reqb_false by assumption.
      rewrite Rltb_true; [eauto |].
      replace (x / x) with 1 by (by field). lra. }
  destruct Hlog as [lg Hlg].
  unfold black_scholes_call.
  rewrite truediv_numpy_divisor by reflexivity. rewrite bind_Ok.
  rewrite Hlg, bind_Ok.
  rewrite !math_sqrt_py by assumption. rewrite bind_Ok.
  rewrite truediv_numpy_divisor by reflexivity.
  rewrite !bind_Ok. exact I.
Qed.

(** *** The price fetch *)

Lemma fetch_price_data_Some (answer : result price_response) (df : DataFrame) :
  fetch_price_data answer = Ok (Some df) ->
  exists (response : price_response) (days : list (string * option xfloat)),
    answer = Ok response /\
    price_status_code response = 200%Z /\
    price_json response = Json (Ok days) /\
    existsb has_close days = true /\
    df = Frame (days.*1) {[ "adj_close"%string := close_of <$> days ]}.
Proof.
  unfold fetch_price_data. intros Hfetch.
  destruct answer as [response | e]; [| done]. rewrite bind_Ok in Hfetch.
  destruct (Z.eqb_spec (price_status_code response) 200) as [Hcode | Hcode]; [| done].
  destruct (price_json response) as [e | [days | e]] eqn:Hjson; [done | |].
  - destruct (existsb has_close days) eqn:Hclose; [| done].
    exists response, days. injection Hfetch as <-. done.
  - by destruct (decide (e = KeyError)).
Qed.

Lemma fetch_price_data_skipped (response : price_response) :
  price_status_code response <> 200%Z \/
  price_json response = Json (Raise KeyError) \/
  (exists days : list (string * option xfloat),
      price_json response = Json (Ok days) /\ existsb has_close days = false) ->
  fetch_price_data (Ok response) = Ok None.
Proof.
  intros Hskip. unfold fetch_price_data. rewrite bind_Ok.
  destruct (Z.eqb_spec (price_status_code response) 200) as [Hcode | Hcode]; [| reflexivity].
  destruct Hskip as [Hno | [-> | (days & -> & ->)]]; [done | | reflexivity].
  by rewrite decide_True.
Qed.

Lemma fetch_price_data_raises (answer : result price_response) (e : exn) :
  failing_answer answer e -> fetch_price_data answer = Raise e.
Proof.
  intros [-> | (response & -> & Hcode & Hbody)]; [reflexivity |].
  unfold fetch_price_data. rewrite bind_Ok, Hcode. cbn [Z.eqb Pos.eqb].
  destruct Hbody as [-> | [-> Hother]]; [reflexivity |].
  by rewrite decide_False.
Qed.

Lemma existsb_nonempty {A : Type} (f : A -> bool) (l : list A) :
  existsb f l = true -> l <> [].
Proof. by destruct l. Qed.

Lemma last_nonempty {A : Type} (x : A) (l : list A) : is_Some (last (x :: l)).
Proof.
  revert x. induction l as [| y l IH]; intros x; [by eexists |].
  apply (IH y).
Qed.

(** *** One iteration *)

Lemma progress_division (i count : nat) :
  count <> 0%nat ->
  truediv (py (INR (i + 1))) (py (INR count)) = Ok (py (INR (i + 1) / INR count)).
Proof.
  intros Hcount. unfold py. rewrite truediv_fin; [reflexivity |]. by apply not_0_INR.
Qed.

Lemma progress_division_Ok (i count : nat) (p : num) :
  truediv (py (INR (i + 1))) (py (INR count)) = Ok p ->
  count <> 0%nat /\ p = py (INR (i + 1) / INR count).
Proof.
  intros Hp. destruct (Nat.eq_dec count 0%nat) as [-> | Hcount].
  - unfold py in Hp. by rewrite truediv_python_zero in Hp.
  - split; [exact Hcount |]. rewrite progress_division in Hp by assumption. congruence.
Qed.

Section Screening.
Context {N : ScipyNorm} {F : Float64}.
Variable w : world.
Variable rate : num.

(** An iteration that returns has added the row of its ticker, if it has one,
    and reported its progress. *)
Lemma loop_body_Ok (rows rows' : list row) (log log' : list ui_event) (it : nat * string) :
  loop_body w (py (30 / 365)) rate (rows, log) it = Ok (rows', log') ->
  step_returns w rate it /\
  selected_count w <> 0%nat /\
  rows' = rows ++ option_list (contribution w rate it) /\
  log' = log ++ [progress_of (selected_count w) it].
Proof.
  destruct it as [i ticker]. unfold loop_body, step_returns, contribution. cbn [fst snd].
  destruct (fetch_price_data (alpha_vantage w i ticker)) as [[df |] | e]; [| | done];
    rewrite bind_Ok.
  - destruct (30 <=? len df)%nat.
    + destruct (analyze ticker df (py (30 / 365)) rate (user_liquidity w)) as [r | e];
        [| done].
      rewrite !bind_Ok.
      destruct (truediv (py (INR (i + 1))) (py (INR (selected_count w)))) as [p | e] eqn:Hp;
        [| done].
      apply progress_division_Ok in Hp as [Hcount ->].
      rewrite bind_Ok. intros [= <- <-]. done.
    + rewrite bind_Ok.
      destruct (truediv (py (INR (i + 1))) (py (INR (selected_count w)))) as [p | e] eqn:Hp;
        [| done].
      apply progress_division_Ok in Hp as [Hcount ->].
      rewrite bind_Ok. intros [= <- <-]. by rewrite app_nil_r.
  - rewrite bind_Ok.
    destruct (truediv (py (INR (i + 1))) (py (INR (selected_count w)))) as [p | e] eqn:Hp;
      [| done].
    apply progress_division_Ok in Hp as [Hcount ->].
    rewrite bind_Ok. intros [= <- <-]. by rewrite app_nil_r.
Qed.

Lemma loop_body_returns (rows : list row) (log : list ui_event) (it : nat * string) :
  selected_count w <> 0%nat -> step_returns w rate it ->
  loop_body w (py (30 / 365)) rate (rows, log) it
  = Ok (rows ++ option_list (contribution w rate it),
        log ++ [progress_of (selected_count w) it]).
Proof.
  intros Hcount. destruct it as [i ticker].
  unfold loop_body, step_returns, contribution, progress_of. cbn [fst snd].
  destruct (fetch_price_data (alpha_vantage w i ticker)) as [[df |] | e]; [| | done];
    rewrite bind_Ok.
  - destruct (30 <=? len df)%nat.
    + intros Hrow. apply succeeds_Ok in Hrow as [r ->].
      by rewrite !bind_Ok, progress_division.
    + intros _. by rewrite bind_Ok, progress_division, app_nil_r.
  - intros _. by rewrite bind_Ok, progress_division, app_nil_r.
Qed.

Lemma loop_body_raises (rows : list row) (log : list ui_event) (i : nat) (ticker : string)
    (e : exn) :
  fetch_price_data (alpha_vantage w i ticker) = Raise e ->
  loop_body w (py (30 / 365)) rate (rows, log) (i, ticker) = Raise e.
Proof. intros Hfetch. unfold loop_body. by rewrite Hfetch. Qed.

(** *** The loop *)

Lemma for_each_Ok (items : list (nat * string)) (rows rows' : list row)
    (log log' : list ui_event) :
  for_each (loop_body w (py (30 / 365)) rate) items (rows, log) = Ok (rows', log') ->
  Forall (step_returns w rate) items /\
  rows' = rows ++ omap (contribution w rate) items /\
  log' = log ++ map (progress_of (selected_count w)) items.
Proof.
  revert rows log. induction items as [| it items IH]; intros rows log.
  - cbn [for_each]. intros [= <- <-]. by rewrite !app_nil_r.
  - cbn [for_each].
    destruct (loop_body w (py (30 / 365)) rate (rows, log) it) as [[rows1 log1] | e] eqn:Hstep;
      [| done].
    rewrite bind_Ok. intros Hrest.
    apply loop_body_Ok in Hstep as (Hit & _ & -> & ->).
    apply IH in Hrest as (Hitems & -> & ->).
    split; [by constructor |].
    cbn [omap list_omap map]. rewrite <- !app_assoc.
    by destruct (contribution w rate it).
Qed.

Lemma for_each_returns (items : list (nat * string)) (rows : list row) (log : list ui_event) :
  selected_count w <> 0%nat -> Forall (step_returns w rate) items ->
  for_each (loop_body w (py (30 / 365)) rate) items (rows, log)
  = Ok (rows ++ omap (contribution w rate) items,
        log ++ map (progress_of (selected_count w)) items).
Proof.
  intros Hcount Hitems. revert rows log.
  induction Hitems as [| it items Hit _ IH]; intros rows log.
  - cbn [for_each omap map list_omap]. by rewrite !app_nil_r.
  - cbn [for_each]. rewrite loop_body_returns by assumption.
    rewrite bind_Ok, IH. cbn [map omap list_omap].
    rewrite <- !app_assoc.
    by destruct (contribution w rate it).
Qed.

(** The loop stops at the first iteration that raises. *)
Lemma for_each_raises (before after : list (nat * string)) (i : nat) (ticker : string)
    (rows : list row) (log : list ui_event) (e : exn) :
  selected_count w <> 0%nat ->
  Forall (step_returns w rate) before ->
  fetch_price_data (alpha_vantage w i ticker) = Raise e ->
  for_each (loop_body w (py (30 / 365)) rate) (before ++ (i, ticker) :: after) (rows, log)
  = Raise e.
Proof.
  intros Hcount Hbefore Hfetch. revert rows log.
  induction Hbefore as [| it items Hit _ IH]; intros rows log.
  - cbn [app for_each]. by rewrite (loop_body_raises rows log i ticker e Hfetch).
  - cbn [app for_each]. rewrite loop_body_returns by assumption.
    rewrite bind_Ok. apply IH.
Qed.

Lemma screened_empty : selected_count w = 0%nat -> screened w = [].
Proof. intros Hzero. unfold screened. by rewrite Hzero. Qed.

Lemma screen_Ok (rows : list row) (log : list ui_event) :
  screen w rate = Ok (rows, log) ->
  Forall (step_returns w rate) (screened w) /\
  rows = omap (contribution w rate) (screened w) /\
  log = map (progress_of (selected_count w)) (screened w).
Proof. intros Hscreen. by apply for_each_Ok in Hscreen. Qed.

Lemma screen_returns :
  Forall (step_returns w rate) (screened w) ->
  screen w rate
  = Ok (omap (contribution w rate) (screened w),
        map (progress_of (selected_count w)) (screened w)).
Proof.
  intros Hitems. unfold screen.
  destruct (Nat.eq_dec (selected_count w) 0%nat) as [Hzero | Hcount].
  - by rewrite (screened_empty Hzero).
  - by rewrite for_each_returns.
Qed.

Lemma length_screened :
  length (screened w) = Nat.min (selected_count w) (length (tickers w)).
Proof. unfold screened, enumerate. by rewrite length_imap, length_firstn. Qed.
End Screening.

(** ** The whole run *)

Lemma imap_snd {A : Type} (g : nat -> A -> nat * A) (l : list A) :
  (forall i x, (g i x).2 = x) -> (imap g l).*2 = l.
Proof.
  revert g. induction l as [| x l IH]; intros g Hg; [reflexivity |].
  rewrite imap_cons. cbn [fmap list_fmap]. rewrite Hg. f_equal.
  apply IH. intros i y. apply Hg.
Qed.

Lemma screened_tickers (w : world) :
  (screened w).*2 = firstn (selected_count w) (tickers w).
Proof. unfold screened, enumerate. by apply imap_snd. Qed.

(** *** The rate fetch *)

Lemma rate_fallback (response : rate_response) :
  rate_status_code response <> 200%Z ->
  fetch_risk_free_rate (Ok response)
  = (Ok (py (5 / 100)), [Warning "Failed to fetch risk-free rate from FRED API."]).
Proof.
  intros Hcode. unfold fetch_risk_free_rate.
  by destruct (Z.eqb_spec (rate_status_code response) 200).
Qed.

Lemma rate_on_200 (response : rate_response) (v : xfloat) :
  rate_status_code response = 200%Z -> latest_value response = Ok v ->
  fetch_risk_free_rate (Ok response) = (Ok (Num PyFloat (xdiv v (Fin 100))), []).
Proof.
  intros Hcode Hvalue. unfold fetch_risk_free_rate.
  rewrite Hcode, Hvalue. cbn [Z.eqb Pos.eqb]. rewrite bind_Ok.
  unfold truediv, py. cbn [kind val join is_zero].
  rewrite Reqb_false by lra. reflexivity.
Qed.

Lemma rate_body_error (response : rate_response) (e : exn) :
  rate_status_code response = 200%Z -> latest_value response = Raise e ->
  fetch_risk_free_rate (Ok response) = (Raise e, []).
Proof.
  intros Hcode Hvalue. unfold fetch_risk_free_rate.
  by rewrite Hcode, Hvalue.
Qed.

Lemma rate_warnings (answer : result rate_response) (rate : result num)
    (warnings : list ui_event) :
  fetch_risk_free_rate answer = (rate, warnings) ->
  warnings = [] \/ warnings = [Warning "Failed to fetch risk-free rate from FRED API."].
Proof.
  unfold fetch_risk_free_rate. destruct answer as [response | e].
  - destruct (rate_status_code response =? 200)%Z; intros [= _ <-]; auto.
  - intros [= _ <-]. auto.
Qed.

(** *** After the loop *)

Lemma report_run {P : PandasSort} (w : world) (rows : list row) (log : list ui_event) :
  report w rows log
  = Ok (Run rows
            match rows with
            | [] => None
            | _ :: _ => Some (ranked_head rows)
            end
            (log ++ [Success "Calculation Complete"]
                 ++ match rows with
                    | [] => []
                    | _ :: _ => display w (ranked_head rows)
                    end)).
Proof.
  unfold report. destruct rows as [| r rows].
  - by rewrite app_nil_r.
  - cbn [leaderboard]. rewrite bind_Ok. by rewrite <- app_assoc.
Qed.

(** *** [main] *)

Section Main.
Context {N : ScipyNorm} {F : Float64} {P : PandasSort}.
Variable w : world.

Lemma main_rate_error (e : exn) (warnings : list ui_event) :
  fetch_risk_free_rate (fred w) = (Raise e, warnings) -> main w = Raise e.
Proof. intros Hrate. unfold main. by rewrite Hrate. Qed.

(** Once the rate is fetched, [main] is the loop followed by the report. *)
Lemma main_screen (rate : num) (warnings : list ui_event) :
  fetch_risk_free_rate (fred w) = (Ok rate, warnings) ->
  main w = '(rows, log) ← screen w rate;
           report w rows (opening ++ warnings ++ [ProgressBar] ++ log).
Proof. intros Hrate. unfold main. by rewrite Hrate. Qed.

Lemma main_returns (rate : num) (warnings : list ui_event) :
  fetch_risk_free_rate (fred w) = (Ok rate, warnings) ->
  Forall (step_returns w rate) (screened w) ->
  main w = report w (omap (contribution w rate) (screened w))
                  (opening ++ warnings ++ [ProgressBar]
                           ++ map (progress_of (selected_count w)) (screened w)).
Proof.
  intros Hrate Hsteps. rewrite (main_screen rate warnings Hrate).
  by rewrite screen_returns.
Qed.

Lemma main_Ok (out : run) :
  main w = Ok out ->
  exists (rate : num) (warnings : list ui_event),
    fetch_risk_free_rate (fred w) = (Ok rate, warnings) /\
    Forall (step_returns w rate) (screened w) /\
    results out = omap (contribution w rate) (screened w) /\
    top_25 out = match results out with
                 | [] => None
                 | _ :: _ => Some (ranked_head (results out))
                 end /\
    ui out = opening ++ warnings ++ [ProgressBar]
               ++ map (progress_of (selected_count w)) (screened w)
               ++ [Success "Calculation Complete"]
               ++ match top_25 out with
                  | Some top => display w top
                  | None => []
                  end.
Proof.
  intros Hmain.
  destruct (fetch_risk_free_rate (fred w)) as [[rate | e] warnings] eqn:Hrate.
  2:{ by rewrite (main_rate_error e warnings Hrate) in Hmain. }
  rewrite (main_screen rate warnings Hrate) in Hmain.
  destruct (screen w rate) as [[rows log] | e] eqn:Hscreen; [| done].
  rewrite bind_Ok in Hmain. cbv beta iota in Hmain.
  apply screen_Ok in Hscreen as (Hsteps & -> & ->).
  rewrite report_run in Hmain. injection Hmain as <-.
  exists rate, warnings. cbn [results top_25 ui].
  split; [reflexivity |]. split; [exact Hsteps |]. split; [reflexivity |].
  split; [reflexivity |].
  rewrite <- !app_assoc. do 4 f_equal.
  by destruct (omap (contribution w rate) (screened w)).
Qed.

(** A failing price request of a visited ticker keeps [main] from
    returning. *)
Lemma main_price_error (i : nat) (ticker : string) (e : exn) (out : run) :
  (i, ticker) ∈ screened w ->
  fetch_price_data (alpha_vantage w i ticker) = Raise e ->
  main w <> Ok out.
Proof.
  intros Hin Hfetch Hmain.
  apply main_Ok in Hmain as (rate & warnings & _ & Hsteps & _).
  rewrite Forall_forall in Hsteps. specialize (Hsteps _ Hin).
  unfold step_returns in Hsteps. cbn [fst snd] in Hsteps. by rewrite Hfetch in Hsteps.
Qed.
End Main.

(** *** Rows *)

Lemma analyze_inv {N : ScipyNorm} {F : Float64} (ticker : string) (df : DataFrame)
    (rate : num) (c : R) (r : row) :
  analyze ticker df (py (30 / 365)) rate c = Ok r -> rounded_quote rate r.
Proof.
  unfold analyze. intros Hrow.
  destruct (quote df (py (30 / 365)) rate)
    as [[[spot sigma] [[price delta] vega]] | e] eqn:Hquote; [| done].
  rewrite bind_Ok in Hrow. cbv beta iota in Hrow.
  destruct (affordable_contracts (py c) price) as [n | e]; [| done].
  rewrite bind_Ok in Hrow. injection Hrow as <-.
  exists df, spot, sigma, price, delta, vega. by rewrite Hquote.
Qed.

Lemma analyze_row {N : ScipyNorm} {F : Float64} (ticker : string) (df : DataFrame)
    (T rate : num) (c : R) (r : row) :
  analyze ticker df T rate c = Ok r ->
  Ticker r = ticker /\
  exists price : num, affordable_contracts (py c) price = Ok (Contracts r).
Proof.
  unfold analyze. intros Hrow.
  destruct (quote df T rate) as [[[spot sigma] [[price delta] vega]] | e]; [| done].
  rewrite bind_Ok in Hrow. cbv beta iota in Hrow.
  destruct (affordable_contracts (py c) price) as [n | e] eqn:Hn; [| done].
  rewrite bind_Ok in Hrow. injection Hrow as <-.
  split; [reflexivity |]. by exists price.
Qed.

Lemma contribution_Some {N : ScipyNorm} {F : Float64} (w : world) (rate : num)
    (it : nat * string) (r : row) :
  contribution w rate it = Some r ->
  exists df : DataFrame,
    fetch_price_data (alpha_vantage w it.1 it.2) = Ok (Some df) /\
    (30 <= len df)%nat /\
    analyze it.2 df (py (30 / 365)) rate (user_liquidity w) = Ok r.
Proof.
  unfold contribution. intros Hrow.
  destruct (fetch_price_data (alpha_vantage w it.1 it.2)) as [[df |] | e]; [| done | done].
  destruct (Nat.leb_spec 30 (len df)) as [Hlen | Hlen]; [| done].
  destruct (analyze it.2 df (py (30 / 365)) rate (user_liquidity w)) as [r' | e] eqn:Hr;
    [| done].
  injection Hrow as <-. by exists df.
Qed.

Lemma contribution_rounded {N : ScipyNorm} {F : Float64} (w : world) (rate : num)
    (it : nat * string) (r : row) :
  contribution w rate it = Some r -> rounded_quote rate r.
Proof.
  intros Hrow. apply contribution_Some in Hrow as (df & _ & _ & Hr).
  by apply analyze_inv in Hr.
Qed.

Lemma contribution_row {N : ScipyNorm} {F : Float64} (w : world) (rate : num)
    (it : nat * string) (r : row) :
  contribution w rate it = Some r ->
  Ticker r = it.2 /\
  exists price : num, affordable_contracts (py (user_liquidity w)) price = Ok (Contracts r).
Proof.
  intros Hrow. apply contribution_Some in Hrow as (df & _ & _ & Hr).
  by apply analyze_row in Hr.
Qed.

(** A ticker whose iteration returns adds a row exactly when it has a frame
    of at least 30 rows. *)
Lemma contribution_priced {N : ScipyNorm} {F : Float64} (w : world) (rate : num)
    (it : nat * string) :
  step_returns w rate it ->
  (Ticker <$> option_list (contribution w rate it))
  = if priced w it then [it.2] else [].
Proof.
  unfold step_returns, contribution, priced.
  destruct (fetch_price_data (alpha_vantage w it.1 it.2)) as [[df |] | e]; [| done | done].
  destruct (30 <=? len df)%nat; [| done].
  intros Hrow. destruct (succeeds_Ok _ Hrow) as [r Hr]. rewrite Hr.
  apply analyze_row in Hr as [Hticker _].
  simpl. by rewrite Hticker.
Qed.

Lemma contributions_priced {N : ScipyNorm} {F : Float64} (w : world) (rate : num)
    (items : list (nat * string)) :
  Forall (step_returns w rate) items ->
  (Ticker <$> omap (contribution w rate) items) = (filter (fun it => priced w it = true) items).*2.
Proof.
  induction 1 as [| it items Hit _ IH]; [reflexivity |].
  cbn [omap list_omap]. rewrite filter_cons.
  pose proof (contribution_priced w rate it Hit) as Hrow.
  destruct (contribution w rate it) as [r |]; simpl in Hrow.
  - destruct (priced w it); [| done].
    rewrite decide_True by reflexivity. rewrite !fmap_cons, IH.
    by injection Hrow as ->.
  - destruct (priced w it); [done |].
    by rewrite decide_False by done.
Qed.

(** ** Exact arithmetic *)

Lemma affordable_positive_exact (c p : R) (k : ftype) :
  0 < p ->
  @affordable_contracts exact_reals (py c) (Num k (Fin p)) = Ok (Zfloor (c / (100 * p))).
Proof.
  intros Hp. rewrite affordable_cost; [| assumption | reflexivity | cbn [fl exact_reals]; lra].
  cbn [fl floor_divide exact_reals].
  replace (p * 100) with (100 * p) by ring.
  apply int_of_integer.
Qed.

Lemma affordable_total_exact (c : R) (p : num) :
  0 <= c -> exists n : Z, @affordable_contracts exact_reals (py c) p = Ok n.
Proof.
  intros Hc. destruct p as [k [x | | |]].
  - destruct (Rlt_dec 0 x) as [Hx | Hx].
    + eexists. by apply affordable_positive_exact.
    + eexists. apply affordable_nonpositive. lra.
  - unfold affordable_contracts, gt, floordiv, fmul, binop, xfmul.
    cbn [val kind xgt xmul is_zero py].
    rewrite inf_of_sign_pos by lra. cbn [xfloordiv]. rewrite Rleb_true by assumption.
    exists 0%Z. destruct k; cbn [join is_zero]; rewrite bind_Ok; apply (int_of_integer _ 0).
  - by exists 0%Z.
  - by exists 0%Z.
Qed.

Lemma round_half_even_below (x : R) (z : Z) :
  IZR z <= x < IZR z + 1 / 2 -> round_half_even x = z.
Proof.
  intros Hx. unfold round_half_even.
  rewrite (Zfloor_eq z x) by lra.
  by rewrite Rltb_true by lra.
Qed.

Lemma round_below (x : R) (d : nat) (z : Z) :
  IZR z <= x * 10 ^ d < IZR z + 1 / 2 ->
  @round exact_reals (np x) d = np (IZR z / 10 ^ d).
Proof.
  intros Hx. unfold round, rounded. cbn [val kind np overflows fl exact_reals].
  by rewrite (round_half_even_below _ z Hx).
Qed.

Lemma round_exact (x : R) (d : nat) (z : Z) :
  x * 10 ^ d = IZR z -> @round exact_reals (np x) d = np x.
Proof.
  intros Hx. rewrite (round_below x d z) by lra.
  unfold np. do 2 f_equal. rewrite <- Hx. field.
  apply pow_nonzero. lra.
Qed.

(** In exact arithmetic the row of a frame with at least one day is always
    built. *)
Lemma analyze_total_exact {N : ScipyNorm} (ticker : string) (idx : list string)
    (closes : list xfloat) (rate : num) (c : R) :
  closes <> [] -> 0 <= c ->
  exists r : row,
    @analyze N exact_reals ticker (Frame idx {[ "adj_close"%string := closes ]})
             (py (30 / 365)) rate c = Ok r.
Proof.
  intros Hrows Hc.
  destruct closes as [| close0 closes]; [done |].
  destruct (last_nonempty close0 closes) as [v Hv].
  destruct (succeeds_Ok _ (pricer_numpy_total v
              (xmul (series_std (map np_log (series_div (close0 :: closes)
                                                        (shift1 (close0 :: closes)))))
                    (np_sqrt (Fin 252)))
              (30 / 365) rate ltac:(lra))) as [[[price delta] vega] Hprice].
  destruct (affordable_total_exact c price Hc) as [n Hn].
  eexists.
  unfold analyze, quote, column. cbn [columns].
  rewrite lookup_singleton_eq. rewrite bind_Ok.
  unfold iloc_last. rewrite Hv, bind_Ok.
  rewrite (volatility_unfold _ (close0 :: closes)) by apply lookup_singleton_eq.
  cbn zeta. rewrite bind_Ok.
  rewrite Hprice, !bind_Ok, Hn, bind_Ok. reflexivity.
Qed.

(** So with a capital that is not negative an iteration returns as soon as
    its price fetch does. *)
Lemma step_returns_exact {N : ScipyNorm} (w : world) (rate : num) (it : nat * string) :
  0 <= user_liquidity w ->
  @step_returns N exact_reals w rate it
  <-> exists df : option DataFrame, fetch_price_data (alpha_vantage w it.1 it.2) = Ok df.
Proof.
  intros Hc. unfold step_returns.
  destruct (fetch_price_data (alpha_vantage w it.1 it.2)) as [[df |] | e] eqn:Hfetch.
  - split; [eauto |]. intros _.
    destruct (30 <=? len df)%nat; [| done].
    apply fetch_price_data_Some in Hfetch as (response & days & _ & _ & _ & Hclose & ->).
    destruct (analyze_total_exact it.2 (days.*1) (close_of <$> days) rate (user_liquidity w))
      as [r ->]; [| assumption | done].
    apply existsb_nonempty in Hclose. by destruct days.
  - split; eauto.
  - split; [done |]. by intros [df Hdf].
Qed.

(** ** The flat sample world *)

Lemma flat_price_bounds : 4502 / 10000 < flat_price < 4521 / 10000.
Proof.
  unfold flat_price.
  replace (- (5 / 100) * (30 / 365)) with (- (3 / 730)) by field.
  pose proof (exp_ineq1 (- (3 / 730)) ltac:(lra)) as Hlow.
  pose proof (exp_ineq1 (3 / 730) ltac:(lra)) as Hup.
  pose proof (exp_pos (3 / 730)) as Hpos.
  rewrite exp_Ropp.
  assert (Hinv : / exp (3 / 730) < / (1 + 3 / 730)).
  { apply Rinv_lt_contravar; [| exact Hup]. nra. }
  rewrite exp_Ropp in Hlow.
  replace (/ (1 + 3 / 730)) with (730 / 733) in Hinv by field.
  lra.
Qed.

Lemma flat_fetch : fetch_price_data flat_answer = Ok (Some flat_frame).
Proof. reflexivity. Qed.

Lemma flat_frame_column :
  columns flat_frame !! "adj_close" = Some (map Fin (replicate 30 110)).
Proof. apply lookup_singleton_eq. Qed.

Lemma flat_quote `{ScipyNorm} :
  quote flat_frame (py (30 / 365)) (py (5 / 100))
  = Ok (np 110, np 0, (np flat_price, np 1, np 0)).
Proof.
  unfold quote, column. rewrite flat_frame_column, bind_Ok.
  change (iloc_last (map Fin (replicate 30 110))) with (Ok (np 110)).
  rewrite bind_Ok.
  destruct (volatility_formula flat_frame (replicate 30 110) flat_frame_column)
    as [df' Hvol].
  { rewrite length_replicate. lia. }
  { apply Forall_replicate. lra. }
  rewrite Hvol, volatility_constant by lra.
  rewrite bind_Ok.
  rewrite (pricer_numpy_positive 110 110 (30 / 365) (5 / 100) 0); [reflexivity | lra | lra | lra | ring |].
  unfold d1_numerator. replace (110 / 110) with 1 by field. rewrite ln_1. lra.
Qed.

Lemma flat_contracts (capital : R) (n : Z) :
  IZR n * (100 * flat_price) <= capital < (IZR n + 1) * (100 * flat_price) ->
  Zfloor (capital / (100 * flat_price)) = n.
Proof.
  pose proof flat_price_bounds as Hbounds. intros Hn.
  apply Zfloor_eq.
  assert (Hq : capital / (100 * flat_price) * (100 * flat_price) = capital) by (field; lra).
  nra.
Qed.

Lemma flat_analyze {N : ScipyNorm} :
  @analyze N exact_reals "MMM" flat_frame (py (30 / 365)) (py (5 / 100)) 1000 = Ok flat_row.
Proof.
  pose proof flat_price_bounds as Hbounds.
  unfold analyze. rewrite flat_quote, bind_Ok. cbv beta iota.
  unfold flat_row.
  pose proof (affordable_positive_exact 1000 flat_price NpFloat64 ltac:(lra)) as Haff.
  fold (np flat_price) in Haff. rewrite Haff, bind_Ok.
  rewrite (flat_contracts 1000 22) by (simpl; lra).
  rewrite (round_exact 110 2 11000) by (simpl; lra).
  rewrite (round_exact 0 4 0) by (simpl; lra).
  rewrite (round_exact 1 4 10000) by (simpl; lra).
  rewrite (round_below flat_price 2 45) by (simpl; lra).
  do 3 f_equal. unfold np. do 2 f_equal. simpl. lra.
Qed.

(** The run of [main] in the flat world, in exact arithmetic and with a
    stable sort for pandas. *)
Lemma flat_world_run {N : ScipyNorm} :
  @main N exact_reals stable_pandas flat_world
  = Ok (Run [flat_row] (Some [flat_row]) flat_world_ui).
Proof.
  assert (Hrow : @contribution N exact_reals flat_world (py (5 / 100)) (0%nat, "MMM"%string)
                 = Some flat_row).
  { unfold contribution. cbn [fst snd alpha_vantage flat_world user_liquidity].
    rewrite flat_fetch. change (30 <=? len flat_frame)%nat with true.
    by rewrite flat_analyze. }
  rewrite (main_returns flat_world (py (5 / 100))
             [Warning "Failed to fetch risk-free rate from FRED API."]).
  - change (screened flat_world) with [(0%nat, "MMM"%string)].
    cbn [omap list_omap]. rewrite Hrow. reflexivity.
  - reflexivity.
  - change (screened flat_world) with [(0%nat, "MMM"%string)].
    repeat constructor. unfold step_returns.
    cbn [fst snd alpha_vantage flat_world user_liquidity].
    rewrite flat_fetch. change (30 <=? len flat_frame)%nat with true.
    by rewrite flat_analyze.
Qed.

(** ** Partial failures *)

Lemma screened_visited (w : world) (it : nat * string) :
  it ∈ screened w -> selected_count w <> 0%nat.
Proof. intros Hin Hzero. rewrite (screened_empty w Hzero) in Hin. by apply elem_of_nil in Hin. Qed.

Lemma loop_body_skips {N : ScipyNorm} {F : Float64} (w : world) (rate : num) (i : nat)
    (ticker : string) (response : price_response) (rows : list row) (log : list ui_event) :
  selected_count w <> 0%nat ->
  alpha_vantage w i ticker = Ok response -> skipped_answer response ->
  loop_body w (py (30 / 365)) rate (rows, log) (i, ticker)
  = Ok (rows, log ++ [progress_of (selected_count w) (i, ticker)]).
Proof.
  intros Hcount Hanswer Hskip.
  assert (Hfetch : fetch_price_data (alpha_vantage w i ticker) = Ok None \/
                   exists df : DataFrame,
                     fetch_price_data (alpha_vantage w i ticker) = Ok (Some df) /\
                     (len df < 30)%nat).
  { rewrite Hanswer.
    destruct Hskip as [Hcode | [Hbody | (days & Hbody & [Hclose | Hlen])]].
    - left. apply fetch_price_data_skipped. by left.
    - left. apply fetch_price_data_skipped. right. by left.
    - left. apply fetch_price_data_skipped. right. right. by exists days.
    - unfold fetch_price_data. rewrite bind_Ok, Hbody.
      destruct (price_status_code response =? 200)%Z; [| by left].
      destruct (existsb has_close days); [| by left].
      right. eexists. split; [reflexivity |].
      unfold len. cbn [index]. by rewrite length_fmap. }
  rewrite loop_body_returns; [| assumption |].
  - unfold contribution. cbn [fst snd].
    destruct Hfetch as [-> | (df & -> & Hlen)]; [by rewrite app_nil_r |].
    destruct (Nat.leb_spec 30 (len df)); [lia |]. by rewrite app_nil_r.
  - unfold step_returns. cbn [fst snd].
    destruct Hfetch as [-> | (df & -> & Hlen)]; [done |].
    by destruct (Nat.leb_spec 30 (len df)); [lia |].
Qed.

(** Claim C6, as the code has it: the loop visits the first [selected_count] tickers,
    or all of them when there are fewer.  A visited ticker whose price
    request is answered with a status other than 200, or with no time
    series, or with a series of fewer than 30 days, adds no row, and the
    loop goes on with the next ticker.  A ticker whose price request fails,
    or is answered with status 200 and a body that is not JSON or does not
    read as a table of numbers, makes the iteration raise that exception,
    and [main] does not return.  When [main] returns, every request was
    answered and the rows are those of the visited tickers with at least 30
    days, in order. *)
Theorem C6_partial_failures_are_skipped {N : ScipyNorm} {F : Float64} {P : PandasSort}
    (w : world) :
  (screened w).*2 = firstn (selected_count w) (tickers w) /\
  length (screened w) = Nat.min (selected_count w) (length (tickers w)) /\
  (forall (rate : num) (i : nat) (ticker : string) (response : price_response)
          (rows : list row) (log : list ui_event),
      (i, ticker) ∈ screened w ->
      alpha_vantage w i ticker = Ok response -> skipped_answer response ->
      loop_body w (py (30 / 365)) rate (rows, log) (i, ticker)
      = Ok (rows, log ++ [progress_of (selected_count w) (i, ticker)])) /\
  (forall (rate : num) (i : nat) (ticker : string) (e : exn)
          (rows : list row) (log : list ui_event),
      failing_answer (alpha_vantage w i ticker) e ->
      loop_body w (py (30 / 365)) rate (rows, log) (i, ticker) = Raise e) /\
  (forall (i : nat) (ticker : string) (e : exn) (out : run),
      (i, ticker) ∈ screened w ->
      failing_answer (alpha_vantage w i ticker) e ->
      main w <> Ok out) /\
  (forall out : run,
      main w = Ok out ->
      (exists rate : num, results out = omap (contribution w rate) (screened w)) /\
      (Ticker <$> results out) = (filter (fun it => priced w it = true) (screened w)).*2 /\
      Forall (fun it : nat * string =>
                exists df : option DataFrame,
                  fetch_price_data (alpha_vantage w it.1 it.2) = Ok df)
             (screened w)).
Proof.
  split; [apply screened_tickers |].
  split; [apply length_screened |].
  split.
  { intros rate i ticker response rows log Hin Hanswer Hskip.
    apply (loop_body_skips w rate i ticker response); [| assumption | assumption].
    by apply (screened_visited w (i, ticker)). }
  split.
  { intros rate i ticker e rows log Hfail.
    apply loop_body_raises. by apply fetch_price_data_raises. }
  split.
  { intros i ticker e out Hin Hfail.
    apply (main_price_error w i ticker e out Hin). by apply fetch_price_data_raises. }
  intros out Hmain.
  apply main_Ok in Hmain as (rate & warnings & _ & Hsteps & Hresults & _).
  split; [by exists rate |].
  split; [rewrite Hresults; by apply contributions_priced |].
  eapply Forall_impl; [exact Hsteps |].
  intros it Hit. unfold step_returns in Hit.
  destruct (fetch_price_data (alpha_vantage w it.1 it.2)) as [df | e]; [by exists df | done].
Qed.

(** The run in the patchy world: the first two tickers are skipped, the
    third gets its row. *)
Lemma patchy_world_run {N : ScipyNorm} :
  exists log : list ui_event,
    @main N exact_reals stable_pandas patchy_world = Ok (Run [flat_row] (Some [flat_row]) log).
Proof.
  assert (Hitems : screened patchy_world
                   = [(0%nat, "AOS"%string); (1%nat, "ABT"%string); (2%nat, "MMM"%string)])
    by reflexivity.
  assert (Hmmm : fetch_price_data (alpha_vantage patchy_world 2 "MMM") = Ok (Some flat_frame))
    by reflexivity.
  rewrite (main_returns patchy_world (py (5 / 100))
             [Warning "Failed to fetch risk-free rate from FRED API."]).
  - rewrite Hitems. cbn [omap list_omap].
    assert (H0 : @contribution N exact_reals patchy_world (py (5 / 100)) (0%nat, "AOS"%string)
                 = None) by reflexivity.
    assert (H1 : @contribution N exact_reals patchy_world (py (5 / 100)) (1%nat, "ABT"%string)
                 = None) by reflexivity.
    assert (H2 : @contribution N exact_reals patchy_world (py (5 / 100)) (2%nat, "MMM"%string)
                 = Some flat_row).
    { unfold contribution. cbn [fst snd]. rewrite Hmmm.
      change (30 <=? len flat_frame)%nat with true.
      change (user_liquidity patchy_world) with 1000. by rewrite flat_analyze. }
    rewrite H0, H1, H2. rewrite report_run. eexists. reflexivity.
  - reflexivity.
  - rewrite Hitems. repeat constructor.
    unfold step_returns. cbn [fst snd]. rewrite Hmmm.
    change (30 <=? len flat_frame)%nat with true.
    change (user_liquidity patchy_world) with 1000. by rewrite flat_analyze.
Qed.

Lemma C6_partial_failures_are_skipped_witness :
  exists out : run,
    @main sigmoid_norm exact_reals stable_pandas patchy_world = Ok out /\
    (Ticker <$> results out) = ["MMM"%string] /\
    (filter (fun it => priced patchy_world it = true) (screened patchy_world)).*2
    = ["MMM"%string].
Proof.
  destruct (@patchy_world_run sigmoid_norm) as [log Hrun].
  destruct (@C6_partial_failures_are_skipped sigmoid_norm exact_reals stable_pandas
              patchy_world) as (_ & _ & _ & _ & _ & Hdone).
  destruct (Hdone _ Hrun) as (_ & Hrows & _).
  eexists. split; [exact Hrun |]. split; [reflexivity |].
  by rewrite <- Hrows.
Defined.

(** Claim C6 as stated does not hold: when the price request for the first
    of two tickers fails with a connection error, [main] raises that error;
    the second ticker, whose series is there, is never priced. *)
Lemma C6_counterexample :
  (screened outage_world).*2 = ["AOS"; "MMM"]%string /\
  priced outage_world (1%nat, "MMM"%string) = true /\
  @main sigmoid_norm exact_reals stable_pandas outage_world = Raise ConnectionError.
Proof.
  split; [reflexivity |]. split; [reflexivity |].
  rewrite (main_screen outage_world (py (5 / 100))
             [Warning "Failed to fetch risk-free rate from FRED API."]) by reflexivity.
  unfold screen. change (screened outage_world)
    with ([] ++ (0%nat, "AOS"%string) :: [(1%nat, "MMM"%string)]).
  rewrite (for_each_raises outage_world (py (5 / 100)) [] [(1%nat, "MMM"%string)]
             0 "AOS" [] [] ConnectionError); [reflexivity | done | constructor | reflexivity].
Qed.

(** ** The rate fallback *)

(** Claim C9, as the code has it: when the rate service answers with a status other than
    200, the rate fetch returns 0.05 and shows one warning, and [main] goes
    on with the loop at that rate: it returns when the loop does, with the
    rows priced at 0.05 and the warning among what is shown.  When the
    request to the rate service fails, or is answered with status 200 and a
    body from which the latest observation cannot be read, the fetch raises
    that exception and so does [main]. *)
Theorem C9_rate_fallback {N : ScipyNorm} {F : Float64} {P : PandasSort} (w : world) :
  (forall response : rate_response,
      fred w = Ok response -> rate_status_code response <> 200%Z ->
      fetch_risk_free_rate (fred w)
      = (Ok (py (5 / 100)), [Warning "Failed to fetch risk-free rate from FRED API."]) /\
      main w = ('(rows, log) ← screen w (py (5 / 100));
                report w rows
                  (opening ++ [Warning "Failed to fetch risk-free rate from FRED API."]
                           ++ [ProgressBar] ++ log)) /\
      (forall out : run,
          main w = Ok out ->
          results out = omap (contribution w (py (5 / 100))) (screened w) /\
          Warning "Failed to fetch risk-free rate from FRED API." ∈ ui out)) /\
  (forall e : exn,
      fred w = Raise e ->
      fetch_risk_free_rate (fred w) = (Raise e, []) /\ main w = Raise e) /\
  (forall (response : rate_response) (e : exn),
      fred w = Ok response -> rate_status_code response = 200%Z ->
      latest_value response = Raise e ->
      fetch_risk_free_rate (fred w) = (Raise e, []) /\ main w = Raise e).
Proof.
  split; [| split].
  - intros response Hanswer Hcode.
    assert (Hrate : fetch_risk_free_rate (fred w)
                    = (Ok (py (5 / 100)),
                       [Warning "Failed to fetch risk-free rate from FRED API."])).
    { rewrite Hanswer. by apply rate_fallback. }
    split; [exact Hrate |]. split; [by apply main_screen |].
    intros out Hmain.
    apply main_Ok in Hmain as (rate & warnings & Hrate' & _ & Hresults & _ & Hui).
    rewrite Hrate in Hrate'. injection Hrate' as <- <-.
    split; [exact Hresults |].
    rewrite Hui. apply elem_of_app. right. apply elem_of_app. left. left.
  - intros e Hanswer.
    assert (Hrate : fetch_risk_free_rate (fred w) = (Raise e, [])) by (by rewrite Hanswer).
    split; [exact Hrate |]. by apply (main_rate_error w e []).
  - intros response e Hanswer Hcode Hvalue.
    assert (Hrate : fetch_risk_free_rate (fred w) = (Raise e, [])).
    { rewrite Hanswer. by apply rate_body_error. }
    split; [exact Hrate |]. by apply (main_rate_error w e []).
Qed.

Lemma C9_rate_fallback_witness :
  fetch_risk_free_rate (fred flat_world)
  = (Ok (py (5 / 100)), [Warning "Failed to fetch risk-free rate from FRED API."]) /\
  Warning "Failed to fetch risk-free rate from FRED API." ∈ flat_world_ui.
Proof.
  destruct (@C9_rate_fallback sigmoid_norm exact_reals stable_pandas flat_world)
    as (Hdown & _).
  destruct (Hdown (RateResponse 503 (Raise JSONDecodeError)) eq_refl ltac:(simpl; lia))
    as (Hrate & _ & Hrun).
  split; [exact Hrate |].
  exact (proj2 (Hrun _ flat_world_run)).
Defined.

(** Claim C9 as stated does not hold: when the rate service answers 200 and
    the latest observation does not read as a float, the fetch raises
    [ValueError] where the claim has it return 0.05, and the run fails; when
    the request itself fails, the fetch raises the error of the request, and
    the run fails with it. *)
Lemma C9_counterexample :
  fetch_risk_free_rate (fred missing_rate_world) = (Raise ValueError, []) /\
  fetch_risk_free_rate (fred missing_rate_world)
  <> (Ok (py (5 / 100)), [Warning "Failed to fetch risk-free rate from FRED API."]) /\
  @main sigmoid_norm exact_reals stable_pandas missing_rate_world = Raise ValueError /\
  fetch_risk_free_rate (fred unreachable_rate_world) = (Raise ConnectionError, []) /\
  @main sigmoid_norm exact_reals stable_pandas unreachable_rate_world
  = Raise ConnectionError.
Proof.
  split; [reflexivity |]. split; [discriminate |].
  split; [reflexivity |]. split; reflexivity.
Qed.

(** ** Rows and ranking in [main] *)

(** Claim C2, as the code has it: every row [main] collects holds the outputs of the
    pricer already rounded: spot and call price to 2 decimals, volatility,
    delta and vega to 4.  The rounding is done when the row is built, before
    the sort; the leaderboard is the first 25 rows of [sort_values] run on
    these rows, so the ranking compares the rounded call prices. *)
Theorem C2_rows_rounded_before_ranking {N : ScipyNorm} {F : Float64} {P : PandasSort}
    (w : world) (out : run) :
  PandasSortLaws P ->
  main w = Ok out ->
  (exists rate : num, Forall (rounded_quote rate) (results out)) /\
  top_25 out = match results out with
               | [] => None
               | _ :: _ => Some (firstn 25 (sort_values (results out)))
               end /\
  (forall top : list row, top_25 out = Some top -> Sorted ranks_before top).
Proof.
  intros Laws Hmain.
  apply main_Ok in Hmain as (rate & warnings & _ & _ & Hresults & Htop & _).
  split; [| split].
  - exists rate. rewrite Hresults. apply Forall_forall. intros r Hr.
    apply list_elem_of_omap in Hr as (it & _ & Hit).
    by apply contribution_rounded in Hit.
  - exact Htop.
  - intros top Hshown. rewrite Htop in Hshown.
    destruct (results out) as [| r rows]; [done |].
    injection Hshown as <-. apply StronglySorted_Sorted.
    by apply ranked_head_spec.
Qed.

Lemma C2_rows_rounded_before_ranking_witness :
  (exists rate : num, Forall (@rounded_quote sigmoid_norm exact_reals rate) [flat_row]) /\
  Some [flat_row] = Some (firstn 25 (stable_sort_desc [flat_row])).
Proof.
  destruct (@C2_rows_rounded_before_ranking sigmoid_norm exact_reals stable_pandas
              flat_world _ stable_pandas_laws flat_world_run) as (Hrows & Htop & _).
  split; [exact Hrows | exact Htop].
Defined.

(** Claim C2 as stated does not hold: for one ticker with a flat price series
    at 110 and the default rate, the pricer returns the call price
    [110 - 110 * exp (- 0.05 * 30 / 365)], about 0.4511; the row that [main]
    hands to the sort holds 0.45. *)
Lemma C2_counterexample :
  @main sigmoid_norm exact_reals stable_pandas flat_world
  = Ok (Run [flat_row] (Some [flat_row]) flat_world_ui)
  /\ @quote sigmoid_norm flat_frame (py (30 / 365)) (py (5 / 100))
     = Ok (np 110, np 0, (np flat_price, np 1, np 0))
  /\ Call_Price flat_row = np (45 / 100)
  /\ Call_Price flat_row <> np flat_price.
Proof.
  split; [apply flat_world_run |]. split; [apply flat_quote |].
  split; [reflexivity |].
  pose proof flat_price_bounds as Hbounds.
  cbn [Call_Price flat_row]. unfold np. intros Heq.
  injection Heq as Heq. lra.
Qed.




(** * Further properties of the code *)

(** ** More on the pricer *)

Lemma phi_pos (x : R) : 0 < phi x.
Proof.
  unfold phi. apply Rdiv_lt_0_compat; [apply exp_pos |].
  apply sqrt_lt_R0. pose proof PI_RGT_0. lra.
Qed.

(** Property X1: away from a zero divisor the pricer returns the closed-form
    Black-Scholes price, delta and vega, as numpy floats, whatever mix of
    Python and numpy floats it is given. *)
Theorem X1_pricer_closed_form `{ScipyNorm} (S K T r sigma : R) (kS kK kT kr ksigma : ftype) :
  0 < S -> 0 < K -> 0 < T -> sigma <> 0 ->
  black_scholes_call (Num kS (Fin S)) (Num kK (Fin K)) (Num kT (Fin T))
                     (Num kr (Fin r)) (Num ksigma (Fin sigma))
  = Ok (np (S * Phi (bs_d1 S K T r sigma) - K * exp (- r * T) * Phi (bs_d2 S K T r sigma)),
        np (Phi (bs_d1 S K T r sigma)),
        np (S * phi (bs_d1 S K T r sigma) * sqrt T)).
Proof.
  intros HS HK HT Hsigma.
  apply pricer_regular; [assumption | assumption | lra |].
  pose proof (sqrt_lt_R0 T HT). nra.
Qed.

Lemma X1_pricer_closed_form_witness :
  @black_scholes_call sigmoid_norm (py 120) (py 100) (py (1 / 4)) (py (3 / 100)) (np (25 / 100))
  = Ok (np (120 * sigmoid (bs_d1 120 100 (1 / 4) (3 / 100) (25 / 100))
            - 100 * exp (- (3 / 100) * (1 / 4))
              * sigmoid (bs_d2 120 100 (1 / 4) (3 / 100) (25 / 100))),
        np (sigmoid (bs_d1 120 100 (1 / 4) (3 / 100) (25 / 100))),
        np (120 * phi (bs_d1 120 100 (1 / 4) (3 / 100) (25 / 100)) * sqrt (1 / 4))).
Proof.
  apply (@X1_pricer_closed_form sigmoid_norm 120 100 (1 / 4) (3 / 100) (25 / 100)); lra.
Defined.

Lemma at_the_money_d1 (S T r sigma : R) :
  0 < S -> 0 < T -> sigma <> 0 ->
  bs_d1 S S T r sigma = (r + 1 / 2 * (sigma * sigma)) * sqrt T / sigma.
Proof.
  intros HS HT Hsigma. unfold bs_d1, d1_numerator.
  replace (S / S) with 1 by (field; lra). rewrite ln_1.
  pose proof (sqrt_lt_R0 T HT) as Hs.
  rewrite <- (sqrt_sqrt T) at 1 by lra. field. lra.
Qed.

(** Property X2: at the money, with a positive volatility and maturity and a rate
    that is not negative, the price the pricer returns lies strictly between
    0 and the spot, its delta strictly between 1/2 and 1, and its vega is
    positive. *)
Theorem X2_at_the_money_bounds `{N : ScipyNorm} (S T r sigma : R) :
  ScipyNormLaws N -> 0 < S -> 0 < T -> 0 < sigma -> 0 <= r ->
  exists price delta vega : R,
    black_scholes_call (np S) (np S) (py T) (py r) (np sigma)
    = Ok (np price, np delta, np vega) /\
    0 < price < S /\
    1 / 2 < delta < 1 /\
    0 < vega.
Proof.
  intros Laws HS HT Hsigma Hr.
  pose proof (sqrt_lt_R0 T HT) as Hs.
  eexists _, _, _. split.
  { apply pricer_regular; [assumption | assumption | lra | nra]. }
  unfold bs_price, bs_d2. rewrite at_the_money_d1 by lra.
  set (d1 := (r + 1 / 2 * (sigma * sigma)) * sqrt T / sigma).
  assert (Hd1 : 0 < d1).
  { unfold d1. apply Rdiv_lt_0_compat; [| assumption].
    apply Rmult_lt_0_compat; [nra | assumption]. }
  assert (Hd2 : d1 - sigma * sqrt T < d1) by nra.
  pose proof (Phi_increasing 0 d1 Hd1) as H0. rewrite Phi_0 in H0.
  pose proof (Phi_increasing _ _ Hd2) as H12.
  pose proof (Phi_bounds d1) as [_ Hlt1].
  pose proof (Phi_bounds (d1 - sigma * sqrt T)) as [Hpos2 _].
  assert (He : 0 < exp (- r * T) <= 1).
  { split; [apply exp_pos |]. rewrite <- exp_0.
    destruct (Req_dec_T r 0) as [-> | Hr0].
    - right. f_equal. ring.
    - left. apply exp_increasing. assert (0 < r) by lra. nra. }
  pose proof (phi_pos d1) as Hphi.
  split; [| split; [lra |]].
  - assert (Hse : 0 < S * exp (- r * T) <= S) by nra.
    assert (Hsub : 0 < S * exp (- r * T) * Phi (d1 - sigma * sqrt T)
                   <= S * Phi (d1 - sigma * sqrt T)).
    { split; [apply Rmult_lt_0_compat; lra |].
      apply Rmult_le_compat_r; lra. }
    assert (Hmain : S * Phi (d1 - sigma * sqrt T) < S * Phi d1 < S) by nra.
    lra.
  - apply Rmult_lt_0_compat; [| assumption]. by apply Rmult_lt_0_compat.
Qed.

Lemma X2_at_the_money_bounds_witness :
  exists price delta vega : R,
    @black_scholes_call sigmoid_norm (np 50) (np 50) (py (30 / 365)) (py (4 / 100)) (np (3 / 10))
    = Ok (np price, np delta, np vega) /\
    0 < price < 50 /\ 1 / 2 < delta < 1 /\ 0 < vega.
Proof.
  apply (@X2_at_the_money_bounds sigmoid_norm 50 (30 / 365) (4 / 100) (3 / 10) sigmoid_laws); lra.
Defined.

(** Property X3: on Python floats a strike of 0 raises [ZeroDivisionError]; a ratio
    [S / K] that is not positive raises [ValueError] in [math.log], and so does
    a negative maturity in [math.sqrt], whatever the kind of the floats. *)
Theorem X3_pricer_domain_errors `{ScipyNorm} (S K T r sigma : R)
    (kS kK kT kr ksigma : ftype) :
  K <> 0 ->
  black_scholes_call (py S) (py 0) (py T) (py r) (py sigma) = Raise ZeroDivisionError /\
  (S / K <= 0 ->
     black_scholes_call (Num kS (Fin S)) (Num kK (Fin K)) (Num kT (Fin T))
                        (Num kr (Fin r)) (Num ksigma (Fin sigma))
     = Raise ValueError) /\
  (0 < S / K -> T < 0 ->
     black_scholes_call (Num kS (Fin S)) (Num kK (Fin K)) (Num kT (Fin T))
                        (Num kr (Fin r)) (Num ksigma (Fin sigma))
     = Raise ValueError).
Proof.
  intros HK. split; [| split].
  - unfold black_scholes_call, py. by rewrite truediv_python_zero.
  - intros Hratio. unfold black_scholes_call.
    rewrite truediv_fin by assumption. rewrite bind_Ok.
    unfold math_log. cbn [val]. by rewrite Rltb_false.
  - intros Hratio HT. unfold black_scholes_call.
    rewrite truediv_fin by assumption. rewrite bind_Ok.
    rewrite math_log_fin by assumption. rewrite bind_Ok.
    unfold math_sqrt. cbn [val]. by rewrite Rleb_false.
Qed.

Lemma X3_pricer_domain_errors_witness :
  @black_scholes_call sigmoid_norm (py (-100)) (py 100) (py (30 / 365)) (py (5 / 100)) (py (1 / 5))
  = Raise ValueError.
Proof.
  destruct (@X3_pricer_domain_errors sigmoid_norm (-100) 100 (30 / 365) (5 / 100) (1 / 5)
              PyFloat PyFloat PyFloat PyFloat PyFloat ltac:(lra)) as (_ & Hlog & _).
  apply Hlog. lra.
Defined.

Lemma bs_d1_scale (S K T r sigma c : R) :
  0 < c -> K <> 0 -> bs_d1 (c * S) (c * K) T r sigma = bs_d1 S K T r sigma.
Proof.
  intros Hc HK. unfold bs_d1, d1_numerator.
  replace (c * S / (c * K)) with (S / K) by (field; lra). reflexivity.
Qed.

(** Property X4: the pricer is homogeneous in spot and strike: multiplying both by
    the same positive factor multiplies the price and the vega by that factor
    and leaves the delta unchanged. *)
Theorem X4_pricer_scales_with_currency `{ScipyNorm} (S K T r sigma c : R) :
  0 < S -> 0 < K -> 0 < T -> sigma <> 0 -> 0 < c ->
  exists price delta vega : R,
    black_scholes_call (np S) (np K) (py T) (py r) (np sigma)
    = Ok (np price, np delta, np vega) /\
    black_scholes_call (np (c * S)) (np (c * K)) (py T) (py r) (np sigma)
    = Ok (np (c * price), np delta, np (c * vega)).
Proof.
  intros HS HK HT Hsigma Hc.
  pose proof (sqrt_lt_R0 T HT) as Hs.
  eexists _, _, _. split.
  { apply pricer_regular; [assumption | assumption | lra | nra]. }
  unfold np at 1 2 3. unfold py.
  rewrite (pricer_regular (c * S) (c * K) T r sigma); [| nra | nra | lra | nra].
  unfold bs_price, bs_d2. rewrite !bs_d1_scale by lra.
  set (d1 := bs_d1 S K T r sigma).
  replace (c * S * Phi d1 - c * K * exp (- r * T) * Phi (d1 - sigma * sqrt T))
    with (c * (S * Phi d1 - K * exp (- r * T) * Phi (d1 - sigma * sqrt T))) by ring.
  replace (c * S * phi d1 * sqrt T) with (c * (S * phi d1 * sqrt T)) by ring.
  reflexivity.
Qed.

Lemma X4_pricer_scales_with_currency_witness :
  exists price delta vega : R,
    @black_scholes_call sigmoid_norm (np 120) (np 100) (py (1 / 4)) (py (3 / 100)) (np (1 / 4))
    = Ok (np price, np delta, np vega) /\
    @black_scholes_call sigmoid_norm (np (100 * 120)) (np (100 * 100)) (py (1 / 4)) (py (3 / 100))
                        (np (1 / 4))
    = Ok (np (100 * price), np delta, np (100 * vega)).
Proof.
  apply (@X4_pricer_scales_with_currency sigmoid_norm 120 100 (1 / 4) (3 / 100) (1 / 4) 100); lra.
Defined.

(** ** More on the volatility estimator *)

Lemma log_returns_scale (c : R) (prices : list R) :
  0 < c -> Forall (fun p => 0 < p) prices ->
  log_returns (map (Rmult c) prices) = log_returns prices.
Proof.
  intros Hc. induction prices as [| p0 rest IH]; intros Hpos; [reflexivity |].
  inversion Hpos as [| ? ? Hp0 Hrest]; subst.
  destruct rest as [| p1 rest']; [reflexivity |].
  inversion Hrest as [| ? ? Hp1 _]; subst.
  change (log_returns (map (Rmult c) (p0 :: p1 :: rest')))
    with (ln (c * p1 / (c * p0)) :: log_returns (map (Rmult c) (p1 :: rest'))).
  change (log_returns (p0 :: p1 :: rest'))
    with (ln (p1 / p0) :: log_returns (p1 :: rest')).
  rewrite IH by assumption.
  replace (c * p1 / (c * p0)) with (p1 / p0) by (field; lra). reflexivity.
Qed.

Lemma log_return_column_any (prices : list R) :
  Forall (fun p => 0 < p) prices ->
  map np_log (series_div (map Fin prices) (shift1 (map Fin prices)))
  = match prices with
    | [] => []
    | _ :: _ => NaN :: map Fin (log_returns prices)
    end.
Proof.
  intros Hpos. destruct prices as [| a l]; [reflexivity |].
  inversion Hpos; subst. by apply log_return_column.
Qed.

(** Property X6: the estimate does not depend on the unit of the prices: multiplying
    every price of a series of positive prices by the same positive factor
    gives the same volatility. *)
Theorem X6_volatility_scale_invariant (df scaled : DataFrame) (prices : list R) (c : R) :
  0 < c -> Forall (fun p => 0 < p) prices ->
  columns df !! "adj_close" = Some (map Fin prices) ->
  columns scaled !! "adj_close" = Some (map Fin (map (Rmult c) prices)) ->
  exists (sigma : num) (df' scaled' : DataFrame),
    calculate_volatility df = Ok (sigma, df') /\
    calculate_volatility scaled = Ok (sigma, scaled').
Proof.
  intros Hc Hpos Hdf Hscaled.
  rewrite (volatility_unfold df _ Hdf), (volatility_unfold scaled _ Hscaled). cbn zeta.
  assert (Hpos' : Forall (fun p => 0 < p) (map (Rmult c) prices)).
  { apply Forall_map. eapply Forall_impl; [exact Hpos |]. intros p Hp. simpl. nra. }
  rewrite !log_return_column_any by assumption.
  rewrite log_returns_scale by assumption.
  destruct prices; eexists _, _, _; split; reflexivity.
Qed.

Lemma X6_volatility_scale_invariant_witness :
  exists (sigma : num) (df' scaled' : DataFrame),
    calculate_volatility
      (Frame ["2024-01-02"; "2024-01-03"; "2024-01-04"]%string
             {[ "adj_close"%string := [Fin 10; Fin 11; Fin 12] ]}) = Ok (sigma, df') /\
    calculate_volatility
      (Frame ["2024-01-02"; "2024-01-03"; "2024-01-04"]%string
             {[ "adj_close"%string := [Fin (100 * 10); Fin (100 * 11); Fin (100 * 12)] ]})
    = Ok (sigma, scaled').
Proof.
  apply (X6_volatility_scale_invariant _ _ [10; 11; 12] 100).
  - lra.
  - repeat constructor; lra.
  - apply lookup_singleton_eq.
  - apply lookup_singleton_eq.
Defined.

Lemma Rsum_nonneg (l : list R) : Forall (fun x => 0 <= x) l -> 0 <= Rsum l.
Proof.
  induction 1 as [| x l Hx _ IH]; unfold Rsum in *; simpl; lra.
Qed.

Lemma Rsum_zero_terms (l : list R) :
  Forall (fun x => 0 <= x) l -> Rsum l = 0 -> Forall (fun x => x = 0) l.
Proof.
  induction 1 as [| x l Hx Hl IH]; intros Hsum; [constructor |].
  pose proof (Rsum_nonneg l Hl) as Hrest.
  unfold Rsum in *. simpl in Hsum.
  constructor; [lra |]. apply IH. lra.
Qed.

Lemma Rsum_all_zero (l : list R) : Forall (fun x => x = 0) l -> Rsum l = 0.
Proof.
  induction 1 as [| x l Hx _ IH]; unfold Rsum in *; simpl; lra.
Qed.

Lemma Rsum_all_equal (a : R) (l : list R) :
  Forall (fun x => x = a) l -> Rsum l = INR (length l) * a.
Proof.
  induction 1 as [| x l Hx _ IH]; [unfold Rsum; simpl; lra |].
  change (Rsum (x :: l)) with (x + Rsum l).
  rewrite IH, Hx. cbn [length].
  rewrite S_INR. ring.
Qed.

Lemma sample_std_nonneg (xs : list R) : 0 <= sample_std xs.
Proof. apply sqrt_pos. Qed.

(** The sample standard deviation of at least two values is zero exactly when
    the values are all equal. *)
Lemma sample_std_zero_iff (xs : list R) :
  (2 <= length xs)%nat ->
  sample_std xs = 0 <-> (forall x y : R, x ∈ xs -> y ∈ xs -> x = y).
Proof.
  intros Hlen.
  assert (Hn : 0 < INR (length xs) - 1).
  { apply le_INR in Hlen. simpl in Hlen. lra. }
  assert (Hn0 : INR (length xs) <> 0) by lra.
  set (m := mean xs).
  set (sq := map (fun x => (x - m) * (x - m)) xs).
  assert (Hsq : Forall (fun v => 0 <= v) sq).
  { apply Forall_map, Forall_forall. intros x _. cbv beta. apply Rle_0_sqr. }
  assert (Hcore : Rsum sq = 0 <-> Forall (fun x => x = m) xs).
  { split.
    - intros Hzero. apply Rsum_zero_terms in Hzero; [| exact Hsq].
      apply Forall_map in Hzero. eapply Forall_impl; [exact Hzero |].
      intros x Hx. simpl in Hx. nra.
    - intros Heq. apply Rsum_all_zero, Forall_map.
      eapply Forall_impl; [exact Heq |]. intros x ->. simpl. ring. }
  unfold sample_std. fold m. fold sq.
  split.
  - intros Hstd. apply sqrt_eq_0 in Hstd.
    2:{ apply Rmult_le_pos; [by apply Rsum_nonneg |]. left. by apply Rinv_0_lt_compat. }
    assert (Hzero : Rsum sq = 0).
    { apply Rmult_integral in Hstd as [Hs | Hinv]; [exact Hs |].
      pose proof (Rinv_0_lt_compat _ Hn). lra. }
    apply Hcore in Hzero. rewrite Forall_forall in Hzero.
    intros x y Hx Hy. by rewrite (Hzero x Hx), (Hzero y Hy).
  - intros Hall.
    assert (Heq : Forall (fun x => x = m) xs).
    { destruct xs as [| a l]; [simpl in Hlen; lia |].
      assert (Ha : Forall (fun x => x = a) (a :: l)).
      { apply Forall_forall. intros x Hx. apply Hall; [exact Hx | left]. }
      assert (Hm : m = a).
      { unfold m, mean. rewrite (Rsum_all_equal a) by exact Ha. by field. }
      by rewrite Hm. }
    apply Hcore in Heq. rewrite Heq. unfold Rdiv. rewrite Rmult_0_l. apply sqrt_0.
Qed.

(** Property X7: for a series of at least three positive prices the estimate is never
    negative, and it is 0 exactly when all daily log returns are equal: a
    constant price, but also a price growing by the same factor every day. *)
Theorem X7_volatility_zero_iff_equal_returns (df : DataFrame) (prices : list R) :
  columns df !! "adj_close" = Some (map Fin prices) ->
  (3 <= length prices)%nat ->
  Forall (fun p => 0 < p) prices ->
  exists (sigma : R) (df' : DataFrame),
    calculate_volatility df = Ok (np sigma, df') /\
    0 <= sigma /\
    (sigma = 0 <->
     forall x y : R, x ∈ log_returns prices -> y ∈ log_returns prices -> x = y).
Proof.
  intros Hadj Hlen Hpos.
  destruct (volatility_formula df prices Hadj Hlen Hpos) as [df' Hrun].
  exists (annualized_volatility prices), df'. split; [exact Hrun |].
  assert (H252 : 0 < sqrt 252) by (apply sqrt_lt_R0; lra).
  pose proof (sample_std_nonneg (log_returns prices)) as Hstd.
  assert (Hlen' : (2 <= length (log_returns prices))%nat).
  { destruct prices as [| a l]; [simpl in Hlen; lia |].
    rewrite length_log_returns. simpl in Hlen. lia. }
  unfold annualized_volatility. split; [nra |].
  rewrite <- (sample_std_zero_iff _ Hlen'). split; [nra | intros ->; ring].
Qed.

Lemma X7_volatility_zero_iff_equal_returns_witness :
  exists df' : DataFrame,
    calculate_volatility
      (Frame ["2024-01-02"; "2024-01-03"; "2024-01-04"]%string
             {[ "adj_close"%string := [Fin 100; Fin 110; Fin 121] ]})
    = Ok (np 0, df').
Proof.
  assert (Hpos : Forall (fun p => 0 < p) [100; 110; 121]) by (repeat constructor; lra).
  destruct (X7_volatility_zero_iff_equal_returns
              (Frame ["2024-01-02"; "2024-01-03"; "2024-01-04"]%string
                     {[ "adj_close"%string := [Fin 100; Fin 110; Fin 121] ]})
              [100; 110; 121] (lookup_singleton_eq _ _) ltac:(simpl; lia) Hpos)
    as (sigma & df' & Hrun & _ & Hzero).
  exists df'. rewrite Hrun. do 3 f_equal. apply Hzero.
  assert (Hsame : ln (121 / 110) = ln (110 / 100)) by (f_equal; lra).
  intros x y Hx Hy. cbn [log_returns] in Hx, Hy.
  rewrite Hsame in Hx, Hy.
  apply elem_of_cons in Hx as [-> | Hx]; apply elem_of_cons in Hy as [-> | Hy];
    try reflexivity;
    repeat match goal with
           | H : _ ∈ [_] |- _ => apply list_elem_of_singleton in H; subst
           | H : _ ∈ [] |- _ => by apply elem_of_nil in H
           end; reflexivity.
Defined.

(** ** Infinite returns *)

Lemma xsum_nan (l : list xfloat) : NaN ∈ l -> xsum l = NaN.
Proof.
  induction l as [| a l IH]; intros Hin; [by apply elem_of_nil in Hin |].
  apply elem_of_cons in Hin as [<- | Hin].
  - reflexivity.
  - unfold xsum in *. cbn [foldr]. rewrite IH by assumption. by destruct a.
Qed.

Lemma xsum_pinf (l : list xfloat) : xsum l = PInf -> PInf ∈ l.
Proof.
  induction l as [| a l IH]; [discriminate |].
  unfold xsum in *. cbn [foldr]. intros Hsum.
  destruct a as [x | | |]; [| left | |].
  - right. apply IH. by destruct (foldr xadd (Fin 0) l).
  - by destruct (foldr xadd (Fin 0) l).
  - discriminate.
Qed.

Lemma xsum_ninf (l : list xfloat) : xsum l = NInf -> NInf ∈ l.
Proof.
  induction l as [| a l IH]; [discriminate |].
  unfold xsum in *. cbn [foldr]. intros Hsum.
  destruct a as [x | | |]; [| | left |].
  - right. apply IH. by destruct (foldr xadd (Fin 0) l).
  - by destruct (foldr xadd (Fin 0) l).
  - discriminate.
Qed.

Lemma xsum_fin_inv (l : list xfloat) (x : R) :
  xsum l = Fin x -> forall a : xfloat, a ∈ l -> exists y : R, a = Fin y.
Proof.
  revert x. induction l as [| b l IH]; intros x Hsum a Hin; [by apply elem_of_nil in Hin |].
  unfold xsum in *. cbn [foldr] in Hsum.
  destruct b as [y | | |], (foldr xadd (Fin 0) l) as [z | | |] eqn:Hrest; try discriminate.
  apply elem_of_cons in Hin as [-> | Hin]; [eauto |].
  by apply (IH z).
Qed.

(** pandas' standard deviation of a column holding an infinity is NaN. *)
Lemma series_std_infinite (s : list xfloat) :
  (exists a : xfloat, a ∈ s /\ is_infinite a) -> series_std s = NaN.
Proof.
  intros (a & Hin & Hinf). unfold series_std.
  set (values := filter (fun v => is_nan v = false) s).
  assert (Hval : a ∈ values).
  { apply list_elem_of_filter. split; [by destruct Hinf as [-> | ->] | exact Hin]. }
  destruct (length values <=? 1)%nat eqn:Hcount; [reflexivity |].
  apply Nat.leb_gt in Hcount.
  assert (Hn : 0 <= INR (length values)) by apply pos_INR.
  assert (Hsq : NaN ∈ map (fun v => xmul (xsub (xdiv (xsum values) (Fin (INR (length values)))) v)
                                        (xsub (xdiv (xsum values) (Fin (INR (length values)))) v))
                          values).
  { apply list_elem_of_fmap.
    destruct (xsum values) as [t | | |] eqn:Hsum.
    - destruct (xsum_fin_inv _ _ Hsum a Hval) as [y ->].
      by destruct Hinf.
    - exists PInf. split; [| by apply xsum_pinf].
      cbn [xdiv]. by rewrite Rleb_true.
    - exists NInf. split; [| by apply xsum_ninf].
      cbn [xdiv]. by rewrite Rleb_true.
    - exists a. split; [reflexivity | exact Hval]. }
  by rewrite (xsum_nan _ Hsq).
Qed.

Lemma lookup_shift1 (s : list xfloat) (i : nat) (a b : xfloat) :
  s !! i = Some a -> s !! Datatypes.S i = Some b -> shift1 s !! Datatypes.S i = Some a.
Proof.
  revert i. induction s as [| c s IH]; intros i Ha Hb; [done |].
  unfold shift1. cbn [lookup list_lookup].
  destruct s as [| d s]; [done |].
  change (removelast (c :: d :: s)) with (c :: removelast (d :: s)).
  destruct i as [| i]; [by injection Ha as -> |].
  cbn [lookup list_lookup] in *.
  specialize (IH i Ha Hb). unfold shift1 in IH. by cbn [lookup list_lookup] in IH.
Qed.

Lemma lookup_log_return (adj : list xfloat) (i : nat) (a b : xfloat) :
  adj !! i = Some a -> adj !! Datatypes.S i = Some b ->
  map np_log (series_div adj (shift1 adj)) !! Datatypes.S i = Some (np_log (xdiv b a)).
Proof.
  intros Ha Hb. rewrite list_lookup_fmap. unfold series_div.
  rewrite lookup_zip_with, Hb. cbn [mbind option_bind].
  by rewrite (lookup_shift1 adj i a b Ha Hb).
Qed.

(** Property X8: a price of 0 next to a positive price makes the estimate NaN: the
    return across the two is an infinity, which pandas' standard deviation
    turns into NaN. *)
Theorem X8_zero_price_gives_nan (df : DataFrame) (adj : list xfloat) (i : nat) (p : R) :
  columns df !! "adj_close" = Some adj ->
  0 < p ->
  (adj !! i = Some (Fin p) /\ adj !! Datatypes.S i = Some (Fin 0)) \/
  (adj !! i = Some (Fin 0) /\ adj !! Datatypes.S i = Some (Fin p)) ->
  exists df' : DataFrame, calculate_volatility df = Ok (Num NpFloat64 NaN, df').
Proof.
  intros Hadj Hp Hzero. rewrite (volatility_unfold df adj Hadj). cbn zeta.
  eexists. do 3 f_equal.
  rewrite series_std_infinite; [reflexivity |].
  destruct Hzero as [[Ha Hb] | [Ha Hb]].
  - exists NInf. split; [| by right].
    apply list_elem_of_lookup. exists (Datatypes.S i).
    rewrite (lookup_log_return adj i _ _ Ha Hb).
    cbn [xdiv]. rewrite Reqb_false by lra.
    replace (0 / p) with 0 by (field; lra).
    cbn [np_log]. rewrite Rltb_false by lra. by rewrite Reqb_true.
  - exists PInf. split; [| by left].
    apply list_elem_of_lookup. exists (Datatypes.S i).
    rewrite (lookup_log_return adj i _ _ Ha Hb).
    cbn [xdiv]. rewrite Reqb_true by reflexivity.
    by rewrite inf_of_sign_pos.
Qed.

Lemma X8_zero_price_gives_nan_witness :
  exists df' : DataFrame,
    calculate_volatility
      (Frame ["2024-01-02"; "2024-01-03"; "2024-01-04"; "2024-01-05"]%string
             {[ "adj_close"%string := [Fin 100; Fin 101; Fin 0; Fin 102] ]})
    = Ok (Num NpFloat64 NaN, df').
Proof.
  apply (X8_zero_price_gives_nan _ [Fin 100; Fin 101; Fin 0; Fin 102] 1 101).
  - apply lookup_singleton_eq.
  - lra.
  - left. split; reflexivity.
Defined.

(** ** A NaN volatility in the loop *)

Lemma pricer_nan_volatility `{ScipyNorm} (s : xfloat) (T : R) (rate : num) :
  0 <= T ->
  black_scholes_call (Num NpFloat64 s) (Num NpFloat64 s) (py T) rate (Num NpFloat64 NaN)
  = Ok (Num NpFloat64 NaN, Num NpFloat64 NaN, Num NpFloat64 NaN).
Proof.
  intros HT.
  assert (Hlog : exists lg : num,
             math_log (binop xdiv (Num NpFloat64 s) (Num NpFloat64 s)) = Ok lg).
  { unfold math_log, binop. cbn [val kind].
    destruct s as [x | | |]; cbn [xdiv]; eauto.
    destruct (Req_dec_T x 0) as [-> | Hx].
    - rewrite Reqb_true by reflexivity. rewrite inf_of_sign_0. eauto.
    - rewrite Reqb_false by assumption.
      rewrite Rltb_true; [eauto |].
      replace (x / x) with 1 by (by field). lra. }
  destruct Hlog as [lg Hlg].
  unfold black_scholes_call.
  rewrite truediv_numpy_divisor by reflexivity. rewrite bind_Ok.
  rewrite Hlg, bind_Ok.
  rewrite !math_sqrt_py by assumption. rewrite bind_Ok.
  rewrite truediv_numpy_divisor by reflexivity.
  rewrite !bind_Ok.
  destruct lg as [klg vlg], rate as [kr vr].
  unfold sub, mul, add, sqr, neg, binop, norm_cdf, norm_pdf, py.
  cbn [kind val join xmul xadd xsub xopp xdiv].
  assert (Hnum : xadd vlg (xmul (xadd vr NaN) (Fin T)) = NaN).
  { assert (Hr : xadd vr NaN = NaN) by (by destruct vr).
    rewrite Hr. cbn [xmul]. by destruct vlg. }
  rewrite Hnum. cbn [xdiv xadd xmul].
  assert (Hs : xmul s NaN = NaN) by (by destruct s).
  rewrite !Hs. cbn [xadd xmul xopp].
  assert (Hk : forall k : ftype, join k NpFloat64 = NpFloat64) by (by intros []).
  rewrite ?Hk. reflexivity.
Qed.

(** Property X5: when the estimate for a frame is NaN, the loop still builds a row:
    its volatility, call price, delta and vega are NaN and it affords 0
    contracts. *)
Theorem X5_nan_volatility_row {N : ScipyNorm} {F : Float64} (ticker : string)
    (df df' : DataFrame)
    (adj : list xfloat) (v : xfloat) (rate : num) (capital : R) :
  columns df !! "adj_close" = Some adj ->
  last adj = Some v ->
  calculate_volatility df = Ok (Num NpFloat64 NaN, df') ->
  analyze ticker df (py (30 / 365)) rate capital
  = Ok (Row ticker (round (Num NpFloat64 v) 2) (Num NpFloat64 NaN) (Num NpFloat64 NaN)
            (Num NpFloat64 NaN) (Num NpFloat64 NaN) 0).
Proof.
  intros Hadj Hlast Hvol. unfold analyze, quote, column.
  rewrite Hadj, bind_Ok. unfold iloc_last. rewrite Hlast, bind_Ok.
  rewrite Hvol, bind_Ok. cbv beta iota.
  rewrite pricer_nan_volatility by lra.
  rewrite !bind_Ok. reflexivity.
Qed.

Lemma X5_nan_volatility_row_witness :
  exists df' : DataFrame,
    calculate_volatility two_day_frame = Ok (Num NpFloat64 NaN, df') /\
    @analyze sigmoid_norm binary64 "MMM" two_day_frame (py (30 / 365)) (py (5 / 100)) 1000
    = Ok (Row "MMM" (@round binary64 (np 100) 2) (Num NpFloat64 NaN) (Num NpFloat64 NaN)
              (Num NpFloat64 NaN) (Num NpFloat64 NaN) 0).
Proof.
  destruct (volatility_short two_day_frame [Fin 100; Fin 100] (lookup_singleton_eq _ _))
    as [df' Hvol]; [simpl; lia |].
  exists df'. split; [exact Hvol |].
  apply (@X5_nan_volatility_row sigmoid_norm binary64 "MMM" two_day_frame df'
           [Fin 100; Fin 100] (Fin 100)).
  - apply lookup_singleton_eq.
  - reflexivity.
  - exact Hvol.
Defined.


(** ** The rate fetch on an answered request *)

(** Property X9: on a 200 answer whose latest observation reads as the number [v],
    the rate is [v / 100] and no warning is shown; [main] goes on with the
    loop at that rate, and when it returns, every row is priced with it and
    no warning is among what is shown. *)
Theorem X9_rate_is_percent_of_latest {N : ScipyNorm} {F : Float64} {P : PandasSort}
    (w : world) (response : rate_response) (v : R) :
  fred w = Ok response ->
  rate_status_code response = 200%Z ->
  latest_value response = Ok (Fin v) ->
  fetch_risk_free_rate (fred w) = (Ok (py (v / 100)), []) /\
  main w = ('(rows, log) ← screen w (py (v / 100));
            report w rows (opening ++ [ProgressBar] ++ log)) /\
  (forall out : run,
      main w = Ok out ->
      results out = omap (contribution w (py (v / 100))) (screened w) /\
      forall msg : string, Warning msg ∉ ui out).
Proof.
  intros Hanswer Hcode Hvalue.
  assert (Hrate : fetch_risk_free_rate (fred w) = (Ok (py (v / 100)), [])).
  { rewrite Hanswer, (rate_on_200 _ _ Hcode Hvalue). cbn [xdiv].
    by rewrite Reqb_false by lra. }
  split; [exact Hrate |]. split; [exact (main_screen w _ _ Hrate) |].
  intros out Hmain.
  apply main_Ok in Hmain as (rate & warnings & Hrate' & _ & Hresults & _ & Hui).
  rewrite Hrate in Hrate'. injection Hrate' as <- <-.
  split; [exact Hresults |].
  intros msg Hin. rewrite Hui in Hin.
  assert (Hprogress : Warning msg ∉ map (progress_of (selected_count w)) (screened w)).
  { intros Hp. apply list_elem_of_fmap in Hp as (it & Hit & _). discriminate. }
  assert (Hshown : Warning msg ∉ match top_25 out with
                                 | Some top => display w top
                                 | None => []
                                 end).
  { destruct (top_25 out) as [top |]; [| apply not_elem_of_nil].
    unfold display. intros Hd.
    repeat (apply elem_of_cons in Hd as [Hd | Hd]; [discriminate |]).
    by apply elem_of_nil in Hd. }
  unfold opening in Hin. cbn [app] in Hin.
  repeat (apply elem_of_cons in Hin as [Hin | Hin]; [discriminate |]).
  apply elem_of_app in Hin as [Hin | Hin]; [done |].
  apply elem_of_cons in Hin as [Hin | Hin]; [discriminate | done].
Qed.

Lemma X9_rate_is_percent_of_latest_witness :
  fetch_risk_free_rate (Ok (RateResponse 200 (Ok (Fin (531 / 100)))))
  = (Ok (py (531 / 100 / 100)), []).
Proof.
  exact (proj1 (@X9_rate_is_percent_of_latest sigmoid_norm exact_reals stable_pandas
                  (World [] 25 1000 (Ok (RateResponse 200 (Ok (Fin (531 / 100)))))
                         (fun _ _ => Raise ConnectionError))
                  (RateResponse 200 (Ok (Fin (531 / 100))))
                  (531 / 100) eq_refl eq_refl eq_refl)).
Defined.

(** ** Progress reports *)

Lemma imap_fst_seq {A : Type} (g : nat -> A -> nat * A) (l : list A) (k : nat) :
  (forall i x, (g i x).1 = (k + i)%nat) -> (imap g l).*1 = seq k (length l).
Proof.
  revert g k. induction l as [| x l IH]; intros g k Hg; [reflexivity |].
  rewrite imap_cons. cbn [fmap list_fmap length seq]. rewrite Hg, Nat.add_0_r. f_equal.
  apply IH. intros i y. cbn. rewrite Hg. lia.
Qed.

Lemma screened_positions (w : world) :
  (screened w).*1 = seq 0 (Nat.min (selected_count w) (length (tickers w))).
Proof.
  unfold screened, enumerate. rewrite (imap_fst_seq _ _ 0) by done.
  by rewrite length_firstn.
Qed.

Lemma progress_values_reports (count : nat) (items : list (nat * string)) :
  progress_values (map (progress_of count) items)
  = map (fun i : nat => py (INR (i + 1) / INR count)) (items.*1).
Proof.
  induction items as [| it items IH]; [reflexivity |].
  unfold progress_values in *. cbn [map omap list_omap progress_of fmap list_fmap].
  by rewrite IH.
Qed.

Lemma main_progress {N : ScipyNorm} {F : Float64} {P : PandasSort} (w : world) (out : run) :
  main w = Ok out ->
  progress_values (ui out)
  = map (fun i : nat => py (INR (i + 1) / INR (selected_count w)))
        (seq 0 (Nat.min (selected_count w) (length (tickers w)))).
Proof.
  intros Hmain.
  apply main_Ok in Hmain as (rate & warnings & Hrate & _ & _ & _ & ->).
  apply rate_warnings in Hrate.
  unfold progress_values. rewrite !omap_app.
  fold (progress_values (map (progress_of (selected_count w)) (screened w))).
  rewrite progress_values_reports, screened_positions.
  assert (Hw : omap (fun e => match e with Progress p => Some p | _ => None end) warnings = []).
  { by destruct Hrate as [-> | ->]. }
  rewrite Hw. cbn [app omap list_omap opening].
  destruct (top_25 out); cbn [omap list_omap display]; by rewrite app_nil_r.
Qed.

(** Property X11: [main] reports progress once per visited ticker, with the values
    [(i + 1) / selected_count] in increasing order, each in (0, 1].  The last
    report is 1 when the universe holds at least [selected_count] tickers;
    when it holds fewer, every report stays below 1. *)
Theorem X11_progress_reports {N : ScipyNorm} {F : Float64} {P : PandasSort}
    (w : world) (out : run) :
  main w = Ok out ->
  progress_values (ui out)
  = map (fun i : nat => py (INR (i + 1) / INR (selected_count w)))
        (seq 0 (Nat.min (selected_count w) (length (tickers w)))) /\
  (forall i : nat,
      (i < Nat.min (selected_count w) (length (tickers w)))%nat ->
      0 < INR (i + 1) / INR (selected_count w) <= 1) /\
  ((0 < selected_count w <= length (tickers w))%nat ->
   exists x : R, last (progress_values (ui out)) = Some (py x) /\ x = 1) /\
  ((length (tickers w) < selected_count w)%nat ->
   forall i : nat,
     (i < Nat.min (selected_count w) (length (tickers w)))%nat ->
     INR (i + 1) / INR (selected_count w) < 1).
Proof.
  intros Hmain. split; [by apply main_progress |].
  split; [| split].
  - intros i Hi.
    assert (Hc : 0 < INR (selected_count w)) by (apply lt_0_INR; lia).
    assert (Hi1 : 0 < INR (i + 1) <= INR (selected_count w)).
    { split; [apply lt_0_INR; lia | apply le_INR; lia]. }
    split; [apply Rdiv_lt_0_compat; lra |].
    apply Rmult_le_reg_r with (INR (selected_count w)); [exact Hc |].
    replace (INR (i + 1) / INR (selected_count w) * INR (selected_count w))
      with (INR (i + 1)) by (field; lra). lra.
  - intros [Hpos Hle]. rewrite (main_progress w out Hmain).
    rewrite Nat.min_l by exact Hle.
    destruct (selected_count w) as [| n] eqn:Hcount; [lia |].
    rewrite seq_S, map_app. cbn [map]. rewrite last_snoc. cbn [Nat.add].
    eexists. split; [reflexivity |].
    replace (n + 1)%nat with (Datatypes.S n) by lia.
    field. apply not_0_INR. lia.
  - intros Hshort i Hi.
    assert (Hc : 0 < INR (selected_count w)) by (apply lt_0_INR; lia).
    assert (Hi1 : INR (i + 1) < INR (selected_count w)) by (apply lt_INR; lia).
    apply Rmult_lt_reg_r with (INR (selected_count w)); [exact Hc |].
    replace (INR (i + 1) / INR (selected_count w) * INR (selected_count w))
      with (INR (i + 1)) by (field; lra). lra.
Qed.

Lemma X11_progress_reports_witness :
  progress_values flat_world_ui
  = map (fun i : nat => py (INR (i + 1) / INR 25)) (seq 0 (Nat.min 25 1)).
Proof.
  exact (proj1 (@X11_progress_reports sigmoid_norm exact_reals stable_pandas flat_world _
                  flat_world_run)).
Defined.

(** ** The rows of a run *)

Lemma contributions_sublist {N : ScipyNorm} {F : Float64} (w : world) (rate : num)
    (items : list (nat * string)) :
  sublist (Ticker <$> omap (contribution w rate) items) (items.*2).
Proof.
  induction items as [| it items IH]; [constructor |].
  cbn [omap list_omap fmap list_fmap].
  destruct (contribution w rate it) as [r |] eqn:Hr.
  - apply contribution_row in Hr as [<- _]. by apply sublist_skip.
  - by apply sublist_cons.
Qed.

(** Property X12: the rows of a run follow the order of the universe: their tickers
    are a subsequence of the first [selected_count] tickers, so there is at
    most one row per visited position and never a row for a ticker beyond
    them. *)
Theorem X12_results_follow_universe_order {N : ScipyNorm} {F : Float64} {P : PandasSort}
    (w : world) (out : run) :
  main w = Ok out ->
  sublist (Ticker <$> results out) (firstn (selected_count w) (tickers w)) /\
  (length (results out) <= Nat.min (selected_count w) (length (tickers w)))%nat.
Proof.
  intros Hmain.
  apply main_Ok in Hmain as (rate & warnings & _ & _ & Hresults & _).
  assert (Hsub : sublist (Ticker <$> results out) (firstn (selected_count w) (tickers w))).
  { rewrite Hresults, <- screened_tickers. apply contributions_sublist. }
  split; [exact Hsub |].
  apply sublist_length in Hsub. rewrite length_fmap, length_firstn in Hsub. lia.
Qed.

Lemma X12_results_follow_universe_order_witness :
  sublist (Ticker <$> [flat_row]) (firstn 25 ["MMM"%string]).
Proof.
  exact (proj1 (@X12_results_follow_universe_order sigmoid_norm exact_reals stable_pandas
                  flat_world _ flat_world_run)).
Defined.

(** ** Affordability for any price *)

Lemma affordable_not_positive {F : Float64} (capital : R) (price : num) :
  0 <= capital ->
  (forall p : R, val price = Fin p -> p <= 0) ->
  affordable_contracts (py capital) price = Ok 0%Z.
Proof.
  intros Hc Hall. destruct price as [k [p | | |]].
  - apply affordable_nonpositive. by apply Hall.
  - unfold affordable_contracts, gt, floordiv, fmul, binop, xfmul.
    cbn [val kind xgt xmul is_zero py].
    rewrite inf_of_sign_pos by lra. cbn [xfloordiv]. rewrite Rleb_true by assumption.
    destruct k; cbn [join is_zero]; rewrite bind_Ok; apply (int_of_integer _ 0).
  - reflexivity.
  - reflexivity.
Qed.

(** Property X13: for a capital that is a float and not negative, a count the
    affordability expression returns is never negative, whatever the call
    price, NaN and the infinities included; for a NaN, an infinite or a
    non-positive price it is 0.  For a positive float price the contracts
    counted cost no more than the capital and one more would cost more, at
    the cost per contract the program computes: the float nearest to 100
    times the price. *)
Theorem X13_affordable_within_budget {F : Float64} (capital : R) (price : num) :
  Float64Laws F -> 0 <= capital -> fl capital = capital ->
  (forall n : Z, affordable_contracts (py capital) price = Ok n -> (0 <= n)%Z) /\
  ((forall p : R, val price = Fin p -> p <= 0) ->
     affordable_contracts (py capital) price = Ok 0%Z) /\
  (forall p : R,
     val price = Fin p -> fl p = p -> 0 < p ->
     overflows (p * 100) = false -> capital / fl (p * 100) < 2 ^ 51 ->
     exists n : Z,
       affordable_contracts (py capital) price = Ok n /\
       fl (p * 100) * IZR n <= capital < fl (p * 100) * (IZR n + 1)).
Proof.
  intros Laws Hc Hfc.
  split; [intros n; by apply affordable_nonneg |].
  split; [by apply affordable_not_positive |].
  intros p Hprice Hfp Hp Hfin Hsmall.
  destruct price as [k v]. cbn [val] in Hprice. subst v.
  pose proof (cost_positive p Laws Hfp Hp) as Hcost.
  exists (Zfloor (capital / fl (p * 100))).
  split; [by apply affordable_positive |].
  pose proof (Zfloor_bound (capital / fl (p * 100))) as Hfloor.
  assert (Hq : capital / fl (p * 100) * fl (p * 100) = capital) by (field; lra).
  nra.
Qed.

Lemma X13_affordable_within_budget_witness :
  exists n : Z,
    @affordable_contracts binary64 (py 1000) (np (5 / 2)) = Ok n /\
    nearest_float (5 / 2 * 100) * IZR n <= 1000 < nearest_float (5 / 2 * 100) * (IZR n + 1).
Proof.
  destruct (@X13_affordable_within_budget binary64 1000 (np (5 / 2))
              binary64_laws ltac:(lra) nearest_float_1000) as (_ & _ & Hbudget).
  assert (Hcost : 5 / 2 * 100 = 250) by lra.
  apply (Hbudget (5 / 2)).
  - reflexivity.
  - apply nearest_float_5_2.
  - lra.
  - cbn [overflows binary64]. apply float_overflow_small.
    pose proof (powerRZ_2_mono 8 970 ltac:(lia)) as Hle.
    rewrite (powerRZ_2_IZR 8) in Hle by lia.
    assert (H8 : IZR (2 ^ 8) = 256) by reflexivity.
    rewrite H8 in Hle. rewrite Rabs_right by lra. lra.
  - cbn [fl binary64]. rewrite Hcost, nearest_float_250. simpl. lra.
Defined.

(** Property X14: when the capital entered is a float and not negative, no row of a
    run has a negative number of contracts. *)
Theorem X14_rows_never_short {N : ScipyNorm} {F : Float64} {P : PandasSort}
    (w : world) (out : run) :
  Float64Laws F ->
  0 <= user_liquidity w -> fl (user_liquidity w) = user_liquidity w ->
  main w = Ok out ->
  Forall (fun r : row => (0 <= Contracts r)%Z) (results out).
Proof.
  intros Laws Hcapital Hfloat Hmain.
  apply main_Ok in Hmain as (rate & warnings & _ & _ & Hresults & _).
  rewrite Hresults. apply Forall_forall. intros r Hr.
  apply list_elem_of_omap in Hr as (it & _ & Hit).
  apply contribution_row in Hit as (_ & price & Hprice).
  by apply (affordable_nonneg (user_liquidity w) price).
Qed.

Lemma X14_rows_never_short_witness :
  Forall (fun r : row => (0 <= Contracts r)%Z) [flat_row].
Proof.
  apply (@X14_rows_never_short sigmoid_norm exact_reals stable_pandas flat_world _
           exact_reals_laws ltac:(simpl; lra) eq_refl flat_world_run).
Defined.

(** ** The head of the leaderboard *)

(** Property X16: for a non-empty result set the leaderboard is not empty, holds at
    most 25 rows, all of them result rows, and its first row may stand before
    every result row: no row has a larger call price. *)
Theorem X16_leaderboard_head_is_maximal `{P : PandasSort} (rows : list row) :
  PandasSortLaws P ->
  rows <> [] ->
  exists (first : row) (rest : list row),
    leaderboard rows = Ok (first :: rest) /\
    (length (first :: rest) <= 25)%nat /\
    (forall r : row, r ∈ first :: rest -> r ∈ rows) /\
    (forall r : row, r ∈ rows -> ranks_before first r).
Proof.
  intros Laws Hrows.
  destruct (ranked_head_spec rows Laws) as (Hlen & Hsorted & (left_out & Hperm & Hcross) & _).
  destruct (ranked_head rows) as [| first rest] eqn:Htop.
  { destruct rows as [| r0 rows0]; [by destruct Hrows |]. cbn [length] in Hlen. lia. }
  exists first, rest.
  split.
  { destruct rows as [| r0 rows0]; [by destruct Hrows |].
    unfold leaderboard. by rewrite Htop. }
  split; [rewrite Hlen; lia |].
  split.
  - intros r Hr. rewrite <- Hperm. apply elem_of_app. by left.
  - intros r Hr. rewrite <- Hperm in Hr.
    apply elem_of_app in Hr as [Hr | Hr].
    + apply elem_of_cons in Hr as [-> | Hr]; [apply desc_ok_refl |].
      apply StronglySorted_inv in Hsorted as [_ Hall].
      rewrite Forall_forall in Hall. by apply Hall.
    + apply Hcross; [left | exact Hr].
Qed.

Lemma X16_leaderboard_head_is_maximal_witness :
  exists (first : row) (rest : list row),
    @leaderboard stable_pandas [tied_first; flat_row] = Ok (first :: rest) /\
    (forall r : row, r ∈ [tied_first; flat_row] -> ranks_before first r).
Proof.
  destruct (@X16_leaderboard_head_is_maximal stable_pandas [tied_first; flat_row]
              stable_pandas_laws ltac:(discriminate))
    as (first & rest & Htop & _ & _ & Hmax).
  exists first, rest. split; [exact Htop | exact Hmax].
Defined.


(** Property X17: what a run shows.  The table is shown exactly when there is at
    least one row; it is the leaderboard of the rows, it follows the success
    message and its own heading, and only the note on the capital comes
    after it.  With no row the success message is the last thing shown. *)
Theorem X17_what_main_shows {N : ScipyNorm} {F : Float64} {P : PandasSort}
    (w : world) (out : run) :
  main w = Ok out ->
  (top_25 out = None <-> results out = []) /\
  tables (ui out) = option_list (top_25 out) /\
  (forall top : list row,
      top_25 out = Some top ->
      leaderboard (results out) = Ok top /\
      exists before : list ui_event,
        ui out = before ++ [Success "Calculation Complete";
                            Subheader "Top 25 by Black-Scholes Call Price";
                            Dataframe top;
                            Note (py (user_liquidity w))]) /\
  (top_25 out = None -> last (ui out) = Some (Success "Calculation Complete")) /\
  (exists rest : list ui_event,
      ui out = Title "Black-Scholes Analysis for S&P 500" :: Introduction :: rest).
Proof.
  intros Hmain.
  apply main_Ok in Hmain as (rate & warnings & Hrate & _ & _ & Htop & Hui).
  apply rate_warnings in Hrate.
  assert (Hw : tables warnings = []) by (by destruct Hrate as [-> | ->]).
  assert (Hp : forall items : list (nat * string),
             tables (map (progress_of (selected_count w)) items) = []).
  { induction items as [| it items IH]; [reflexivity | exact IH]. }
  split; [| split; [| split; [| split]]].
  - rewrite Htop. by destruct (results out).
  - rewrite Hui. unfold tables in *. rewrite !omap_app, Hw, Hp.
    by destruct (top_25 out).
  - intros top Hshown. split.
    + rewrite Htop in Hshown. destruct (results out) as [| r rows]; [done |].
      by injection Hshown as <-.
    + rewrite Hui, Hshown. eexists. rewrite !app_assoc. rewrite <- (app_assoc _ [Success _]).
      reflexivity.
  - intros Hnone. rewrite Hui, Hnone, app_nil_r, !app_assoc. apply last_snoc.
  - rewrite Hui. eexists. reflexivity.
Qed.

Lemma X17_what_main_shows_witness :
  tables flat_world_ui = option_list (Some [flat_row]).
Proof.
  destruct (@X17_what_main_shows sigmoid_norm exact_reals stable_pandas flat_world _
              flat_world_run) as (_ & Htables & _).
  exact Htables.
Defined.

(** ** Frames of the price fetch *)

(** Property X18: a frame the price fetch returns comes from an answer with status
    200 and a time series in which some day has an adjusted close.  It has
    at least one row and the single column [adj_close], with one price per
    row, so that its last price can be read; and the estimator always
    accepts it: afterwards the frame has the two columns [adj_close] and
    [log_return], each with one entry per row, and as many rows as before. *)
Theorem X18_fetched_frames_are_well_formed (answer : result price_response)
    (df : DataFrame) :
  fetch_price_data answer = Ok (Some df) ->
  exists (days : list (string * option xfloat)) (closes : list xfloat)
         (sigma : num) (df' : DataFrame),
    (exists response : price_response,
        answer = Ok response /\
        price_status_code response = 200%Z /\
        price_json response = Json (Ok days)) /\
    (exists (day : string) (close : xfloat), (day, Some close) ∈ days) /\
    index df = days.*1 /\
    (0 < len df)%nat /\
    dom (columns df) = {[ "adj_close"%string ]} /\
    columns df !! "adj_close" = Some closes /\
    length closes = len df /\
    is_Some (last closes) /\
    calculate_volatility df = Ok (sigma, df') /\
    dom (columns df') = {[ "log_return"%string; "adj_close"%string ]} /\
    len df' = len df /\
    (forall (name : string) (s : list xfloat),
        columns df' !! name = Some s -> length s = len df).
Proof.
  intros Hdf.
  apply fetch_price_data_Some in Hdf as (response & days & Hanswer & Hcode & Hbody & Hclose & ->).
  exists days, (close_of <$> days).
  eexists _, _. unfold len. cbn [columns index].
  split; [by exists response |].
  split.
  { apply existsb_exists in Hclose as ([day [close |]] & Hin & Hhas); [| done].
    exists day, close. by apply list_elem_of_In. }
  split; [reflexivity |].
  assert (Hne : days <> []) by (by apply (existsb_nonempty has_close)).
  split; [rewrite length_fmap; destruct days; [done | simpl; lia] |].
  split; [apply dom_singleton_L |].
  split; [apply lookup_singleton_eq |].
  split; [by rewrite !length_fmap |].
  split; [destruct days as [| day0 days]; [done | apply last_nonempty] |].
  split; [apply volatility_unfold, lookup_singleton_eq |].
  cbn zeta. cbn [columns index].
  split; [rewrite dom_insert_L, dom_singleton_L; set_solver |].
  split; [reflexivity |].
  intros name s Hs.
  destruct (decide (name = "log_return"%string)) as [-> | Hname].
  + rewrite lookup_insert_eq in Hs. injection Hs as <-.
    by rewrite length_log_return_column, !length_fmap.
  + rewrite lookup_insert_ne in Hs by done.
    apply lookup_singleton_Some in Hs as [_ <-]. by rewrite !length_fmap.
Qed.

Lemma X18_fetched_frames_are_well_formed_witness :
  exists (sigma : num) (df' : DataFrame),
    calculate_volatility flat_frame = Ok (sigma, df') /\
    dom (columns df') = {[ "log_return"%string; "adj_close"%string ]} /\
    len df' = 30%nat.
Proof.
  destruct (X18_fetched_frames_are_well_formed flat_answer flat_frame flat_fetch)
    as (days & closes & sigma & df' & _ & _ & _ & _ & _ & _ & _ & _ & Hvol & Hdom & Hlen & _).
  exists sigma, df'. split; [exact Hvol |]. split; [exact Hdom | exact Hlen].
Defined.

(** ** A zero volatility in the loop *)

Lemma rate_times_maturity (S r : R) :
  0 < S -> d1_numerator S S (30 / 365) r 0 = r * (30 / 365).
Proof.
  intros HS. unfold d1_numerator.
  replace (S / S) with 1 by (field; lra). rewrite ln_1. ring.
Qed.

(** Property X19: a ticker whose daily log returns are all equal (a constant price,
    or a constant growth) has volatility 0, and the loop still builds its
    row.  With a positive rate the row holds the discounted gain
    [S - S * exp (- r * T)] as call price, delta 1 and vega 0; with a rate of 0
    the call price, delta and vega are NaN; with a negative rate they are 0.
    In the last two cases no contract is affordable.  The row is the one of
    exact real arithmetic, [exact_reals]. *)
Theorem X19_zero_volatility_row {N : ScipyNorm} (ticker : string) (df : DataFrame)
    (prices : list R) (S r capital : R) :
  columns df !! "adj_close" = Some (map Fin prices) ->
  (3 <= length prices)%nat ->
  Forall (fun p => 0 < p) prices ->
  last prices = Some S ->
  (forall x y : R, x ∈ log_returns prices -> y ∈ log_returns prices -> x = y) ->
  (0 < r ->
   @analyze N exact_reals ticker df (py (30 / 365)) (py r) capital
   = Ok (Row ticker (@round exact_reals (np S) 2) (np 0)
             (@round exact_reals (np (S - S * exp (- r * (30 / 365)))) 2) (np 1) (np 0)
             (Zfloor (capital / (100 * (S - S * exp (- r * (30 / 365)))))))) /\
  (r = 0 ->
   @analyze N exact_reals ticker df (py (30 / 365)) (py r) capital
   = Ok (Row ticker (@round exact_reals (np S) 2) (np 0)
             (Num NpFloat64 NaN) (Num NpFloat64 NaN) (Num NpFloat64 NaN) 0)) /\
  (r < 0 ->
   @analyze N exact_reals ticker df (py (30 / 365)) (py r) capital
   = Ok (Row ticker (@round exact_reals (np S) 2) (np 0) (np 0) (np 0) (np 0) 0)).
Proof.
  intros Hadj Hlen Hpos Hlast Hequal.
  assert (HS : 0 < S).
  { rewrite Forall_forall in Hpos. apply Hpos. by apply last_Some_elem_of. }
  assert (Hsigma : annualized_volatility prices = 0).
  { unfold annualized_volatility.
    assert (Hstd : sample_std (log_returns prices) = 0).
    { apply sample_std_zero_iff; [| exact Hequal].
      destruct prices as [| a l]; [simpl in Hlen; lia |].
      rewrite length_log_returns. simpl in Hlen. lia. }
    rewrite Hstd. ring. }
  destruct (volatility_formula df prices Hadj Hlen Hpos) as [df' Hvol].
  rewrite Hsigma in Hvol.
  assert (Hquote : forall q : num * num * num,
             black_scholes_call (np S) (np S) (py (30 / 365)) (py r) (np 0) = Ok q ->
             quote df (py (30 / 365)) (py r) = Ok (np S, np 0, q)).
  { intros q Hq. unfold quote, column. rewrite Hadj, bind_Ok.
    unfold iloc_last. rewrite fmap_last, Hlast. cbn [fmap option_fmap option_map].
    rewrite bind_Ok, Hvol, bind_Ok. cbv beta iota.
    change (Num NpFloat64 (Fin S)) with (np S). by rewrite Hq. }
  assert (Hzero4 : @round exact_reals (np 0) 4 = np 0).
  { apply (round_exact 0 4 0). simpl. lra. }
  assert (Hone4 : @round exact_reals (np 1) 4 = np 1).
  { apply (round_exact 1 4 10000). simpl. lra. }
  assert (Hzero2 : @round exact_reals (np 0) 2 = np 0).
  { apply (round_exact 0 2 0). simpl. lra. }
  split; [| split].
  - intros Hr. unfold analyze.
    rewrite (Hquote (np (S - S * exp (- r * (30 / 365))), np 1, np 0)).
    2:{ apply pricer_numpy_positive; [lra | lra | lra | ring |].
        rewrite rate_times_maturity by assumption. nra. }
    rewrite bind_Ok. cbv beta iota.
    assert (Hgain : 0 < S - S * exp (- r * (30 / 365))).
    { assert (He : exp (- r * (30 / 365)) < 1).
      { rewrite <- exp_0. apply exp_increasing. nra. }
      nra. }
    assert (Haff : @affordable_contracts exact_reals (py capital)
                     (np (S - S * exp (- r * (30 / 365))))
                   = Ok (Zfloor (capital / (100 * (S - S * exp (- r * (30 / 365)))))))
      by (by apply affordable_positive_exact).
    rewrite Haff, bind_Ok, Hzero4, Hone4. reflexivity.
  - intros Hr. unfold analyze.
    rewrite (Hquote (Num NpFloat64 NaN, Num NpFloat64 NaN, Num NpFloat64 NaN)).
    2:{ apply pricer_numpy_zero; [lra | lra | lra | ring |].
        rewrite rate_times_maturity by assumption. rewrite Hr. ring. }
    rewrite bind_Ok. cbv beta iota.
    assert (Haff : @affordable_contracts exact_reals (py capital) (Num NpFloat64 NaN)
                   = Ok 0%Z)
      by reflexivity.
    rewrite Haff, bind_Ok, Hzero4. reflexivity.
  - intros Hr. unfold analyze.
    rewrite (Hquote (np 0, np 0, np 0)).
    2:{ apply pricer_numpy_negative; [lra | lra | lra | ring |].
        rewrite rate_times_maturity by assumption. nra. }
    rewrite bind_Ok. cbv beta iota.
    assert (Haff : @affordable_contracts exact_reals (py capital) (np 0) = Ok 0%Z)
      by (apply affordable_nonpositive; lra).
    rewrite Haff, bind_Ok, Hzero4, Hzero2. reflexivity.
Qed.

Lemma X19_zero_volatility_row_witness :
  @analyze sigmoid_norm exact_reals "MMM" three_day_frame (py (30 / 365)) (py 0) 1000
  = Ok (Row "MMM" (@round exact_reals (np 100) 2) (np 0)
            (Num NpFloat64 NaN) (Num NpFloat64 NaN) (Num NpFloat64 NaN) 0).
Proof.
  assert (Hpos : Forall (fun p => 0 < p) [100; 100; 100]) by (repeat constructor; lra).
  destruct (@X19_zero_volatility_row sigmoid_norm "MMM" three_day_frame [100; 100; 100]
              100 0 1000 (lookup_singleton_eq _ _) ltac:(simpl; lia) Hpos eq_refl)
    as (_ & Hzero & _).
  - intros x y Hx Hy. cbn [log_returns] in Hx, Hy.
    repeat match goal with
           | H : _ ∈ _ :: _ |- _ => apply elem_of_cons in H as [-> | H]
           | H : _ ∈ [] |- _ => by apply elem_of_nil in H
           end; reflexivity.
  - by apply Hzero.
Defined.

(** ** The capital and the rows *)

Lemma affordable_infinite_exact (c : R) (k : ftype) :
  0 <= c -> @affordable_contracts exact_reals (py c) (Num k PInf) = Ok 0%Z.
Proof.
  intros Hc. unfold affordable_contracts, gt, floordiv, fmul, binop, xfmul.
  cbn [val kind xgt xmul is_zero py].
  rewrite inf_of_sign_pos by lra. cbn [xfloordiv]. rewrite Rleb_true by assumption.
  destruct k; cbn [join is_zero]; rewrite bind_Ok; apply (int_of_integer _ 0).
Qed.

Lemma affordable_mono (c c' : R) (price : num) :
  0 <= c <= c' ->
  exists n n' : Z,
    @affordable_contracts exact_reals (py c) price = Ok n /\
    @affordable_contracts exact_reals (py c') price = Ok n' /\
    (n <= n')%Z.
Proof.
  intros [Hc Hcc'].
  destruct price as [k [p | | |]].
  - destruct (Rlt_dec 0 p) as [Hp | Hp].
    + exists (Zfloor (c / (100 * p))), (Zfloor (c' / (100 * p))).
      split; [by apply affordable_positive_exact |].
      split; [by apply affordable_positive_exact |].
      apply Zfloor_le. apply Rmult_le_compat_r; [| assumption].
      left. apply Rinv_0_lt_compat. lra.
    + exists 0%Z, 0%Z. split; [apply affordable_nonpositive; lra |].
      split; [apply affordable_nonpositive; lra | lia].
  - exists 0%Z, 0%Z. split; [by apply affordable_infinite_exact |].
    split; [apply affordable_infinite_exact; lra | lia].
  - exists 0%Z, 0%Z. split; [reflexivity |]. split; [reflexivity | lia].
  - exists 0%Z, 0%Z. split; [reflexivity |]. split; [reflexivity | lia].
Qed.

Lemma contribution_capital {N : ScipyNorm} (w : world) (capital' : R) (rate : num)
    (it : nat * string) :
  0 <= user_liquidity w <= capital' ->
  match @contribution N exact_reals w rate it,
        @contribution N exact_reals (with_capital w capital') rate it with
  | Some r, Some r' => same_quote r r' /\ (Contracts r <= Contracts r')%Z
  | None, None => True
  | _, _ => False
  end.
Proof.
  intros Hc. unfold contribution, with_capital. cbn [alpha_vantage user_liquidity].
  destruct (fetch_price_data (alpha_vantage w it.1 it.2)) as [[df |] | e]; [| done | done].
  destruct (30 <=? len df)%nat; [| done].
  unfold analyze.
  destruct (quote df (py (30 / 365)) rate) as [[[spot sigma] [[price delta] vega]] | e];
    [| done].
  rewrite !bind_Ok. cbv beta iota.
  destruct (affordable_mono _ _ price Hc) as (n & n' & -> & -> & Hle).
  rewrite !bind_Ok. split; [by repeat split | exact Hle].
Qed.

Lemma contributions_capital {N : ScipyNorm} (w : world) (capital' : R) (rate : num)
    (items : list (nat * string)) :
  0 <= user_liquidity w <= capital' ->
  Forall2 (fun r r' : row => same_quote r r' /\ (Contracts r <= Contracts r')%Z)
          (omap (@contribution N exact_reals w rate) items)
          (omap (@contribution N exact_reals (with_capital w capital') rate) items).
Proof.
  intros Hc. induction items as [| it items IH]; [constructor |].
  cbn [omap list_omap].
  pose proof (contribution_capital w capital' rate it Hc) as Hit.
  destruct (@contribution N exact_reals w rate it),
           (@contribution N exact_reals (with_capital w capital') rate it);
    try done.
  by constructor.
Qed.

(** Property X20: the capital entered only moves the contracts column: with a larger
    capital [main] builds rows for the same tickers with the same price,
    volatility, call price, delta and vega, and each row affords at least as
    many contracts as before.  The runs are those of exact real arithmetic,
    [exact_reals]. *)
Theorem X20_capital_only_moves_contracts {N : ScipyNorm} {P : PandasSort} (w : world)
    (capital' : R) (out : run) :
  0 <= user_liquidity w <= capital' ->
  @main N exact_reals P w = Ok out ->
  exists out' : run,
    @main N exact_reals P (with_capital w capital') = Ok out' /\
    Forall2 (fun r r' : row => same_quote r r' /\ (Contracts r <= Contracts r')%Z)
            (results out) (results out').
Proof.
  intros Hc Hmain.
  apply main_Ok in Hmain as (rate & warnings & Hrate & Hsteps & Hresults & _).
  assert (Hsteps' : Forall (@step_returns N exact_reals (with_capital w capital') rate)
                           (screened (with_capital w capital'))).
  { apply Forall_forall. intros it Hit.
    apply step_returns_exact; [cbn [with_capital user_liquidity]; lra |].
    rewrite Forall_forall in Hsteps.
    by apply (step_returns_exact w rate it ltac:(lra)), Hsteps. }
  rewrite (main_returns (with_capital w capital') rate warnings Hrate Hsteps'), report_run.
  eexists. split; [reflexivity |].
  cbn [results]. rewrite Hresults. by apply contributions_capital.
Qed.

Lemma X20_capital_only_moves_contracts_witness :
  exists out' : run,
    @main sigmoid_norm exact_reals stable_pandas (with_capital flat_world 5000) = Ok out' /\
    Forall2 (fun r r' : row => same_quote r r' /\ (Contracts r <= Contracts r')%Z)
            [flat_row] (results out').
Proof.
  apply (@X20_capital_only_moves_contracts sigmoid_norm stable_pandas flat_world 5000 _
           ltac:(simpl; lra) flat_world_run).
Defined.
